(** * Virtual Studio Node: recording-session bot and bot-name configuration

    A shallow embedding of [scripts/enhanced-bot.py] and
    [scripts/configure-bot-name.py], followed by the properties of the
    recording-session lifecycle and of the [.env] rewriting that hold of it.

    Conventions.
    - A Python [str] is a [string] of UTF-8 bytes; literals are the bytes of
      the source file.
    - The process-wide dictionary [recording_state] is a record, one field per
      key.
    - Coroutines are programs of a free monad over the calls the code makes to
      the outside (Discord, OBS, the clock, the file system, HTTP, S3, rclone)
      and over the reads and writes of [recording_state]; [raise] is a
      constructor of the monad and [try ... except Exception] a combinator.
    - A program runs against an oracle that answers the outside calls; every
      call and its answer is appended to a trace. *)

From Stdlib Require Import ZArith String Ascii List Lia.
From stdpp Require Import base option list strings gmap pretty.

Local Open Scope string_scope.
Local Open Scope Z_scope.

(* ================================================================= *)
(** * Python primitives *)

Module Py.

(** ** Exceptions: the subclasses of [Exception] the code can meet, each with
    the text [str(e)] gives. *)

Inductive exn : Type :=
| TypeError (msg : string)
| KeyError (key : string)
| IndexError (msg : string)
| ValueError (msg : string)
| OSError (msg : string)
| NoCredentialsError (msg : string)
| LibraryError (msg : string).

Definition exn_str (e : exn) : string :=
  match e with
  | KeyError key => "'" +:+ key +:+ "'"
  | TypeError msg | IndexError msg | ValueError msg | OSError msg
  | NoCredentialsError msg | LibraryError msg => msg
  end.

(** What a call gives back: a value, or an exception. *)
Inductive outcome (A : Type) : Type :=
| Returned (a : A)
| Failed (e : exn).
Arguments Returned {A} a.
Arguments Failed {A} e.

Definition is_returned {A} (r : outcome A) : bool :=
  match r with Returned _ => true | Failed _ => false end.

(** ** Truthiness *)

Definition truthy_str (s : string) : bool := negb (String.eqb s "").

(** [bool(x)] for a value that is a string or [None] ([os.getenv]). *)
Definition truthy (o : option string) : bool :=
  match o with Some s => truthy_str s | None => false end.

(** [all([...])] *)
Definition all_truthy (l : list (option string)) : bool := forallb truthy l.

(** [a or b] on optional strings. *)
Definition py_or (a b : option string) : option string :=
  if truthy a then a else b.

(** [f"{x}"] for a value that is a string or [None]. *)
Definition str_opt (o : option string) : string :=
  match o with Some s => s | None => "None" end.

(** ** Integers as text *)

(** [str(n)] *)
Definition str_int (n : Z) : string := pretty n.

Fixpoint zeros (n : nat) : string :=
  match n with O => "" | S n => String "0" (zeros n) end.

(** [f"{n:0wd}"] and ["%0wd" % n]: sign first, then zeros up to width [w]. *)
Definition zfill_int (w : nat) (n : Z) : string :=
  let digits := pretty (Z.abs n) in
  let sign := if n <? 0 then "-" else "" in
  sign +:+ zeros (w - String.length sign - String.length digits) +:+ digits.

(** [len(s)]: code points, that is bytes that are not UTF-8 continuations. *)
Fixpoint len (s : string) : Z :=
  match s with
  | EmptyString => 0
  | String c r =>
      let n := Z.of_nat (nat_of_ascii c) in
      (if (128 <=? n) && (n <? 192) then 0 else 1) + len r
  end.

(** ** [str.split(sep)], [sep.join], [str.startswith] *)

Fixpoint split (sep : ascii) (s : string) : list string :=
  match s with
  | EmptyString => [EmptyString]
  | String c r =>
      if Ascii.eqb c sep then EmptyString :: split sep r
      else match split sep r with
           | [] => [String c EmptyString]
           | piece :: pieces => String c piece :: pieces
           end
  end.

Definition join (sep : string) (l : list string) : string := String.concat sep l.

Definition startswith (s p : string) : bool := String.prefix p s.

Definition newline : ascii := "010"%char.
Definition nl : string := String newline EmptyString.

(** ** [str.strip()]: removes the characters for which [str.isspace] holds, on
    both sides. The table lists their UTF-8 encodings. *)

Definition bytes (l : list nat) : string :=
  string_of_list_ascii (map ascii_of_nat l).

Definition whitespace : list string :=
  map bytes
    [ [9]; [10]; [11]; [12]; [13]; [28]; [29]; [30]; [31]; [32];
      [194; 133]; [194; 160]; [225; 154; 128];
      [226; 128; 128]; [226; 128; 129]; [226; 128; 130]; [226; 128; 131];
      [226; 128; 132]; [226; 128; 133]; [226; 128; 134]; [226; 128; 135];
      [226; 128; 136]; [226; 128; 137]; [226; 128; 138];
      [226; 128; 168]; [226; 128; 169]; [226; 128; 175];
      [226; 129; 159]; [227; 128; 128] ]%nat.

Fixpoint drop_prefix (p s : string) : option string :=
  match p, s with
  | EmptyString, _ => Some s
  | String a p', String b s' => if Ascii.eqb a b then drop_prefix p' s' else None
  | String _ _, EmptyString => None
  end.

Fixpoint drop_any (table : list string) (s : string) : option string :=
  match table with
  | [] => None
  | p :: table' =>
      match drop_prefix p s with
      | Some r => Some r
      | None => drop_any table' s
      end
  end.

Fixpoint lstrip_with (table : list string) (fuel : nat) (s : string) : string :=
  match fuel with
  | O => s
  | S fuel' =>
      match drop_any table s with
      | Some r => lstrip_with table fuel' r
      | None => s
      end
  end.

Definition lstrip (s : string) : string :=
  lstrip_with whitespace (String.length s) s.

Definition rstrip (s : string) : string :=
  String.rev (lstrip_with (map String.rev whitespace) (String.length s) (String.rev s)).

Definition strip (s : string) : string := rstrip (lstrip s).

(** ** [str.lower()], on the ASCII letters; other bytes are kept.

    On a text of ASCII characters this is [str.lower()]. On other texts
    [str.lower()] also lowers the cased letters outside ASCII, which
    [lower] keeps: the two differ there, though not on whether the result
    is [start], [stop], [status] or [upload], as the one character outside
    ASCII that lowers to an ASCII letter is the Kelvin sign, to [k]. *)

Definition is_ascii (c : ascii) : bool := (nat_of_ascii c <? 128)%nat.

Definition lower_ascii (c : ascii) : ascii :=
  let n := nat_of_ascii c in
  if ((65 <=? n) && (n <=? 90))%nat then ascii_of_nat (n + 32) else c.

Fixpoint lower (s : string) : string :=
  match s with
  | EmptyString => EmptyString
  | String c r => String (lower_ascii c) (lower r)
  end.

(** ** [template.format(kw=value)] with one keyword argument.

    Covered: literal text, the escapes [{{] and [}}], and replacement fields
    [{name}] with a name of ASCII characters. A field that is empty or a
    number asks for a positional argument, of which there is none
    ([IndexError], or [ValueError] for a number above [sys.maxsize] of a
    64-bit build); a field with another name has no keyword to match
    ([KeyError]). Where [format] returns, and where it fails with one of
    these errors or with that of a single brace, [str.format] does the
    same. Conversions ([!r]), format specifications ([:>8]), attribute and
    index lookups, and names with characters outside ASCII are outside
    this fragment: for them [format] fails with a [ValueError] of its own,
    whatever [str.format] does. *)

Definition is_digit (c : ascii) : bool :=
  let n := nat_of_ascii c in ((48 <=? n) && (n <=? 57))%nat.

Fixpoint all_chars (f : ascii -> bool) (s : string) : bool :=
  match s with
  | EmptyString => true
  | String c r => f c && all_chars f r
  end.

Fixpoint any_char (f : ascii -> bool) (s : string) : bool :=
  match s with
  | EmptyString => false
  | String c r => f c || any_char f r
  end.

Definition field_special (c : ascii) : bool :=
  existsb (Ascii.eqb c) ["."; "["; "!"; ":"; "{"]%char.

(** The number a field of decimal digits stands for; the empty field is the
    first automatic one, 0. *)
Fixpoint digits_value (acc : Z) (digits : string) : Z :=
  match digits with
  | EmptyString => acc
  | String c r => digits_value (acc * 10 + (Z.of_nat (nat_of_ascii c) - 48)) r
  end.

Definition maxsize : Z := 2 ^ 63 - 1.

Definition field_value (kw value name : string) : outcome string :=
  if any_char field_special name || negb (all_chars is_ascii name) then
    Failed (ValueError "unsupported replacement field")
  else if all_chars is_digit name then
    let index := digits_value 0 name in
    if maxsize <? index then
      Failed (ValueError "Too many decimal digits in format string")
    else
      Failed (IndexError ("Replacement index " +:+ str_int index
                          +:+ " out of range for positional args tuple"))
  else if String.eqb name kw then Returned value
  else Failed (KeyError name).

(** [c] in front of what the rest of the template formats to. *)
Definition emit (c : ascii) (rest : outcome string) : outcome string :=
  match rest with
  | Returned out => Returned (String c out)
  | Failed e => Failed e
  end.

(** The template is read left to right: [field] is [None] in literal text
    and, inside a replacement field, the part of the field name read so far.
    The first field or brace in error raises. *)
Fixpoint format_from (field : option string) (template kw value : string)
    : outcome string :=
  match template, field with
  | EmptyString, None => Returned ""
  | EmptyString, Some EmptyString =>
      Failed (ValueError "Single '{' encountered in format string")
  | EmptyString, Some _ =>
      Failed (ValueError "expected '}' before end of string")
  | String c r, Some name =>
      if Ascii.eqb c "}" then
        match field_value kw value name with
        | Failed e => Failed e
        | Returned v =>
            match format_from None r kw value with
            | Returned out => Returned (v +:+ out)
            | Failed e => Failed e
            end
        end
      else format_from (Some (name +:+ String c EmptyString)) r kw value
  | String c r, None =>
      if Ascii.eqb c "{" then
        match r with
        | String "{" r' => emit "{" (format_from None r' kw value)
        | _ => format_from (Some "") r kw value
        end
      else if Ascii.eqb c "}" then
        match r with
        | String "}" r' => emit "}" (format_from None r' kw value)
        | _ => Failed (ValueError "Single '}' encountered in format string")
        end
      else emit c (format_from None r kw value)
  end.

Definition format (template kw value : string) : outcome string :=
  format_from None template kw value.

(** [prompts.get(key, default)] *)
Definition dict_get (d : gmap string string) (key default : string) : string :=
  match d !! key with Some v => v | None => default end.

(** ** [pathlib]: a path is its text with [/] between the components. *)

Definition path_join (dir name : string) : string := dir +:+ "/" +:+ name.

(** [p.name] *)
Definition path_name (p : string) : string := List.last (split "/" p) "".

(** [p.stem]: the name up to its last dot, when that dot is neither the first
    nor the last character. *)
Definition path_stem (p : string) : string :=
  let name := path_name p in
  let parts := split "." name in
  let front := join "." (removelast parts) in
  if (1 <? length parts)%nat && truthy_str front && truthy_str (List.last parts "")
  then front else name.

(** ** [datetime] and [timedelta] *)

Record datetime : Type := {
  year : Z; month : Z; day : Z;
  hour : Z; minute : Z; second : Z; microsecond : Z
}.

(** A [timedelta] is kept normalised: [0 <= seconds < 86400] and
    [0 <= microseconds < 1000000]. *)
Record timedelta : Type := { days : Z; seconds : Z; microseconds : Z }.

Definition is_leap (y : Z) : bool :=
  (y mod 4 =? 0) && (negb (y mod 100 =? 0) || (y mod 400 =? 0)).

Definition days_before_year (y : Z) : Z :=
  let y1 := y - 1 in y1 * 365 + y1 / 4 - y1 / 100 + y1 / 400.

Definition days_in_month : list Z := [31; 28; 31; 30; 31; 30; 31; 31; 30; 31; 30; 31].

Definition days_before_month (y m : Z) : Z :=
  fold_right Z.add 0 (firstn (Z.to_nat (m - 1)) days_in_month)
  + (if (2 <? m) && is_leap y then 1 else 0).

Definition toordinal (d : datetime) : Z :=
  days_before_year (year d) + days_before_month (year d) (month d) + day d.

(** [timedelta(days, seconds, microseconds)] *)
Definition make_timedelta (d s us : Z) : timedelta :=
  let total := (d * 86400 + s) * 1000000 + us in
  {| days := total / 86400000000;
     seconds := (total mod 86400000000) / 1000000;
     microseconds := total mod 1000000 |}.

(** [a - b] on two datetimes. *)
Definition datetime_sub (a b : datetime) : timedelta :=
  make_timedelta
    (toordinal a - toordinal b)
    ((second a + minute a * 60 + hour a * 3600)
     - (second b + minute b * 60 + hour b * 3600))
    (microsecond a - microsecond b).

(** [now - start] where [start] may be [None]. *)
Definition datetime_sub_opt (a : datetime) (b : option datetime) : outcome timedelta :=
  match b with
  | Some b => Returned (datetime_sub a b)
  | None =>
      Failed (TypeError
        "unsupported operand type(s) for -: 'datetime.datetime' and 'NoneType'")
  end.

(** [str(td)] *)
Definition str_timedelta (t : timedelta) : string :=
  let mm := seconds t / 60 in
  let ss := seconds t mod 60 in
  let hh := mm / 60 in
  let mm := mm mod 60 in
  let s := str_int hh +:+ ":" +:+ zfill_int 2 mm +:+ ":" +:+ zfill_int 2 ss in
  let s :=
    if days t =? 0 then s
    else str_int (days t) +:+ " day" +:+ (if Z.abs (days t) =? 1 then "" else "s")
         +:+ ", " +:+ s in
  if microseconds t =? 0 then s else s +:+ "." +:+ zfill_int 6 (microseconds t).

(** [divmod(td.total_seconds(), 60)], then [int] of both parts. The source
    computes on floats; the whole seconds are taken here. *)
Definition minutes_seconds (t : timedelta) : Z * Z :=
  let whole := days t * 86400 + seconds t in
  (whole / 60, whole mod 60).

Definition directive (c : ascii) (d : datetime) : string :=
  if Ascii.eqb c "Y" then zfill_int 4 (year d)
  else if Ascii.eqb c "m" then zfill_int 2 (month d)
  else if Ascii.eqb c "d" then zfill_int 2 (day d)
  else if Ascii.eqb c "H" then zfill_int 2 (hour d)
  else if Ascii.eqb c "M" then zfill_int 2 (minute d)
  else if Ascii.eqb c "S" then zfill_int 2 (second d)
  else String "%" (String c EmptyString).

(** [d.strftime(fmt)] for the directives the code uses. *)
Fixpoint strftime (fmt : string) (d : datetime) : string :=
  match fmt with
  | EmptyString => EmptyString
  | String "%" (String c r) => directive c d +:+ strftime r d
  | String c r => String c (strftime r d)
  end.

(** [d.isoformat(sep)]; [str(d)] is [d.isoformat(' ')]. *)
Definition isoformat (sep : string) (d : datetime) : string :=
  strftime ("%Y-%m-%d" +:+ sep +:+ "%H:%M:%S") d
  +:+ (if microsecond d =? 0 then "" else "." +:+ zfill_int 6 (microsecond d)).

Definition str_datetime (d : datetime) : string := isoformat " " d.

End Py.

(* ================================================================= *)
(** * [configure-bot-name.py]: rewriting the [DISCORD_BOT_NAME] line *)

Module ConfigureBotName.
Import Py.

Definition key_prefix : string := "DISCORD_BOT_NAME=".
Definition section_header : string := "# Discord Bot Configuration".

(** The line the script writes for a name. *)
Definition bot_name_line (new_bot_name : string) : string :=
  "DISCORD_BOT_NAME=" +:+ new_bot_name
  +:+ "  # ✨ EASY TO CUSTOMIZE: Change this to name your bot".

Definition is_key_line (line : string) : Prop := startswith line key_prefix = true.
Definition is_header_line (line : string) : Prop := strip line = section_header.

(** The two loops over [lines]: the first line that starts with the key is
    overwritten in place; when there is none, the new line is inserted after
    the first section header; when there is no header either, [lines] is left
    as it is. *)
Definition update_lines (new_bot_name : string) (lines : list string) : list string :=
  match list_find is_key_line lines with
  | Some (i, _) => <[i := bot_name_line new_bot_name]> lines
  | None =>
      match list_find is_header_line lines with
      | Some (i, _) =>
          take (S i) lines ++ bot_name_line new_bot_name :: drop (S i) lines
      | None => lines
      end
  end.

(** The text written back for the text read. *)
Definition updated_content (new_bot_name content : string) : string :=
  join nl (update_lines new_bot_name (split newline content)).

(** ** Files in text mode

    [open(env_file, 'r')] decodes the bytes of the file with the encoding of
    the locale and gives every line ending, [\r\n] and [\r] too, as [\n];
    [open(env_file, 'w')] empties the file, and what is written to it has
    every [\n] replaced by [os.linesep] and is encoded. The encoding and
    the line separator are the platform's. A text is held as the bytes of
    its UTF-8 encoding. *)

Record platform : Type := {
  decode : string -> outcome string;
  encode : string -> outcome string;
  linesep : string
}.

Definition carriage_return : ascii := "013"%char.

(** Universal newlines, on reading. *)
Fixpoint universal_newlines (s : string) : string :=
  match s with
  | EmptyString => EmptyString
  | String c r =>
      if Ascii.eqb c carriage_return then
        match r with
        | String c' r' =>
            if Ascii.eqb c' newline then String newline (universal_newlines r')
            else String newline (universal_newlines r)
        | EmptyString => String newline EmptyString
        end
      else String c (universal_newlines r)
  end.

(** The translation of [\n] on writing. *)
Fixpoint write_newlines (sep s : string) : string :=
  match s with
  | EmptyString => EmptyString
  | String c r =>
      if Ascii.eqb c newline then sep +:+ write_newlines sep r
      else String c (write_newlines sep r)
  end.

(** [update_env_file(env_file, new_bot_name)] over a file system that maps a
    path to the bytes of the file: what the call gives, and the file system
    it leaves. Opening a file that does not exist raises, and so does
    reading one that cannot be decoded; neither touches the file system.
    The file is emptied when it is opened for writing: if the new text
    cannot be encoded, [f.write] raises and the file is left empty. *)
Definition update_env_file (os : platform) (env_file new_bot_name : string)
    (files : gmap string string) : outcome unit * gmap string string :=
  match files !! env_file with
  | None =>
      (Failed (OSError ("[Errno 2] No such file or directory: '" +:+ env_file +:+ "'")),
       files)
  | Some bytes =>
      match decode os bytes with
      | Failed e => (Failed e, files)
      | Returned raw =>
          let content := universal_newlines raw in
          let text := updated_content new_bot_name content in
          match encode os (write_newlines (linesep os) text) with
          | Failed e => (Failed e, <[env_file := ""]> files)
          | Returned written => (Returned tt, <[env_file := written]> files)
          end
      end
  end.

(** The lines that do not start with the key, in order. *)
Definition other_lines (lines : list string) : list string :=
  List.filter (fun line => negb (startswith line key_prefix)) lines.

(** The text has a line break in it. *)
Definition has_newline (s : string) : bool := any_char (Ascii.eqb newline) s.

(** The bytes have a carriage return among them. *)
Definition has_carriage_return (s : string) : bool :=
  any_char (Ascii.eqb carriage_return) s.

End ConfigureBotName.

(* ================================================================= *)
(** * [enhanced-bot.py] *)

Module Bot.
Import Py.

(** ** Configuration, command context and session record *)

(** [Config]: the environment variables read at start-up; an unset variable
    is [None]. *)
Record Config : Type := {
  install_dir : string;
  obs_host : string;
  obs_port : Z;
  obs_password : option string;
  youtube_client_id : option string;
  youtube_client_secret : option string;
  youtube_api_key : option string;
  github_token : option string;
  github_repo : option string;
  s3_bucket : option string;
  rclone_remote : option string;
  discord_bot_name : string;
  discord_token : option string
}.

Definition recordings_dir (cfg : Config) : string := path_join (install_dir cfg) "recordings".
Definition transcripts_dir (cfg : Config) : string := path_join (install_dir cfg) "transcripts".

(** What the handlers use of a command context [ctx]. *)
Record context : Type := {
  guild : option string;
  channel_name : string;
  author_display_name : string
}.

(** The global [recording_state]. *)
Record recording_state : Type := {
  active : bool;
  start_time : option datetime;
  duration_minutes : Z;
  recording_filename : option string;
  participants : list string;
  youtube_upload_id : option string;
  github_commit_url : option string;
  transcript_path : option string
}.

Definition initial_state : recording_state :=
  {| active := false;
     start_time := None;
     duration_minutes := 0;
     recording_filename := None;
     participants := [];
     youtube_upload_id := None;
     github_commit_url := None;
     transcript_path := None |}.

(** [recording_state.update({...})] of the start handler: all eight keys. *)
Definition update_on_start (now1 : datetime) (minutes : Z) (stem : string)
    (st : recording_state) : recording_state :=
  {| active := true;
     start_time := Some now1;
     duration_minutes := minutes;
     recording_filename := Some stem;
     participants := [];
     youtube_upload_id := None;
     github_commit_url := None;
     transcript_path := None |}.

(** [recording_state.update({...})] of the stop handler: four keys. *)
Definition update_on_stop (st : recording_state) : recording_state :=
  {| active := false;
     start_time := None;
     duration_minutes := 0;
     recording_filename := None;
     participants := participants st;
     youtube_upload_id := youtube_upload_id st;
     github_commit_url := github_commit_url st;
     transcript_path := transcript_path st |}.

(** [recording_state['transcript_path'] = v] and its two siblings. *)
Definition set_transcript_path (v : option string) (st : recording_state) : recording_state :=
  {| active := active st;
     start_time := start_time st;
     duration_minutes := duration_minutes st;
     recording_filename := recording_filename st;
     participants := participants st;
     youtube_upload_id := youtube_upload_id st;
     github_commit_url := github_commit_url st;
     transcript_path := v |}.

Definition set_github_commit_url (v : option string) (st : recording_state) : recording_state :=
  {| active := active st;
     start_time := start_time st;
     duration_minutes := duration_minutes st;
     recording_filename := recording_filename st;
     participants := participants st;
     youtube_upload_id := youtube_upload_id st;
     github_commit_url := v;
     transcript_path := transcript_path st |}.

Definition set_youtube_upload_id (v : option string) (st : recording_state) : recording_state :=
  {| active := active st;
     start_time := start_time st;
     duration_minutes := duration_minutes st;
     recording_filename := recording_filename st;
     participants := participants st;
     youtube_upload_id := v;
     github_commit_url := github_commit_url st;
     transcript_path := transcript_path st |}.

(** ** The calls a coroutine makes *)

(** Which [ctx.send] of the source a message comes from. *)
Inductive notice : Type :=
| NUsage | NUnknownSubcommand
| NAlreadyRecording | NObsStartFailed | NRecordingStarted | NTimeLimit | NStartError
| NNotRecording | NObsStopFailed | NRecordingStopped | NStopError
| NProcessingStart | NFileNotFound | NGithubCommit | NUploadSuccess | NCloudUpload
| NProcessingComplete | NProcessingFailed
| NStatusIdle | NStatusActive
| NNoRecordings | NAvailable | NUploadReady | NUploadError.

Definition notice_eqb (a b : notice) : bool :=
  match a, b with
  | NUsage, NUsage | NUnknownSubcommand, NUnknownSubcommand
  | NAlreadyRecording, NAlreadyRecording | NObsStartFailed, NObsStartFailed
  | NRecordingStarted, NRecordingStarted | NTimeLimit, NTimeLimit
  | NStartError, NStartError | NNotRecording, NNotRecording
  | NObsStopFailed, NObsStopFailed | NRecordingStopped, NRecordingStopped
  | NStopError, NStopError | NProcessingStart, NProcessingStart
  | NFileNotFound, NFileNotFound | NGithubCommit, NGithubCommit
  | NUploadSuccess, NUploadSuccess | NCloudUpload, NCloudUpload
  | NProcessingComplete, NProcessingComplete | NProcessingFailed, NProcessingFailed
  | NStatusIdle, NStatusIdle | NStatusActive, NStatusActive
  | NNoRecordings, NNoRecordings | NAvailable, NAvailable
  | NUploadReady, NUploadReady | NUploadError, NUploadError => true
  | _, _ => false
  end.

Inductive level : Type := DEBUG | INFO | WARNING | ERROR.

Inductive obs_request : Type := StartRecord | StopRecord | Disconnect.

(** The body of a commit: text, or the [json.dumps] of a dictionary. *)
Inductive jvalue : Type := JString (s : string) | JNumber (n : Z).
Inductive payload : Type :=
| Text (s : string)
| JsonDump (fields : list (string * jvalue)).

(** An HTTP response: its status and what the one JSON lookup the code makes
    on it gives ([json()["sha"]] after a GET, [json()["content"]["html_url"]]
    after a PUT). *)
Record response : Type := { status_code : Z; json_field : outcome string }.

(** A [subprocess.CompletedProcess]. *)
Record completed : Type := { returncode : Z; stderr : string }.

(** What [asyncio.create_task] is given. *)
Inductive task : Type :=
| RecordingPipeline (filename : option string) (ctx : context).

Inductive action : Type :=
(* the session record *)
| ReadState
| WriteState (f : recording_state -> recording_state)
(* the event loop and Discord *)
| Send (n : notice) (text : string)
| Sleep (secs : Z)
| CreateTask (t : task)
(* clock and log *)
| Now
| Log (lvl : level) (text : string)
(* OBS websocket *)
| ObsConnect (host : string) (port : Z) (password : option string)
| ObsCall (r : obs_request)
(* file system *)
| Glob (dir pattern : string)
| GlobByMtime (dir pattern : string)
| WriteFile (path content : string)
| ReadFile (path : string)
(* requests, boto3, subprocess *)
| HttpGet (url token : string)
| HttpPut (url token message : string) (content : payload) (sha : option string)
| S3UploadFile (file bucket key : string)
| RcloneCopy (file remote_path : string).

(** What each call answers. A call into a library answers an [outcome]: the
    library may raise. [ctx.send], [asyncio.sleep], [create_task], the clock
    and the logger are taken to return. [GlobByMtime] answers the paths with
    the [st_mtime] of each. *)
Definition resp (a : action) : Type :=
  match a with
  | ReadState => recording_state
  | WriteState _ | Send _ _ | Sleep _ | CreateTask _ | Log _ _ => unit
  | Now => datetime
  | ObsConnect _ _ _ | ObsCall _ => outcome unit
  | Glob _ _ => list string
  | GlobByMtime _ _ => outcome (list (string * Z))
  | WriteFile _ _ => outcome unit
  | ReadFile _ => outcome string
  | HttpGet _ _ | HttpPut _ _ _ _ _ => outcome response
  | S3UploadFile _ _ _ => outcome unit
  | RcloneCopy _ _ => outcome completed
  end.

(** ** Coroutines *)

Inductive prog (A : Type) : Type :=
| Ret (a : A)
| Raise (e : exn)
| Act (a : action) (k : resp a -> prog A).
Arguments Ret {A} a.
Arguments Raise {A} e.
Arguments Act {A} a k.

Fixpoint bind {A B} (p : prog A) (f : A -> prog B) : prog B :=
  match p with
  | Ret a => f a
  | Raise e => Raise e
  | Act a k => Act a (fun x => bind (k x) f)
  end.

(** [try: p  except Exception as e: h e] *)
Fixpoint try_except {A} (p : prog A) (h : exn -> prog A) : prog A :=
  match p with
  | Ret a => Ret a
  | Raise e => h e
  | Act a k => Act a (fun x => try_except (k x) h)
  end.

Definition call (a : action) : prog (resp a) := Act a Ret.

(** A value, or the exception raised in its place. *)
Definition lift {A} (r : outcome A) : prog A :=
  match r with Returned a => Ret a | Failed e => Raise e end.

(** A library call whose exception propagates. *)
Definition attempt {A} (p : prog (outcome A)) : prog A := bind p lift.

Declare Scope prog_scope.
Delimit Scope prog_scope with prog.
Bind Scope prog_scope with prog.
Notation "x <- p ;; q" := (bind p (fun x => q))
  (at level 100, p at next level, right associativity) : prog_scope.
Notation "p ;; q" := (bind p (fun _ => q))
  (at level 100, right associativity) : prog_scope.
Local Open Scope prog_scope.

(** ** Message templates *)

(** The built-in templates of [load_prompts]. *)
Definition default_prompts : gmap string string :=
  list_to_map
    [ ("recording_start", "üéôÔ∏è Recording started in {channel_name}!");
      ("recording_stop", "‚èπÔ∏è Recording stopped. Processing...");
      ("upload_success", "‚úÖ Video uploaded: {video_url}");
      ("github_commit", "üìÅ Files committed to GitHub: {commit_url}");
      ("transcript_ready", "üìù Transcript generated: {transcript_path}");
      ("cloud_upload", "‚òÅÔ∏è Uploaded to cloud storage: {file_path}") ].

(** [load_prompts]: the content of [prompts.json] when the file exists, the
    built-in templates otherwise. *)
Definition load_prompts (prompts_file : option (gmap string string)) : gmap string string :=
  match prompts_file with
  | Some loaded => loaded
  | None => default_prompts
  end.

(** [video_metadata.get('title', 'Recording')] inside an f-string. *)
Definition metadata_title (video_metadata : list (string * jvalue)) : string :=
  match List.find (fun kv => String.eqb (fst kv) "title") video_metadata with
  | Some (_, JString s) => s
  | Some (_, JNumber n) => str_int n
  | None => "Recording"
  end.

(** [sorted(..., key=st_mtime, reverse=True)]: stable, newest first. *)
Fixpoint insert_by_mtime (x : string * Z) (l : list (string * Z)) : list (string * Z) :=
  match l with
  | [] => [x]
  | y :: l' => if snd x <? snd y then y :: insert_by_mtime x l' else x :: l
  end.

Definition sort_by_mtime_desc (l : list (string * Z)) : list (string * Z) :=
  fold_right insert_by_mtime [] l.

(** [f"{i}. {recording.name}"] for [enumerate(recordings, i)]. *)
Fixpoint numbered (i : Z) (names : list string) : list string :=
  match names with
  | [] => []
  | name :: rest => (str_int i +:+ ". " +:+ name) :: numbered (i + 1) rest
  end.

Section Services.

Variable cfg : Config.
Variable prompts : gmap string string.

(** ** [YouTubeUploader] *)

Definition upload_video (file_path title description : string) : prog (option string) :=
  if negb (all_truthy [youtube_client_id cfg; youtube_client_secret cfg; youtube_api_key cfg])
  then
    call (Log WARNING "YouTube credentials not configured") ;;
    Ret None
  else
    try_except
      (call (Log INFO ("Would upload " +:+ file_path +:+ " to YouTube as: " +:+ title)) ;;
       now <- call Now ;;
       let upload_id := "upload_" +:+ strftime "%Y%m%d_%H%M%S" now in
       call (Log INFO ("Video upload simulated: " +:+ upload_id)) ;;
       Ret (Some upload_id))
      (fun e =>
         call (Log ERROR ("YouTube upload failed: " +:+ exn_str e)) ;;
         Ret None).

(** ** [GitHubIntegrator] *)

Definition base_url : string := "https://api.github.com".

Definition commit_file (file_path : string) (content : payload)
    (commit_message : string) : prog (option string) :=
  if negb (all_truthy [github_token cfg; github_repo cfg])
  then
    call (Log WARNING "GitHub credentials not configured") ;;
    Ret None
  else
    try_except
      (let token := str_opt (github_token cfg) in
       let api_url :=
         base_url +:+ "/repos/" +:+ str_opt (github_repo cfg) +:+ "/contents/" +:+ file_path in
       response <- attempt (call (HttpGet api_url token)) ;;
       sha <- (if status_code response =? 200
               then (v <- lift (json_field response) ;; Ret (Some v))
               else Ret None) ;;
       let sent_sha := if truthy sha then sha else None in
       response <- attempt (call (HttpPut api_url token commit_message content sent_sha)) ;;
       if (status_code response =? 200) || (status_code response =? 201)
       then
         commit_url <- lift (json_field response) ;;
         call (Log INFO ("Successfully committed file to GitHub: " +:+ commit_url)) ;;
         Ret (Some commit_url)
       else
         call (Log ERROR ("Failed to commit file: " +:+ str_int (status_code response))) ;;
         Ret None)
      (fun e =>
         call (Log ERROR ("GitHub commit failed: " +:+ exn_str e)) ;;
         Ret None).

Definition upload_transcript (transcript_content : string)
    (video_metadata : list (string * jvalue)) : prog (option string) :=
  try_except
    (now1 <- call Now ;;
     let transcript_file :=
       "transcripts/" +:+ strftime "%Y-%m-%d" now1 +:+ "-transcript.txt" in
     transcript_commit <-
       commit_file transcript_file (Text transcript_content)
         ("Add transcript: " +:+ metadata_title video_metadata) ;;
     now2 <- call Now ;;
     let metadata :=
       (video_metadata
        ++ [ ("recording_date", JString (isoformat "T" now2));
             ("transcript_length", JNumber (len transcript_content)) ])%list in
     now3 <- call Now ;;
     let metadata_file := "metadata/" +:+ strftime "%Y-%m-%d" now3 +:+ ".json" in
     metadata_commit <-
       commit_file metadata_file (JsonDump metadata)
         ("Add metadata: " +:+ metadata_title video_metadata) ;;
     Ret (py_or transcript_commit metadata_commit))
    (fun e =>
       call (Log ERROR ("GitHub upload failed: " +:+ exn_str e)) ;;
       Ret None).

(** ** [TranscriptGenerator] *)

Definition generate_transcript (audio_file : string) : prog (option string) :=
  try_except
    (call (Log INFO ("Generating transcript for: " +:+ audio_file)) ;;
     now <- call Now ;;
     let transcript_content :=
       "Transcript generated for " +:+ path_name audio_file +:+ nl
       +:+ "Timestamp: " +:+ str_datetime now +:+ nl +:+ nl
       +:+ "[Generated transcript would appear here]" in
     let transcript_file := path_join (transcripts_dir cfg) (path_stem audio_file +:+ ".txt") in
     attempt (call (WriteFile transcript_file transcript_content)) ;;
     call (Log INFO ("Transcript saved: " +:+ transcript_file)) ;;
     Ret (Some transcript_file))
    (fun e =>
       call (Log ERROR ("Transcription failed: " +:+ exn_str e)) ;;
       Ret None).

(** ** [OBSController] *)

Definition get_connection : prog (option unit) :=
  try_except
    (ws <- attempt (call (ObsConnect (obs_host cfg) (obs_port cfg) (obs_password cfg))) ;;
     Ret (Some ws))
    (fun e =>
       call (Log ERROR ("Failed to connect to OBS: " +:+ exn_str e)) ;;
       Ret None).

Definition start_recording : prog bool :=
  try_except
    (obs <- get_connection ;;
     match obs with
     | None => Ret false
     | Some _ =>
         attempt (call (ObsCall StartRecord)) ;;
         attempt (call (ObsCall Disconnect)) ;;
         call (Log INFO "OBS recording started") ;;
         Ret true
     end)
    (fun e =>
       call (Log ERROR ("Failed to start OBS recording: " +:+ exn_str e)) ;;
       Ret false).

Definition stop_recording : prog bool :=
  try_except
    (obs <- get_connection ;;
     match obs with
     | None => Ret false
     | Some _ =>
         attempt (call (ObsCall StopRecord)) ;;
         attempt (call (ObsCall Disconnect)) ;;
         call (Log INFO "OBS recording stopped") ;;
         Ret true
     end)
    (fun e =>
       call (Log ERROR ("Failed to stop OBS recording: " +:+ exn_str e)) ;;
       Ret false).

(** ** [CloudUploader] *)

Definition upload_to_s3 (file_path : string) : prog bool :=
  if negb (truthy (s3_bucket cfg)) then Ret false
  else
    try_except
      (now <- call Now ;;
       let s3_key :=
         "recordings/" +:+ strftime "%Y/%m/%d" now +:+ "/" +:+ path_name file_path in
       attempt (call (S3UploadFile file_path (str_opt (s3_bucket cfg)) s3_key)) ;;
       call (Log INFO ("Uploaded to S3: " +:+ s3_key)) ;;
       Ret true)
      (fun e =>
         match e with
         | NoCredentialsError _ =>
             call (Log WARNING "AWS credentials not configured") ;;
             Ret false
         | _ =>
             call (Log ERROR ("S3 upload failed: " +:+ exn_str e)) ;;
             Ret false
         end).

(** The answer [Failed] of [RcloneCopy] covers the [TypeError] that
    [subprocess.run] raises for the dictionary passed by position. *)
Definition upload_to_rclone (file_path : string) : prog bool :=
  if negb (truthy (rclone_remote cfg)) then Ret false
  else
    try_except
      (now <- call Now ;;
       let remote_path :=
         str_opt (rclone_remote cfg) +:+ ":recordings/" +:+ strftime "%Y/%m/%d" now
         +:+ "/" +:+ path_name file_path in
       result <- attempt (call (RcloneCopy file_path remote_path)) ;;
       if returncode result =? 0
       then
         call (Log INFO ("Uploaded to rclone: " +:+ remote_path)) ;;
         Ret true
       else
         call (Log ERROR ("Rclone upload failed: " +:+ stderr result)) ;;
         Ret false)
      (fun e =>
         call (Log ERROR ("Rclone upload failed: " +:+ exn_str e)) ;;
         Ret false).

(** ** The post-processing pipeline *)

Definition process_recording_pipeline (filename : option string) (ctx : context) : prog unit :=
  try_except
    (call (Send NProcessingStart "üîÑ Starting post-recording processing...") ;;
     recording_files <- call (Glob (recordings_dir cfg) (str_opt filename +:+ ".mp4")) ;;
     match recording_files with
     | [] =>
         call (Log ERROR ("Recording file not found: " +:+ str_opt filename)) ;;
         call (Send NFileNotFound "‚ùå Recording file not found for processing")
     | recording_file :: _ =>
         call (Log INFO ("Processing recording: " +:+ recording_file)) ;;
         transcript_path <- generate_transcript recording_file ;;
         (if truthy transcript_path
          then
            call (WriteState (set_transcript_path transcript_path)) ;;
            transcript_content <- attempt (call (ReadFile (str_opt transcript_path))) ;;
            now <- call Now ;;
            (* 'duration' is not a local of this function: the entry is 0 *)
            let video_metadata :=
              [ ("title", JString ("Recording " +:+ str_opt filename));
                ("description",
                 JString ("Recording from " +:+ strftime "%Y-%m-%d %H:%M:%S" now));
                ("duration", JNumber 0);
                ("discord_channel", JString (channel_name ctx));
                ("recording_user", JString (author_display_name ctx)) ] in
            github_url <- upload_transcript transcript_content video_metadata ;;
            if truthy github_url
            then
              call (WriteState (set_github_commit_url github_url)) ;;
              github_msg <-
                lift (format (dict_get prompts "github_commit" "Files committed to GitHub")
                        "commit_url" (str_opt github_url)) ;;
              call (Send NGithubCommit github_msg)
            else Ret tt
          else Ret tt) ;;
         youtube_id <-
           upload_video recording_file
             ("Recording " +:+ str_opt filename)
             ("Automated recording from Discord channel " +:+ channel_name ctx) ;;
         (if truthy youtube_id
          then
            call (WriteState (set_youtube_upload_id youtube_id)) ;;
            upload_msg <-
              lift (format (dict_get prompts "upload_success" "Video uploaded")
                      "video_url" ("https://youtube.com/watch?v=" +:+ str_opt youtube_id)) ;;
            call (Send NUploadSuccess upload_msg)
          else Ret tt) ;;
         s3_success <- upload_to_s3 recording_file ;;
         rclone_success <- upload_to_rclone recording_file ;;
         (if s3_success || rclone_success
          then
            cloud_msg <-
              lift (format (dict_get prompts "cloud_upload" "Uploaded to cloud storage")
                      "file_path" (path_name recording_file)) ;;
            call (Send NCloudUpload cloud_msg)
          else Ret tt) ;;
         call (Send NProcessingComplete "‚úÖ Processing complete!") ;;
         call (Log INFO ("Recording pipeline completed for: " +:+ str_opt filename))
     end)
    (fun e =>
       call (Log ERROR ("Recording pipeline failed: " +:+ exn_str e)) ;;
       call (Send NProcessingFailed ("‚ùå Processing failed: " +:+ exn_str e))).

(** ** The command handlers *)

Definition handle_record_stop (ctx : context) : prog unit :=
  st <- call ReadState ;;
  if negb (active st)
  then call (Send NNotRecording "‚ö†Ô∏è No recording in progress!")
  else
    try_except
      (stopped <- stop_recording ;;
       if negb stopped
       then call (Send NObsStopFailed "‚ùå Failed to stop OBS recording")
       else
         now <- call Now ;;
         st1 <- call ReadState ;;
         duration <- lift (datetime_sub_opt now (start_time st1)) ;;
         st2 <- call ReadState ;;
         let recording_filename := recording_filename st2 in
         call (WriteState update_on_stop) ;;
         let stop_msg := dict_get prompts "recording_stop" "Recording stopped" in
         call (Send NRecordingStopped (stop_msg +:+ " Duration: " +:+ str_timedelta duration)) ;;
         call (CreateTask (RecordingPipeline recording_filename ctx)) ;;
         call (Log INFO ("Enhanced recording stopped by " +:+ author_display_name ctx)))
      (fun e =>
         call (Log ERROR ("Failed to stop recording: " +:+ exn_str e)) ;;
         call (Send NStopError ("‚ùå Failed to stop recording: " +:+ exn_str e))).

Definition handle_record_start (ctx : context) (minutes : Z) : prog unit :=
  st <- call ReadState ;;
  if active st
  then call (Send NAlreadyRecording "‚ö†Ô∏è Recording already in progress!")
  else
    try_except
      (started <- start_recording ;;
       if negb started
       then call (Send NObsStartFailed "‚ùå Failed to start OBS recording")
       else
         now1 <- call Now ;;
         now2 <- call Now ;;
         call (WriteState
                 (update_on_start now1 minutes (strftime "%Y-%m-%d_%H-%M-%S" now2))) ;;
         let minutes_str :=
           if 0 <? minutes then " for " +:+ str_int minutes +:+ " minutes" else "" in
         start_msg <-
           lift (format (dict_get prompts "recording_start" "Recording started")
                   "channel_name" (channel_name ctx)) ;;
         call (Send NRecordingStarted (start_msg +:+ minutes_str)) ;;
         (if 0 <? minutes
          then
            call (Sleep (minutes * 60)) ;;
            st' <- call ReadState ;;
            if active st'
            then
              call (Send NTimeLimit "‚è∞ Recording time limit reached. Stopping...") ;;
              handle_record_stop ctx
            else Ret tt
          else Ret tt) ;;
         call (Log INFO ("Enhanced recording started by " +:+ author_display_name ctx)))
      (fun e =>
         call (Log ERROR ("Failed to start recording: " +:+ exn_str e)) ;;
         call (Send NStartError ("‚ùå Failed to start recording: " +:+ exn_str e))).

Definition handle_record_status (ctx : context) : prog unit :=
  st <- call ReadState ;;
  if negb (active st)
  then call (Send NStatusIdle "üü¶ Recording is not active")
  else
    now <- call Now ;;
    st1 <- call ReadState ;;
    duration <- lift (datetime_sub_opt now (start_time st1)) ;;
    let '(minutes, seconds) := minutes_seconds duration in
    let status_msg :=
      "üî¥ Recording active for " +:+ zfill_int 2 minutes +:+ ":" +:+ zfill_int 2 seconds in
    st2 <- call ReadState ;;
    let status_msg :=
      if truthy (youtube_upload_id st2)
      then status_msg +:+ " | üì∫ YouTube: Pending upload" else status_msg in
    st3 <- call ReadState ;;
    let status_msg :=
      if truthy (github_commit_url st3)
      then status_msg +:+ " | üìÅ GitHub: Committed" else status_msg in
    st4 <- call ReadState ;;
    let status_msg :=
      if truthy (transcript_path st4)
      then status_msg +:+ " | üìù Transcript: Generated" else status_msg in
    call (Send NStatusActive status_msg).

Definition handle_manual_upload (ctx : context) : prog unit :=
  try_except
    (found <- attempt (call (GlobByMtime (recordings_dir cfg) "*.mp4")) ;;
     let recordings := firstn 5 (sort_by_mtime_desc found) in
     match recordings with
     | [] => call (Send NNoRecordings "No recordings found for upload")
     | _ :: _ =>
         let upload_options := numbered 1 (map (fun r => path_name (fst r)) recordings) in
         call (Send NAvailable ("üìÅ Available recordings:" +:+ nl +:+ join nl upload_options)) ;;
         call (Send NUploadReady "Upload functionality ready - select recording to upload")
     end)
    (fun e =>
       call (Log ERROR ("Manual upload failed: " +:+ exn_str e)) ;;
       call (Send NUploadError ("‚ùå Upload failed: " +:+ exn_str e))).

(** [record_command(ctx, subcommand=None, minutes=0)] *)
Definition record_command (ctx : context) (subcommand : option string) (minutes : Z) : prog unit :=
  match guild ctx with
  | None => Ret tt
  | Some _ =>
      match subcommand with
      | None => call (Send NUsage "‚ùì Usage: `/record start [minutes]` | `/record stop` | `/record status` | `/record upload`")
      | Some subcommand =>
          let subcommand := lower subcommand in
          if String.eqb subcommand "start" then handle_record_start ctx minutes
          else if String.eqb subcommand "stop" then handle_record_stop ctx
          else if String.eqb subcommand "status" then handle_record_status ctx
          else if String.eqb subcommand "upload" then handle_manual_upload ctx
          else call (Send NUnknownSubcommand ("‚ùì Unknown subcommand: " +:+ subcommand))
      end
  end.

(** [health_check_task], run every five minutes. *)
Definition health_check_task : prog unit :=
  try_except
    (obs <- get_connection ;;
     match obs with
     | Some _ =>
         attempt (call (ObsCall Disconnect)) ;;
         call (Log DEBUG "OBS health check: OK")
     | None => Ret tt
     end ;;
     st <- call ReadState ;;
     if active st then Ret tt else Ret tt)
    (fun e => call (Log WARNING ("Health check failed: " +:+ exn_str e))).

End Services.

(** ** Running one coroutine

    The world holds the session record and a counter of the calls made so
    far. The oracle answers the call made at a given count; a read of the
    session record is answered by the record itself, and a write changes it.
    A run gives what the coroutine returns or raises, the world it leaves
    and the calls it made, each with its answer, in order. *)

Inductive event : Type := Ev (a : action) (r : resp a).

Definition oracle : Type := nat -> forall a : action, resp a.

Record world : Type := {
  session : recording_state;
  ticks : nat
}.

Definition reply (answer : forall a : action, resp a) (st : recording_state)
    (a : action) : resp a :=
  match a as a0 return resp a0 with
  | ReadState => st
  | a' => answer a'
  end.

Definition effect (a : action) (st : recording_state) : recording_state :=
  match a with
  | WriteState f => f st
  | _ => st
  end.

(** The world once call [a] is made. *)
Definition after (a : action) (w : world) : world :=
  {| session := effect a (session w); ticks := S (ticks w) |}.

Record result (A : Type) : Type := {
  value : outcome A;
  final : world;
  events : list event
}.
Arguments value {A} r.
Arguments final {A} r.
Arguments events {A} r.

(** The coroutine runs to its end with nothing else scheduled in between. *)
Fixpoint run {A} (p : prog A) (o : oracle) (w : world) : result A :=
  match p with
  | Ret a => {| value := Returned a; final := w; events := [] |}
  | Raise e => {| value := Failed e; final := w; events := [] |}
  | Act a k =>
      let r := reply (o (ticks w)) (session w) a in
      let rest := run (k r) o (after a w) in
      {| value := value rest; final := final rest; events := Ev a r :: events rest |}
  end.

(** The coroutine runs up to its first [asyncio.sleep]; what is left of it is
    resumed by the event loop once the time has passed, in whatever state the
    session record is by then. *)
Inductive paused (A : Type) : Type :=
| Finished (r : outcome A) (w : world) (l : list event)
| Asleep (secs : Z) (rest : prog A) (w : world) (l : list event).
Arguments Finished {A} r w l.
Arguments Asleep {A} secs rest w l.

Definition sleep_of (a : action) : option Z :=
  match a with Sleep secs => Some secs | _ => None end.

Definition logged {A} (e : event) (p : paused A) : paused A :=
  match p with
  | Finished r w l => Finished r w (e :: l)
  | Asleep secs rest w l => Asleep secs rest w (e :: l)
  end.

Fixpoint run_to_sleep {A} (p : prog A) (o : oracle) (w : world) : paused A :=
  match p with
  | Ret a => Finished (Returned a) w []
  | Raise e => Finished (Failed e) w []
  | Act a k =>
      let r := reply (o (ticks w)) (session w) a in
      match sleep_of a with
      | Some secs => Asleep secs (k r) (after a w) [Ev a r]
      | None => logged (Ev a r) (run_to_sleep (k r) o (after a w))
      end
  end.

(** ** What a trace shows *)

Definition ev_action (e : event) : action := let 'Ev a _ := e in a.

Definition is_send (n : notice) (e : event) : bool :=
  match ev_action e with Send n' _ => notice_eqb n n' | _ => false end.

Definition sent (n : notice) (text : string) (e : event) : bool :=
  match ev_action e with
  | Send n' text' => notice_eqb n n' && String.eqb text text'
  | _ => false
  end.

Definition is_any_send (e : event) : bool :=
  match ev_action e with Send _ _ => true | _ => false end.

Definition is_read (e : event) : bool :=
  match ev_action e with ReadState => true | _ => false end.

Definition is_write (e : event) : bool :=
  match ev_action e with WriteState _ => true | _ => false end.

Definition is_sleep (e : event) : bool :=
  match ev_action e with Sleep _ => true | _ => false end.

Definition is_create_task (e : event) : bool :=
  match ev_action e with CreateTask _ => true | _ => false end.

(** A call to the recorder: connecting to it, or a request on the connection. *)
Definition is_obs (e : event) : bool :=
  match ev_action e with ObsConnect _ _ _ | ObsCall _ => true | _ => false end.

(** Every call that is not a log record: a call to a collaborator, to Discord
    or to the session record. *)
Definition is_log (e : event) : bool :=
  match ev_action e with Log _ _ => true | _ => false end.

(** The glob for the recording answered with at least one file. *)
Definition artifact_found (e : event) : bool :=
  match e with
  | Ev a r =>
      match a as a0 return resp a0 -> bool with
      | Glob _ _ => fun r => match r with [] => false | _ :: _ => true end
      | _ => fun _ => false
      end r
  end.

(** The write of the transcript file raised: [generate_transcript] gives
    [None]. *)
Definition transcript_failed (e : event) : bool :=
  match e with
  | Ev a r =>
      match a as a0 return resp a0 -> bool with
      | WriteFile _ _ => fun r => negb (is_returned r)
      | _ => fun _ => false
      end r
  end.

(** ** The event loop

    Tasks are the coroutines in flight. A schedule lists what happens: a
    command (or the periodic health check) arrives and becomes a task, or a
    task makes its next call, with the answer the outside gives. Every
    interleaving of the tasks at their suspension points is a schedule. *)

Inductive arrival : Type :=
| RecordCommand (ctx : context) (subcommand : option string) (minutes : Z)
| HealthCheck.

Inductive sched : Type :=
| Arrive (c : arrival)
| Resume (i : nat) (answer : forall a : action, resp a).

Record system : Type := {
  sys_session : recording_state;
  sys_tasks : list (prog unit);
  sys_trace : list event
}.

Definition sys_init : system :=
  {| sys_session := initial_state; sys_tasks := []; sys_trace := [] |}.

Section EventLoop.

Variable cfg : Config.
Variable prompts : gmap string string.

Definition arrival_body (c : arrival) : prog unit :=
  match c with
  | RecordCommand ctx subcommand minutes => record_command cfg prompts ctx subcommand minutes
  | HealthCheck => health_check_task cfg
  end.

Definition task_body (t : task) : prog unit :=
  match t with
  | RecordingPipeline filename ctx => process_recording_pipeline cfg prompts filename ctx
  end.

Definition spawned (a : action) : list (prog unit) :=
  match a with
  | CreateTask t => [task_body t]
  | _ => []
  end.

Definition sys_step (s : system) (e : sched) : system :=
  match e with
  | Arrive c =>
      {| sys_session := sys_session s;
         sys_tasks := sys_tasks s ++ [arrival_body c];
         sys_trace := sys_trace s |}
  | Resume i answer =>
      match sys_tasks s !! i with
      | Some (Act a k) =>
          let r := reply answer (sys_session s) a in
          {| sys_session := effect a (sys_session s);
             sys_tasks := <[i := k r]> (sys_tasks s) ++ spawned a;
             sys_trace := sys_trace s ++ [Ev a r] |}
      | _ => s
      end
  end.

Definition sys_run (schedule : list sched) : system :=
  fold_left sys_step schedule sys_init.

End EventLoop.

(** The calls of [l] are put in front of those of [p]. *)
Definition prepend {A} (l : list event) (p : paused A) : paused A :=
  match p with
  | Finished r w l' => Finished r w (l ++ l')
  | Asleep secs rest w l' => Asleep secs rest w (l ++ l')
  end.

(** ** Vocabulary of the properties *)

(** Every call the coroutine can make, whatever the answers, satisfies [P]. *)
Fixpoint every_call {A} (P : action -> Prop) (p : prog A) : Prop :=
  match p with
  | Ret _ | Raise _ => True
  | Act a k => P a /\ forall r : resp a, every_call P (k r)
  end.

(** The coroutine returns: no exception leaves it. *)
Fixpoint never_raises {A} (p : prog A) : Prop :=
  match p with
  | Ret _ => True
  | Raise _ => False
  | Act a k => forall r : resp a, never_raises (k r)
  end.

Definition calls (l : list event) : list action := map ev_action l.

(** The run of [p] from [w] up to its first sleep satisfies [Q]. *)
Definition pauses {A} (p : prog A) (o : oracle) (w : world)
    (Q : paused A -> Prop) : Prop :=
  Q (run_to_sleep p o w).

(** The run of [p] from [w] ends in a result, a world and a list of calls
    that satisfy [Q]. *)
Definition ensures {A} (p : prog A) (o : oracle) (w : world)
    (Q : outcome A -> world -> list event -> Prop) : Prop :=
  Q (value (run p o w)) (final (run p o w)) (events (run p o w)).

(** [startTime] is set exactly when the session is active. *)
Definition consistent (st : recording_state) : Prop :=
  is_Some (start_time st) <-> active st = true.

(** The fields the start and stop handlers own agree in two records. *)
Definition same_lifecycle (a b : recording_state) : Prop :=
  active a = active b
  /\ start_time a = start_time b
  /\ duration_minutes a = duration_minutes b
  /\ recording_filename a = recording_filename b
  /\ participants a = participants b.

(** The fields the pipeline fills agree in two records. *)
Definition same_postprocessing (a b : recording_state) : Prop :=
  transcript_path a = transcript_path b
  /\ github_commit_url a = github_commit_url b
  /\ youtube_upload_id a = youtube_upload_id b.

(** A call that neither reads the session record nor changes a lifecycle
    field of it. *)
Definition off_lifecycle (a : action) : Prop :=
  match a with
  | ReadState => False
  | WriteState f => forall st, same_lifecycle st (f st)
  | _ => True
  end.

(** A call that keeps [consistent]. *)
Definition keeps_consistent (a : action) : Prop :=
  forall st, consistent st -> consistent (effect a st).

(** A call that leaves the session record alone: no read, no write. *)
Definition off_session (a : action) : Prop :=
  match a with
  | ReadState | WriteState _ => False
  | _ => True
  end.

(** A call to the outside: not to the session record, to Discord or to the
    event loop. *)
Definition outside_call (a : action) : Prop :=
  match a with
  | ReadState | WriteState _ | Send _ _ | Sleep _ | CreateTask _ => False
  | _ => True
  end.

(** A call to the clock, the logger or a remote service. *)
Definition remote_call (a : action) : Prop :=
  match a with
  | Now | Log _ _ | HttpGet _ _ | HttpPut _ _ _ _ _
  | S3UploadFile _ _ _ | RcloneCopy _ _ => True
  | _ => False
  end.

(** Any call but the send of the cloud-upload notice. *)
Definition not_cloud_notice (a : action) : Prop :=
  match a with
  | Send NCloudUpload _ => False
  | _ => True
  end.

(** Any call but a write to a file. *)
Definition not_file_write (a : action) : Prop :=
  match a with
  | WriteFile _ _ => False
  | _ => True
  end.

(** What the event loop maintains: the record is consistent, and so is
    whatever the tasks in flight may still do to it. *)
Definition loop_invariant (s : system) : Prop :=
  consistent (sys_session s)
  /\ Forall (every_call keeps_consistent) (sys_tasks s).

(** The template formats with keyword [kw], whatever the value. *)
Definition formats (template kw : string) : Prop :=
  forall value, is_returned (format template kw value) = true.

(** The three YouTube credentials are set: [upload_video] goes ahead. *)
Definition youtube_configured (cfg : Config) : bool :=
  all_truthy [youtube_client_id cfg; youtube_client_secret cfg; youtube_api_key cfg].

End Bot.

(* ================================================================= *)
(** * A concrete installation, used to exercise the model *)

Module Scenario.
Import Py Bot.

Definition midnight : datetime :=
  {| year := 2024; month := 1; day := 1;
     hour := 0; minute := 0; second := 0; microsecond := 0 |}.

(** YouTube is configured; GitHub and cloud storage are not. *)
Definition studio : Config :=
  {| install_dir := "/opt/virtualstudio";
     obs_host := "localhost";
     obs_port := 4455;
     obs_password := Some "secret";
     youtube_client_id := Some "id";
     youtube_client_secret := Some "secret";
     youtube_api_key := Some "key";
     github_token := None;
     github_repo := None;
     s3_bucket := None;
     rclone_remote := None;
     discord_bot_name := "VirtualStudioRecorder";
     discord_token := Some "token" |}.

Definition general : context :=
  {| guild := Some "studio"; channel_name := "general"; author_display_name := "alice" |}.

Definition direct_message : context :=
  {| guild := None; channel_name := "alice"; author_display_name := "alice" |}.

Definition recording : string := "/opt/virtualstudio/recordings/2024-01-01_00-00-00.mp4".

(** The outside: whether OBS answers, whether the transcript directory can
    be written, and whether S3 takes an upload. The clock stands at
    [midnight]. *)
Definition outside (obs_up transcripts_writable s3_up : bool) (a : action) : resp a :=
  match a as a0 return resp a0 with
  | ReadState => initial_state
  | WriteState _ | Send _ _ | Sleep _ | CreateTask _ | Log _ _ => tt
  | Now => midnight
  | ObsConnect _ _ _ =>
      if obs_up then Returned tt else Failed (LibraryError "Connection refused")
  | ObsCall _ => Returned tt
  | Glob _ _ => [recording]
  | GlobByMtime _ _ => Returned [(recording, 0)]
  | WriteFile _ _ =>
      if transcripts_writable then Returned tt else Failed (OSError "Permission denied")
  | ReadFile _ => Returned "Transcript"
  | HttpGet _ _ => Failed (LibraryError "unreachable")
  | HttpPut _ _ _ _ _ => Failed (LibraryError "unreachable")
  | S3UploadFile _ _ _ =>
      if s3_up then Returned tt
      else Failed (NoCredentialsError "Unable to locate credentials")
  | RcloneCopy _ _ => Failed (TypeError "bufsize must be an integer")
  end.

Definition all_up : oracle := fun _ => outside true true false.
Definition obs_down : oracle := fun _ => outside false true false.
Definition no_transcripts : oracle := fun _ => outside true false false.
Definition no_transcripts_s3 : oracle := fun _ => outside true false true.

Definition idle : world := {| session := initial_state; ticks := 0 |}.

Definition in_session : recording_state :=
  update_on_start midnight 0 "2024-01-01_00-00-00" initial_state.

Definition busy : world := {| session := in_session; ticks := 0 |}.

(** The same installation with an S3 bucket. *)
Definition studio_s3 : Config :=
  {| install_dir := "/opt/virtualstudio";
     obs_host := "localhost";
     obs_port := 4455;
     obs_password := Some "secret";
     youtube_client_id := Some "id";
     youtube_client_secret := Some "secret";
     youtube_api_key := Some "key";
     github_token := None;
     github_repo := None;
     s3_bucket := Some "studio-recordings";
     rclone_remote := None;
     discord_bot_name := "VirtualStudioRecorder";
     discord_token := Some "token" |}.

(** Templates with a placeholder the code does not supply: one for the
    upload notice, one for the cloud-upload notice. *)
Definition custom_prompts : gmap string string :=
  {[ "upload_success" := "Watch it at {url}" ]}.

Definition custom_cloud_prompts : gmap string string :=
  {[ "cloud_upload" := "Stored at {path}" ]}.

Definition start_cmd : sched := Arrive (RecordCommand general (Some "start") 0).
Definition stop_cmd : sched := Arrive (RecordCommand general (Some "stop") 0).
Definition steps (n i : nat) : list sched :=
  repeat (Resume i (outside true true false)) n.

(** A session is started and the start handler runs to its end. *)
Definition one_session : list sched := ([start_cmd] ++ steps 12 0)%list.

(** A first session is started and stopped, and its pipeline sends its first
    notice; a second session is started; then the pipeline of the first,
    still in flight, runs on. *)
Definition overlapping : list sched :=
  (one_session ++ [stop_cmd] ++ steps 14 1 ++ steps 1 2
   ++ [start_cmd] ++ steps 12 3 ++ steps 40 2)%list.

(** A [.env] file with a bot-name line, and one with the section header
    only. *)
Definition env_path : string := "/opt/virtualstudio/config/.env".

Definition env_with_name : string :=
  join nl ["# Discord Bot Configuration"; "DISCORD_BOT_NAME=OldName";
           "OBS_PORT=4455"; ""].

Definition env_with_header : string :=
  join nl ["OBS_PORT=4455"; "  # Discord Bot Configuration  "; "S3_BUCKET="].

Definition env_plain : string := join nl ["OBS_PORT=4455"; "S3_BUCKET="].

Definition disk (content : string) : gmap string string := {[ env_path := content ]}.

(** The same settings in a file with [\r\n] line endings, and with neither
    a bot-name line nor the section header. *)
Definition crlf : string := String ConfigureBotName.carriage_return nl.

Definition env_plain_crlf : string :=
  "OBS_PORT=4455" +:+ crlf +:+ "S3_BUCKET=" +:+ crlf.

(** A platform whose line separator is [\n] and whose locale encoding is
    UTF-8: the bytes that follow a lead byte are in the ranges the encoding
    allows. *)
Definition in_range (c : ascii) (range : nat * nat) : bool :=
  let n := nat_of_ascii c in ((fst range <=? n) && (n <=? snd range))%nat.

Definition continuation : nat * nat := (128, 191)%nat.

Definition utf8_lead (c : ascii) : option (list (nat * nat)) :=
  let n := nat_of_ascii c in
  if (n <? 128)%nat then Some []
  else if ((194 <=? n) && (n <=? 223))%nat then Some [continuation]
  else if (n =? 224)%nat then Some [(160, 191)%nat; continuation]
  else if (n =? 237)%nat then Some [(128, 159)%nat; continuation]
  else if ((225 <=? n) && (n <=? 239))%nat then Some [continuation; continuation]
  else if (n =? 240)%nat then Some [(144, 191)%nat; continuation; continuation]
  else if ((241 <=? n) && (n <=? 243))%nat
       then Some [continuation; continuation; continuation]
  else if (n =? 244)%nat then Some [(128, 143)%nat; continuation; continuation]
  else None.

Fixpoint utf8_from (expected : list (nat * nat)) (s : string) : bool :=
  match s, expected with
  | EmptyString, [] => true
  | EmptyString, _ :: _ => false
  | String c r, range :: rest => in_range c range && utf8_from rest r
  | String c r, [] =>
      match utf8_lead c with
      | Some following => utf8_from following r
      | None => false
      end
  end.

Definition utf8 (s : string) : outcome string :=
  if utf8_from [] s then Returned s
  else Failed (ValueError "'utf-8' codec cannot convert the text").

Definition posix_utf8 : ConfigureBotName.platform :=
  {| ConfigureBotName.decode := utf8;
     ConfigureBotName.encode := utf8;
     ConfigureBotName.linesep := nl |}.

End Scenario.

(* ================================================================= *)
(** * Further vocabulary: states, traces and listings *)

Module Vocabulary.
Import Py Bot.

(** The world and the calls of a run that went up to its first sleep. *)
Definition world_of {A} (p : paused A) : world :=
  match p with
  | Finished _ w _ => w
  | Asleep _ _ w _ => w
  end.

Definition events_of {A} (p : paused A) : list event :=
  match p with
  | Finished _ _ l => l
  | Asleep _ _ _ l => l
  end.

(** A call keeps a property of the session record. *)
Definition keeps (I : recording_state -> Prop) (a : action) : Prop :=
  forall st, I st -> I (effect a st).

(** What holds of the session record between the calls of the handlers: an
    active record has its start time and file name, an idle one has the
    lifecycle defaults, and nobody is ever listed in [participants]. *)
Definition lifecycle_invariant (st : recording_state) : Prop :=
  (active st = true ->
   is_Some (start_time st) /\ is_Some (recording_filename st))
  /\ (active st = false ->
      start_time st = None /\ duration_minutes st = 0
      /\ recording_filename st = None)
  /\ participants st = [].

(** A call the status handler may make. *)
Definition status_call (a : action) : Prop :=
  match a with
  | ReadState | Now | Send _ _ => True
  | _ => False
  end.

(** A call the health check may make. *)
Definition health_call (a : action) : Prop :=
  match a with
  | ReadState | Log _ _ | ObsConnect _ _ _ | ObsCall Disconnect => True
  | _ => False
  end.

(** A call the upload listing may make. *)
Definition listing_call (a : action) : Prop :=
  match a with
  | GlobByMtime _ _ | Log _ _ | Send _ _ => True
  | _ => False
  end.

(** Any call but a read of a file. *)
Definition not_file_read (a : action) : Prop :=
  match a with
  | ReadFile _ => False
  | _ => True
  end.

(** A call to the outside other than a read of a file. *)
Definition quiet_call (a : action) : Prop :=
  outside_call a /\ not_file_read a.

(** The read of the transcript file raised. *)
Definition read_failed (e : event) : bool :=
  match e with
  | Ev a r =>
      match a as a0 return resp a0 -> bool with
      | ReadFile _ => fun r => negb (is_returned r)
      | _ => fun _ => false
      end r
  end.

(** A call to OBS raised. *)
Definition obs_failed (e : event) : bool :=
  match e with
  | Ev a r =>
      match a as a0 return resp a0 -> bool with
      | ObsConnect _ _ _ => fun r => negb (is_returned r)
      | ObsCall _ => fun r => negb (is_returned r)
      | _ => fun _ => false
      end r
  end.

(** A request on an OBS connection. *)
Definition is_obs_request (e : event) : bool :=
  match ev_action e with ObsCall _ => true | _ => false end.

(** A call to the GitHub API. *)
Definition is_http (e : event) : bool :=
  match ev_action e with HttpGet _ _ | HttpPut _ _ _ _ _ => true | _ => false end.

(** A PUT that GitHub answered with 200 or 201 and the URL [url]. *)
Definition put_accepted (url : string) (e : event) : bool :=
  match e with
  | Ev a r =>
      match a as a0 return resp a0 -> bool with
      | HttpPut _ _ _ _ _ =>
          fun r =>
            match r with
            | Returned rsp =>
                ((status_code rsp =? 200) || (status_code rsp =? 201))
                && match json_field rsp with
                   | Returned u => String.eqb u url
                   | Failed _ => false
                   end
            | Failed _ => false
            end
      | _ => fun _ => false
      end r
  end.

(** The transcript was written to [path]. *)
Definition wrote (path : string) (e : event) : bool :=
  match e with
  | Ev a r =>
      match a as a0 return resp a0 -> bool with
      | WriteFile p _ => fun r => String.eqb p path && is_returned r
      | _ => fun _ => false
      end r
  end.

(** The S3 upload returned. *)
Definition s3_uploaded (e : event) : bool :=
  match e with
  | Ev a r =>
      match a as a0 return resp a0 -> bool with
      | S3UploadFile _ _ _ => fun r => is_returned r
      | _ => fun _ => false
      end r
  end.

(** [rclone] ran and exited with 0. *)
Definition rclone_copied (e : event) : bool :=
  match e with
  | Ev a r =>
      match a as a0 return resp a0 -> bool with
      | RcloneCopy _ _ =>
          fun r =>
            match r with
            | Returned done => returncode done =? 0
            | Failed _ => false
            end
      | _ => fun _ => false
      end r
  end.

(** A coroutine that keeps to itself: whatever it is answered, it returns,
    the session record is as before, and none of its calls is to the session
    record, to Discord or to the event loop. *)
Definition contained {A} (p : prog A) : Prop :=
  forall (o : oracle) (w : world),
    (exists a, value (run p o w) = Returned a)
    /\ session (final (run p o w)) = session w
    /\ Forall (fun e => outside_call (ev_action e)) (events (run p o w)).

(** The GitHub token and repository are set: [commit_file] goes ahead. *)
Definition github_configured (cfg : Config) : bool :=
  all_truthy [github_token cfg; github_repo cfg].

(** The URL [commit_file] talks to for a file. *)
Definition contents_url (cfg : Config) (file_path : string) : string :=
  base_url +:+ "/repos/" +:+ str_opt (github_repo cfg) +:+ "/contents/" +:+ file_path.

(** A PUT to the GitHub API. *)
Definition is_put (e : event) : bool :=
  match ev_action e with HttpPut _ _ _ _ _ => true | _ => false end.

(** A call that leaves the process for nothing but the time and the log. *)
Definition local_call (a : action) : Prop :=
  match a with
  | Now | Log _ _ => True
  | _ => False
  end.

(** A call the collaborators of the pipeline make: to the clock, the logger
    or a remote service, or the write of a file. *)
Definition service_call (a : action) : Prop :=
  match a with
  | Now | Log _ _ | HttpGet _ _ | HttpPut _ _ _ _ _
  | S3UploadFile _ _ _ | RcloneCopy _ _ | WriteFile _ _ => True
  | _ => False
  end.

(** One of the three notices that close a run of the pipeline. *)
Definition is_closing (e : event) : bool :=
  is_send NFileNotFound e || is_send NProcessingComplete e
  || is_send NProcessingFailed e.

(** A listing with the newest file first. *)
Fixpoint newest_first (l : list (string * Z)) : Prop :=
  match l with
  | [] => True
  | x :: rest => Forall (fun y => snd y <= snd x) rest /\ newest_first rest
  end.

(** The files of a listing with modification time [t], in order. *)
Definition with_mtime (t : Z) (l : list (string * Z)) : list (string * Z) :=
  List.filter (fun x => snd x =? t) l.

(** A name of printable ASCII characters other than the quote and the
    backslash: [repr] gives it between quotes, as it is. *)
Definition plain_char (c : ascii) : bool :=
  let n := nat_of_ascii c in
  ((32 <=? n) && (n <=? 126) && negb (n =? 39) && negb (n =? 92))%nat.

Definition plain_name (name : string) : bool := all_chars plain_char name.

(** The longest sleep, in seconds, considered: far below the delays that
    [asyncio.sleep] cannot add to the time of the loop. *)
Definition longest_sleep : Z := 2 ^ 1023.

(** The subcommands [record_command] knows. *)
Definition known_subcommand (s : string) : bool :=
  String.eqb s "start" || String.eqb s "stop"
  || String.eqb s "status" || String.eqb s "upload".

End Vocabulary.

(* ================================================================= *)
(** * Further inputs *)

Module Cases.
Import Py Bot.

(** The installation with a GitHub token and repository, and without the
    YouTube credentials. *)
Definition studio_github : Config :=
  {| install_dir := "/opt/virtualstudio";
     obs_host := "localhost";
     obs_port := 4455;
     obs_password := Some "secret";
     youtube_client_id := None;
     youtube_client_secret := None;
     youtube_api_key := None;
     github_token := Some "ghp_token";
     github_repo := Some "studio/recordings";
     s3_bucket := None;
     rclone_remote := None;
     discord_bot_name := "VirtualStudioRecorder";
     discord_token := Some "token" |}.

(** GitHub has the file, with blob [3b18e5], and takes the commit. *)
Definition github_up (a : action) : resp a :=
  match a as a0 return resp a0 with
  | HttpGet _ _ => Returned {| status_code := 200; json_field := Returned "3b18e5" |}
  | HttpPut url _ _ _ _ =>
      Returned {| status_code := 200; json_field := Returned (url +:+ "#blob") |}
  | a' => Scenario.outside true true false a'
  end.

Definition with_github : oracle := fun _ => github_up.

(** The recordings directory is empty. *)
Definition no_recording : oracle :=
  fun _ a =>
    match a as a0 return resp a0 with
    | Glob _ _ => []
    | GlobByMtime _ _ => Returned []
    | a' => Scenario.outside true true false a'
    end.

(** The transcript is written and cannot be read back. *)
Definition unreadable : oracle :=
  fun _ a =>
    match a as a0 return resp a0 with
    | ReadFile _ => Failed (OSError "Input/output error")
    | a' => Scenario.outside true true false a'
    end.

(** A start template with a placeholder the code does not supply. *)
Definition start_prompts : gmap string string :=
  {[ "recording_start" := "Recording in {channel}" ]}.

End Cases.

(* ================================================================= *)
(** * Properties *)

Import Py Bot.

(** ** The Python primitives on examples *)

Example split_keeps_empty_pieces :
  split newline ("a" +:+ nl +:+ nl +:+ "b" +:+ nl) = ["a"; ""; "b"; ""].
Proof. reflexivity. Qed.

Example strip_both_sides :
  strip ("  " +:+ nl +:+ "# Discord Bot Configuration " +:+ bytes [194; 160]%nat)
  = "# Discord Bot Configuration".
Proof. reflexivity. Qed.

Example lower_ascii_letters : lower "StArT" = "start".
Proof. reflexivity. Qed.

Example zfill_examples :
  (zfill_int 2 5, zfill_int 2 (-5), zfill_int 2 123, zfill_int 6 42)
  = ("05", "-5", "123", "000042").
Proof. reflexivity. Qed.

Example format_fills_the_field :
  format "Recording started in {channel_name}!" "channel_name" "general"
  = Returned "Recording started in general!".
Proof. reflexivity. Qed.

Example format_escaped_braces :
  format "{{{channel_name}}}" "channel_name" "general" = Returned "{general}".
Proof. reflexivity. Qed.

Example format_unknown_field :
  format "Watch it at {url}" "video_url" "x" = Failed (KeyError "url").
Proof. reflexivity. Qed.

Example format_positional_field :
  (format "Recording {} started" "channel_name" "general",
   format "Recording {007} started" "channel_name" "general")
  = (Failed (IndexError "Replacement index 0 out of range for positional args tuple"),
     Failed (IndexError "Replacement index 7 out of range for positional args tuple")).
Proof. vm_compute. reflexivity. Qed.

Example format_single_brace :
  format "a } b" "video_url" "x"
  = Failed (ValueError "Single '}' encountered in format string").
Proof. reflexivity. Qed.

Example strftime_filename :
  strftime "%Y-%m-%d_%H-%M-%S" Scenario.midnight = "2024-01-01_00-00-00".
Proof. reflexivity. Qed.

Example toordinal_2024 : toordinal Scenario.midnight = 738886.
Proof. reflexivity. Qed.

Example timedelta_text :
  str_timedelta (make_timedelta 61 3909 123) = "61 days, 1:05:09.000123"
  /\ str_timedelta (make_timedelta 0 0 (-1)) = "-1 day, 23:59:59.999999"
  /\ str_timedelta (make_timedelta 0 300 0) = "0:05:00".
Proof. repeat split. Qed.

Example stem_of_recording :
  path_stem Scenario.recording = "2024-01-01_00-00-00"
  /\ path_name Scenario.recording = "2024-01-01_00-00-00.mp4"
  /\ path_stem "dir/.hidden" = ".hidden".
Proof. repeat split. Qed.

(** ** [strip] leaves no white space at the front

    [lstrip_with] is given the length of the text as fuel; every round takes
    at least one byte off, so the fuel lasts. *)

Lemma drop_prefix_shorter (p s r : string) :
  p <> "" -> drop_prefix p s = Some r ->
  (String.length r < String.length s)%nat.
Proof.
  revert s. induction p as [| a p IH]; intros s Hp Hdrop; [contradiction |].
  destruct s as [| b s]; [discriminate |]. cbn in Hdrop.
  destruct (Ascii.eqb a b); [| discriminate].
  destruct p as [| a' p].
  - cbn in Hdrop. injection Hdrop as ->. cbn. lia.
  - specialize (IH s ltac:(discriminate) Hdrop). cbn. lia.
Qed.

Lemma drop_any_shorter (table : list string) (s r : string) :
  Forall (fun p => p <> "") table -> drop_any table s = Some r ->
  (String.length r < String.length s)%nat.
Proof.
  intros Htable. induction Htable as [| p table Hp Htable IH]; cbn; [discriminate |].
  destruct (drop_prefix p s) as [r' |] eqn:Hdrop.
  - intros [= ->]. eapply drop_prefix_shorter; eassumption.
  - exact IH.
Qed.

Lemma lstrip_with_done (table : list string) (fuel : nat) (s : string) :
  Forall (fun p => p <> "") table ->
  (String.length s <= fuel)%nat ->
  drop_any table (lstrip_with table fuel s) = None.
Proof.
  intros Htable. revert s. induction fuel as [| fuel IH]; intros s Hlen; cbn.
  - destruct s; [| cbn in Hlen; lia].
    clear Hlen. induction Htable as [| p table Hp _ IHt]; cbn; [reflexivity |].
    destruct p; [contradiction | exact IHt].
  - destruct (drop_any table s) as [r |] eqn:Hdrop; [| exact Hdrop].
    apply IH. pose proof (drop_any_shorter table s r Htable Hdrop). lia.
Qed.

Lemma whitespace_nonempty : Forall (fun p => p <> "") whitespace.
Proof. repeat constructor; discriminate. Qed.

Lemma lstrip_done (s : string) : drop_any whitespace (lstrip s) = None.
Proof. apply lstrip_with_done; [apply whitespace_nonempty | reflexivity]. Qed.

(** ** Running a sequence, running under [try] *)

Section RunFacts.

Context {A B : Type}.

Lemma run_bind (p : prog A) (f : A -> prog B) (o : oracle) (w : world) :
  run (bind p f) o w =
  match value (run p o w) with
  | Returned a =>
      let r := run (f a) o (final (run p o w)) in
      {| value := value r; final := final r;
         events := events (run p o w) ++ events r |}
  | Failed e =>
      {| value := Failed e; final := final (run p o w);
         events := events (run p o w) |}
  end.
Proof.
  revert w. induction p as [a | e | a k IH]; intros w; cbn.
  - destruct (run (f a) o w); reflexivity.
  - reflexivity.
  - rewrite IH. destruct (value (run (k _) o _)); reflexivity.
Qed.

Lemma run_try_except (p : prog A) (h : exn -> prog A) (o : oracle) (w : world) :
  run (try_except p h) o w =
  match value (run p o w) with
  | Returned a =>
      {| value := Returned a; final := final (run p o w);
         events := events (run p o w) |}
  | Failed e =>
      let r := run (h e) o (final (run p o w)) in
      {| value := value r; final := final r;
         events := events (run p o w) ++ events r |}
  end.
Proof.
  revert w. induction p as [a | e | a k IH]; intros w; cbn.
  - reflexivity.
  - destruct (run (h e) o w); reflexivity.
  - rewrite IH. destruct (value (run (k _) o _)); reflexivity.
Qed.

End RunFacts.

(** ** What every call of a coroutine satisfies *)

Section EveryCall.

Variable P : action -> Prop.

Lemma every_call_bind {A B} (p : prog A) (f : A -> prog B) :
  every_call P p -> (forall a, every_call P (f a)) -> every_call P (bind p f).
Proof.
  induction p as [a | e | a k IH]; cbn; intros Hp Hf; auto.
  destruct Hp as [Ha Hk]. split; auto.
Qed.

Lemma every_call_bind_ret {A B} (a : A) (f : A -> prog B) :
  every_call P (f a) -> every_call P (bind (Ret a) f).
Proof. intros H. exact H. Qed.

Lemma every_call_try {A} (p : prog A) (h : exn -> prog A) :
  every_call P p -> (forall e, every_call P (h e)) -> every_call P (try_except p h).
Proof.
  induction p as [a | e | a k IH]; cbn; intros Hp Hh; auto.
  destruct Hp as [Ha Hk]. split; auto.
Qed.

Lemma every_call_call (a : action) : P a -> every_call P (call a).
Proof. intros Ha. cbn. split; [exact Ha | intros; exact I]. Qed.

Lemma every_call_lift {A} (r : outcome A) : every_call P (lift r).
Proof. destruct r; exact I. Qed.

Lemma every_call_attempt {A} (p : prog (outcome A)) :
  every_call P p -> every_call P (attempt p).
Proof. intros Hp. apply every_call_bind; [exact Hp | intros; apply every_call_lift]. Qed.

Lemma every_call_events {A} (p : prog A) (o : oracle) (w : world) :
  every_call P p -> Forall (fun e => P (ev_action e)) (events (run p o w)).
Proof.
  revert w. induction p as [a | e | a k IH]; intros w Hp; cbn.
  - constructor.
  - constructor.
  - destruct Hp as [Ha Hk]. constructor; [exact Ha | apply IH, Hk].
Qed.

End EveryCall.

Lemma every_call_weaken {A} (P Q : action -> Prop) (p : prog A) :
  (forall a, P a -> Q a) -> every_call P p -> every_call Q p.
Proof.
  intros HPQ. induction p as [a | e | a k IH]; cbn; auto.
  intros [Ha Hk]. split; auto.
Qed.

(** A relation that every call keeps is kept by the whole run. *)
Lemma every_call_session {A} (R : recording_state -> recording_state -> Prop)
    (p : prog A) (o : oracle) (w : world) :
  (forall st, R st st) ->
  (forall a b c, R a b -> R b c -> R a c) ->
  every_call (fun a => forall st, R st (effect a st)) p ->
  R (session w) (session (final (run p o w))).
Proof.
  intros Hrefl Htrans. revert w.
  induction p as [a | e | a k IH]; intros w Hp; cbn; auto.
  destruct Hp as [Ha Hk].
  eapply Htrans; [apply Ha | apply (IH _ (after a w)), Hk].
Qed.

(** A coroutine that raises nothing returns. *)
Lemma never_raises_returns {A} (p : prog A) (o : oracle) (w : world) :
  never_raises p -> exists a, value (run p o w) = Returned a.
Proof.
  revert w. induction p as [a | e | a k IH]; intros w Hp; cbn.
  - eauto.
  - destruct Hp.
  - apply IH, Hp.
Qed.

Lemma never_raises_bind {A B} (p : prog A) (f : A -> prog B) :
  never_raises p -> (forall a, never_raises (f a)) -> never_raises (bind p f).
Proof. induction p as [a | e | a k IH]; cbn; intros Hp Hf; auto. Qed.

Lemma never_raises_try {A} (p : prog A) (h : exn -> prog A) :
  (forall e, never_raises (h e)) -> never_raises (try_except p h).
Proof. induction p as [a | e | a k IH]; cbn; intros Hh; auto. Qed.

Lemma never_raises_call (a : action) : never_raises (call a).
Proof. cbn. intros; exact I. Qed.

(** Walks a coroutine: sequences, [try] blocks, calls and branches. *)
Ltac walk_step :=
  lazymatch goal with
  | |- every_call _ (bind (Ret _) _) => apply every_call_bind_ret
  | |- every_call _ (bind _ _) => apply every_call_bind
  | |- every_call _ (try_except _ _) => apply every_call_try
  | |- every_call _ (attempt _) => apply every_call_attempt
  | |- every_call _ (lift _) => apply every_call_lift
  | |- every_call _ (call _) => apply every_call_call
  | |- every_call _ (Ret _) => exact I
  | |- every_call _ (Raise _) => exact I
  | |- every_call _ (if ?b then _ else _) =>
      first [progress cbn [negb orb andb] | destruct b]
  | |- every_call _ (match ?x with _ => _ end) => destruct x
  | |- forall _, _ => intro
  end.

Ltac walk := repeat walk_step; try exact I.

(** ** Rules for [ensures] *)

Section Ensures.

Context {A : Type}.
Variable o : oracle.

Lemma ensures_ret (a : A) w Q : Q (Returned a) w [] -> ensures (Ret a) o w Q.
Proof. intros H. exact H. Qed.

Lemma ensures_raise (e : exn) w (Q : outcome A -> world -> list event -> Prop) :
  Q (Failed e) w [] -> ensures (Raise e) o w Q.
Proof. intros H. exact H. Qed.

Lemma ensures_lift (r : outcome A) w Q : Q r w [] -> ensures (lift r) o w Q.
Proof. intros H. destruct r; exact H. Qed.

Lemma ensures_bind {B} (p : prog B) (f : B -> prog A) w Q :
  ensures p o w
    (fun v w1 l1 =>
       match v with
       | Returned b => ensures (f b) o w1 (fun v2 w2 l2 => Q v2 w2 (l1 ++ l2)%list)
       | Failed e => Q (Failed e) w1 l1
       end) ->
  ensures (bind p f) o w Q.
Proof.
  unfold ensures. rewrite run_bind.
  destruct (value (run p o w)); intros H; exact H.
Qed.

Lemma ensures_try (p : prog A) (h : exn -> prog A) w Q :
  ensures p o w
    (fun v w1 l1 =>
       match v with
       | Returned a => Q (Returned a) w1 l1
       | Failed e => ensures (h e) o w1 (fun v2 w2 l2 => Q v2 w2 (l1 ++ l2)%list)
       end) ->
  ensures (try_except p h) o w Q.
Proof.
  unfold ensures. rewrite run_try_except.
  destruct (value (run p o w)); intros H; exact H.
Qed.

Lemma ensures_weaken (p : prog A) w (Q Q' : outcome A -> world -> list event -> Prop) :
  (forall v w' l, Q v w' l -> Q' v w' l) -> ensures p o w Q -> ensures p o w Q'.
Proof. unfold ensures. auto. Qed.

End Ensures.

Lemma ensures_call (o : oracle) (a : action) w
    (Q : outcome (resp a) -> world -> list event -> Prop) :
  Q (Returned (reply (o (ticks w)) (session w) a)) (after a w)
    [Ev a (reply (o (ticks w)) (session w) a)] ->
  ensures (call a) o w Q.
Proof. intros H. exact H. Qed.

Lemma ensures_attempt {A} (o : oracle) (p : prog (outcome A)) w Q :
  ensures p o w
    (fun v w1 l1 =>
       match v with
       | Returned r => Q r w1 l1
       | Failed e => Q (Failed e) w1 l1
       end) ->
  ensures (attempt p) o w Q.
Proof.
  intros H. unfold attempt. apply ensures_bind.
  eapply ensures_weaken; [| exact H].
  intros [r | e] w' l HQ; [| exact HQ].
  apply ensures_lift. rewrite app_nil_r. exact HQ.
Qed.

(** One step of a run: a sequence, a [try] block, a call, a return. *)
Ltac step :=
  lazymatch goal with
  | |- ensures (bind _ _) _ _ _ => apply ensures_bind
  | |- ensures (try_except _ _) _ _ _ => apply ensures_try
  | |- ensures (attempt _) _ _ _ => apply ensures_attempt
  | |- @ensures _ (@call ?a) ?o ?w ?Q => refine (ensures_call o a w Q _)
  | |- ensures (lift _) _ _ _ => apply ensures_lift
  | |- ensures (Ret _) _ _ _ => apply ensures_ret
  | |- ensures (Raise _) _ _ _ => apply ensures_raise
  | |- ensures (if _ then _ else _) _ _ _ => progress cbn [negb]
  end;
  cbn beta iota;
  cbn [reply after effect session ticks app negb datetime_sub_opt].

Ltac steps := repeat step.

(** States the goal, which speaks of the run of [p] from [w], with [ensures]. *)
Ltac by_run p o w :=
  pattern (value (run p o w)), (final (run p o w)), (events (run p o w));
  lazymatch goal with
  | |- ?Q _ _ _ => change (ensures p o w Q)
  end.

(** The answer to a call that answers nothing is [tt]. *)
Ltac unit_answer :=
  match goal with
  | |- Returned ?u = Returned tt => destruct u; reflexivity
  end.

(** ** The calls of the collaborators

    The collaborator classes call the clock, the logger, OBS, the file system
    and the network; they neither touch the session record nor talk to
    Discord. *)

Lemma remote_is_outside a : remote_call a -> outside_call a.
Proof. destruct a; cbn; auto. Qed.

Section Collaborators.

Variable cfg : Config.

Lemma upload_video_remote file title description :
  every_call remote_call (upload_video cfg file title description).
Proof. unfold upload_video. walk. Qed.

Lemma commit_file_remote file content message :
  every_call remote_call (commit_file cfg file content message).
Proof. unfold commit_file. walk. Qed.

Lemma upload_transcript_remote content metadata :
  every_call remote_call (upload_transcript cfg content metadata).
Proof. unfold upload_transcript. walk; apply commit_file_remote. Qed.

Lemma upload_to_s3_remote file : every_call remote_call (upload_to_s3 cfg file).
Proof. unfold upload_to_s3. walk. Qed.

Lemma upload_to_rclone_remote file : every_call remote_call (upload_to_rclone cfg file).
Proof. unfold upload_to_rclone. walk. Qed.

Lemma upload_video_calls file title description :
  every_call outside_call (upload_video cfg file title description).
Proof. eapply every_call_weaken; [exact remote_is_outside | apply upload_video_remote]. Qed.

Lemma upload_transcript_calls content metadata :
  every_call outside_call (upload_transcript cfg content metadata).
Proof. eapply every_call_weaken; [exact remote_is_outside | apply upload_transcript_remote]. Qed.

Lemma upload_to_s3_calls file : every_call outside_call (upload_to_s3 cfg file).
Proof. eapply every_call_weaken; [exact remote_is_outside | apply upload_to_s3_remote]. Qed.

Lemma upload_to_rclone_calls file : every_call outside_call (upload_to_rclone cfg file).
Proof. eapply every_call_weaken; [exact remote_is_outside | apply upload_to_rclone_remote]. Qed.

Lemma generate_transcript_calls file :
  every_call outside_call (generate_transcript cfg file).
Proof. unfold generate_transcript. walk. Qed.

Lemma get_connection_calls : every_call outside_call (get_connection cfg).
Proof. unfold get_connection. walk. Qed.

Lemma start_recording_calls : every_call outside_call (start_recording cfg).
Proof. unfold start_recording. walk; apply get_connection_calls. Qed.

Lemma stop_recording_calls : every_call outside_call (stop_recording cfg).
Proof. unfold stop_recording. walk; apply get_connection_calls. Qed.

End Collaborators.

(** A run of calls to the outside leaves the session record as it is. *)
Lemma outside_calls_keep_session {A} (p : prog A) (o : oracle) (w : world) :
  every_call outside_call p -> session (final (run p o w)) = session w.
Proof.
  intros Hp. symmetry.
  apply (every_call_session (fun a b => a = b)); [auto | intros; congruence |].
  eapply every_call_weaken; [| exact Hp].
  intros a Ha st. destruct a; cbn in *; auto; contradiction.
Qed.

Create HintDb calls.
Create HintDb remote.
#[local] Hint Resolve upload_video_calls upload_transcript_calls
  generate_transcript_calls get_connection_calls start_recording_calls
  stop_recording_calls upload_to_s3_calls upload_to_rclone_calls : calls.
#[local] Hint Resolve upload_video_remote upload_transcript_remote commit_file_remote
  upload_to_s3_remote upload_to_rclone_remote : remote.

(** ** Commands outside a guild *)

(** C9. A [record] command that arrives outside a guild ([ctx.guild] is
    [None]) is ignored, whatever the subcommand and the minutes: the
    coroutine returns at once, so no reply is sent, no handler runs, no call
    is made and the session record is as before. *)
Theorem record_command_outside_guild :
  forall (cfg : Config) (prompts : gmap string string) (ctx : context)
         (subcommand : option string) (minutes : Z) (o : oracle) (w : world),
    guild ctx = None ->
    record_command cfg prompts ctx subcommand minutes = Ret tt
    /\ events (run (record_command cfg prompts ctx subcommand minutes) o w) = []
    /\ final (run (record_command cfg prompts ctx subcommand minutes) o w) = w.
Proof.
  intros cfg prompts ctx subcommand minutes o w Hguild.
  unfold record_command. rewrite Hguild. repeat split.
Qed.

Lemma record_command_outside_guild_witness :
  guild Scenario.direct_message = None
  /\ events (run (record_command Scenario.studio default_prompts
                    Scenario.direct_message (Some "start") 5)
               Scenario.all_up Scenario.idle) = [].
Proof.
  split; [reflexivity |].
  apply (record_command_outside_guild Scenario.studio default_prompts
           Scenario.direct_message (Some "start") 5 Scenario.all_up Scenario.idle).
  reflexivity.
Defined.

(** ** Precondition violations *)

(** C3. A start while a session is active, and a stop while none is, are
    answered with a warning and nothing else: the handler reads the session
    record, sends the warning and returns. It makes no call to the recorder
    and the session record is as before. *)
Theorem precondition_violations_are_rejected :
  forall (cfg : Config) (prompts : gmap string string) (ctx : context)
         (minutes : Z) (o : oracle) (recording idle : world),
    active (session recording) = true ->
    active (session idle) = false ->
    let started := run (handle_record_start cfg prompts ctx minutes) o recording in
    let stopped := run (handle_record_stop cfg prompts ctx) o idle in
    (value started = Returned tt
     /\ calls (events started)
        = [ReadState; Send NAlreadyRecording "‚ö†Ô∏è Recording already in progress!"]
     /\ existsb is_obs (events started) = false
     /\ session (final started) = session recording)
    /\ (value stopped = Returned tt
        /\ calls (events stopped)
           = [ReadState; Send NNotRecording "‚ö†Ô∏è No recording in progress!"]
        /\ existsb is_obs (events stopped) = false
        /\ session (final stopped) = session idle).
Proof.
  intros cfg prompts ctx minutes o recording idle Hrec Hidle started stopped.
  subst started stopped. split.
  - by_run (handle_record_start cfg prompts ctx minutes) o recording.
    unfold handle_record_start. do 2 step. rewrite Hrec. steps.
    repeat split. unit_answer.
  - by_run (handle_record_stop cfg prompts ctx) o idle.
    unfold handle_record_stop. do 2 step. rewrite Hidle. steps.
    repeat split. unit_answer.
Qed.

Lemma precondition_violations_are_rejected_witness :
  session (final (run (handle_record_start Scenario.studio default_prompts
                         Scenario.general 5)
                    Scenario.all_up Scenario.busy)) = Scenario.in_session
  /\ session (final (run (handle_record_stop Scenario.studio default_prompts
                            Scenario.general)
                       Scenario.all_up Scenario.idle)) = initial_state.
Proof.
  pose proof (precondition_violations_are_rejected Scenario.studio default_prompts
                Scenario.general 5 Scenario.all_up Scenario.busy Scenario.idle
                eq_refl eq_refl) as [(_ & _ & _ & Hstart) (_ & _ & _ & Hstop)].
  split; [exact Hstart | exact Hstop].
Defined.

(** ** Failure of the recorder at start *)

(** C5. From an idle session, when the call the start handler makes to
    [obs_controller.start_recording] returns [False], the handler sends the
    failure notice and returns; every field of the session record is as
    before, [active] still false. *)
Theorem start_failure_leaves_session_unchanged :
  forall (cfg : Config) (prompts : gmap string string) (ctx : context)
         (minutes : Z) (o : oracle) (w : world),
    active (session w) = false ->
    value (run (start_recording cfg) o (after ReadState w)) = Returned false ->
    let r := run (handle_record_start cfg prompts ctx minutes) o w in
    value r = Returned tt
    /\ session (final r) = session w
    /\ active (session (final r)) = false
    /\ existsb (sent NObsStartFailed "‚ùå Failed to start OBS recording") (events r) = true
    /\ existsb is_write (events r) = false.
Proof.
  intros cfg prompts ctx minutes o w Hidle Hfail r. subst r.
  pose proof (outside_calls_keep_session _ o (after ReadState w)
                (start_recording_calls cfg)) as Hsession.
  pose proof (every_call_events outside_call _ o (after ReadState w)
                (start_recording_calls cfg)) as Hcalls.
  by_run (handle_record_start cfg prompts ctx minutes) o w.
  set (r0 := run (start_recording cfg) o (after ReadState w)) in *.
  unfold handle_record_start. do 2 step. rewrite Hidle. do 2 step.
  unfold ensures at 1. fold r0. rewrite Hfail. clearbody r0. steps.
  repeat split.
  - unit_answer.
  - rewrite Hsession. reflexivity.
  - rewrite Hsession. exact Hidle.
  - cbn [existsb]. rewrite !existsb_app. cbn. rewrite orb_true_r. reflexivity.
  - cbn [existsb]. rewrite !existsb_app. cbn. rewrite orb_false_r.
    apply not_true_is_false. intros Hex. apply existsb_exists in Hex.
    destruct Hex as [e [Hin He]].
    rewrite Forall_forall in Hcalls. specialize (Hcalls e).
    rewrite <- list_elem_of_In in Hin. specialize (Hcalls Hin).
    unfold is_write in He. destruct (ev_action e); try discriminate He. exact Hcalls.
Qed.

Lemma start_failure_leaves_session_unchanged_witness :
  session (final (run (handle_record_start Scenario.studio default_prompts Scenario.general 5)
                    Scenario.obs_down Scenario.idle)) = initial_state.
Proof.
  apply (start_failure_leaves_session_unchanged Scenario.studio default_prompts
           Scenario.general 5 Scenario.obs_down Scenario.idle); reflexivity.
Defined.

(** A run of calls to the outside: the session record is as before, and no
    call is to the session record, to Discord or to the event loop. *)
Lemma outside_run {A} (p : prog A) (o : oracle) (w : world) :
  every_call outside_call p ->
  exists v n l,
    run p o w = {| value := v; final := {| session := session w; ticks := n |};
                   events := l |}
    /\ Forall (fun e => outside_call (ev_action e)) l.
Proof.
  intros Hp.
  pose proof (outside_calls_keep_session p o w Hp) as Hs.
  pose proof (every_call_events outside_call p o w Hp) as Hl.
  destruct (run p o w) as [v [s n] l]. cbn in *. subst s.
  exists v, n, l. split; [reflexivity | exact Hl].
Qed.

Lemma outside_calls_not (f : event -> bool) (l : list event) :
  (forall e, f e = true -> ~ outside_call (ev_action e)) ->
  Forall (fun e => outside_call (ev_action e)) l ->
  existsb f l = false.
Proof.
  intros Hf Hl. induction Hl as [| e l He Hl IH]; [reflexivity |].
  cbn. rewrite IH, orb_false_r.
  destruct (f e) eqn:E; [| reflexivity]. destruct (Hf e E He).
Qed.

Lemma outside_not_write e : is_write e = true -> ~ outside_call (ev_action e).
Proof. unfold is_write. destruct (ev_action e); cbn; auto; discriminate. Qed.

Lemma outside_not_read e : is_read e = true -> ~ outside_call (ev_action e).
Proof. unfold is_read. destruct (ev_action e); cbn; auto; discriminate. Qed.

Lemma outside_not_send n e : is_send n e = true -> ~ outside_call (ev_action e).
Proof. unfold is_send. destruct (ev_action e); cbn; auto; discriminate. Qed.

Lemma outside_not_sleep e : is_sleep e = true -> ~ outside_call (ev_action e).
Proof. unfold is_sleep. destruct (ev_action e); cbn; auto; discriminate. Qed.

(** ** The stop transition *)

(** The stop transition from an active session whose start time is set,
    when the recorder confirms the stop. *)
Lemma stop_transition :
  forall (cfg : Config) (prompts : gmap string string) (ctx : context)
         (o : oracle) (w : world) (started_at : datetime),
    active (session w) = true ->
    start_time (session w) = Some started_at ->
    value (run (stop_recording cfg) o (after ReadState w)) = Returned true ->
    let r := run (handle_record_stop cfg prompts ctx) o w in
    value r = Returned tt
    /\ active (session (final r)) = false
    /\ start_time (session (final r)) = None
    /\ duration_minutes (session (final r)) = 0
    /\ recording_filename (session (final r)) = None
    /\ same_postprocessing (session w) (session (final r))
    /\ participants (session (final r)) = participants (session w)
    /\ In (CreateTask (RecordingPipeline (recording_filename (session w)) ctx))
          (calls (events r)).
Proof.
  intros cfg prompts ctx o w started_at Hactive Hstart Hstop r. subst r.
  destruct (outside_run _ o (after ReadState w) (stop_recording_calls cfg))
    as (v & n & l & Hrun & _).
  rewrite Hrun in Hstop. cbn [value] in Hstop. subst v.
  by_run (handle_record_stop cfg prompts ctx) o w.
  unfold handle_record_stop. do 2 step. rewrite Hactive. do 3 step.
  unfold ensures at 1. rewrite Hrun. cbn [value final events]. steps.
  rewrite Hstart. cbn [datetime_sub_opt]. steps.
  unfold same_postprocessing, calls. cbn [update_on_stop active start_time
    duration_minutes recording_filename participants youtube_upload_id
    github_commit_url transcript_path].
  repeat split; try unit_answer.
  apply in_map_iff. eexists. split; [| right; apply in_or_app; right;
    do 5 right; left; reflexivity]. reflexivity.
Qed.


(** ** The start time is set exactly when the session is active *)

Lemma outside_keeps_consistent a : outside_call a -> keeps_consistent a.
Proof. intros Ha st Hst. destruct a; cbn in *; auto; contradiction. Qed.

Lemma off_lifecycle_keeps_consistent a : off_lifecycle a -> keeps_consistent a.
Proof.
  intros Ha st Hst. destruct a; cbn in *; auto.
  destruct (Ha st) as (Hactive & Hstart & _).
  unfold consistent in *. rewrite <- Hactive, <- Hstart. exact Hst.
Qed.

Lemma consistent_initial : consistent initial_state.
Proof. split; [intros [t Ht] | intros Ht]; discriminate Ht. Qed.

Lemma consistent_on_start now1 minutes stem st :
  consistent (update_on_start now1 minutes stem st).
Proof. split; intros _; cbn; eauto. Qed.

Lemma consistent_on_stop st : consistent (update_on_stop st).
Proof. split; [intros [t Ht] | intros Ht]; discriminate Ht. Qed.

(** Finishes a walk: a collaborator, or a single call. *)
Ltac collaborator lemma :=
  eapply every_call_weaken; [exact lemma | solve [auto with calls]].

Ltac keep :=
  lazymatch goal with
  | |- every_call keeps_consistent _ => collaborator outside_keeps_consistent
  | |- keeps_consistent (WriteState (update_on_start _ _ _)) =>
      intros ? _; apply consistent_on_start
  | |- keeps_consistent (WriteState update_on_stop) =>
      intros ? _; apply consistent_on_stop
  | |- keeps_consistent (WriteState _) =>
      apply off_lifecycle_keeps_consistent; intros ?; repeat split
  | |- keeps_consistent _ => intros ? Hst; exact Hst
  end.

Section Handlers.

Variable cfg : Config.
Variable prompts : gmap string string.

Lemma pipeline_keeps_consistent filename ctx :
  every_call keeps_consistent (process_recording_pipeline cfg prompts filename ctx).
Proof. unfold process_recording_pipeline. walk; keep. Qed.

Lemma stop_keeps_consistent ctx :
  every_call keeps_consistent (handle_record_stop cfg prompts ctx).
Proof. unfold handle_record_stop. walk; keep. Qed.

Lemma start_keeps_consistent ctx minutes :
  every_call keeps_consistent (handle_record_start cfg prompts ctx minutes).
Proof.
  unfold handle_record_start. walk;
    lazymatch goal with
    | |- every_call _ (handle_record_stop _ _ _) => apply stop_keeps_consistent
    | _ => keep
    end.
Qed.

Lemma status_keeps_consistent ctx :
  every_call keeps_consistent (handle_record_status ctx).
Proof. unfold handle_record_status. walk; keep. Qed.

Lemma manual_upload_keeps_consistent ctx :
  every_call keeps_consistent (handle_manual_upload cfg ctx).
Proof. unfold handle_manual_upload. walk; keep. Qed.

Lemma health_check_keeps_consistent :
  every_call keeps_consistent (health_check_task cfg).
Proof. unfold health_check_task. walk; keep. Qed.

Lemma arrival_keeps_consistent c :
  every_call keeps_consistent (arrival_body cfg prompts c).
Proof.
  destruct c as [ctx subcommand minutes |]; cbn [arrival_body].
  - unfold record_command. walk;
      lazymatch goal with
      | |- every_call _ (handle_record_start _ _ _ _) => apply start_keeps_consistent
      | |- every_call _ (handle_record_stop _ _ _) => apply stop_keeps_consistent
      | |- every_call _ (handle_record_status _) => apply status_keeps_consistent
      | |- every_call _ (handle_manual_upload _ _) => apply manual_upload_keeps_consistent
      | _ => keep
      end.
  - apply health_check_keeps_consistent.
Qed.

Lemma loop_invariant_step s e :
  loop_invariant s -> loop_invariant (sys_step cfg prompts s e).
Proof.
  intros [Hst Htasks]. destruct e as [c | i answer]; cbn [sys_step].
  - split; [exact Hst |].
    apply Forall_app. split; [exact Htasks |].
    constructor; [apply arrival_keeps_consistent | constructor].
  - destruct (sys_tasks s !! i) as [[a | e | a k] |] eqn:Hi; try (split; assumption).
    pose proof (proj1 (Forall_lookup _ _) Htasks i _ Hi) as [Ha Hk].
    split; cbn [sys_session sys_tasks].
    + apply Ha, Hst.
    + apply Forall_app. split.
      * apply Forall_insert; [exact Htasks | apply Hk].
      * destruct a; cbn [spawned]; try constructor; [| constructor].
        destruct t. apply pipeline_keeps_consistent.
Qed.

Lemma loop_invariant_run schedule s :
  loop_invariant s -> loop_invariant (fold_left (sys_step cfg prompts) schedule s).
Proof.
  revert s. induction schedule as [| e schedule IH]; intros s Hs; cbn.
  - exact Hs.
  - apply IH, loop_invariant_step, Hs.
Qed.

End Handlers.

(** C4. [start_time] is set if and only if [active] is true, in every state
    the event loop can reach: it holds of the initial record, and whatever
    commands arrive and however the start, stop, status and upload handlers,
    the automatic stop, the health check and the pipelines in flight
    interleave, every call any of them makes keeps it. *)
Theorem start_time_iff_active :
  forall (cfg : Config) (prompts : gmap string string) (schedule : list sched),
    let st := sys_session (sys_run cfg prompts schedule) in
    is_Some (start_time st) <-> active st = true.
Proof.
  intros cfg prompts schedule st. subst st. unfold sys_run.
  apply (loop_invariant_run cfg prompts schedule sys_init).
  split; [apply consistent_initial | constructor].
Qed.

(** C2, as the code has it. In every state the event loop can reach with a
    session active, a stop that the recorder confirms leaves [active] false,
    [start_time] cleared, [duration_minutes] 0 and [recording_filename]
    cleared, and hands the file name it read to a pipeline task. The fields
    the pipeline fills ([transcript_path], [github_commit_url],
    [youtube_upload_id]) and [participants] are as they were before the
    stop. *)
Theorem stop_resets_lifecycle_fields :
  forall (cfg : Config) (prompts : gmap string string) (schedule : list sched)
         (ctx : context) (o : oracle) (n : nat),
    let st := sys_session (sys_run cfg prompts schedule) in
    let w := {| session := st; ticks := n |} in
    active st = true ->
    value (run (stop_recording cfg) o (after ReadState w)) = Returned true ->
    let r := run (handle_record_stop cfg prompts ctx) o w in
    value r = Returned tt
    /\ active (session (final r)) = false
    /\ start_time (session (final r)) = None
    /\ duration_minutes (session (final r)) = 0
    /\ recording_filename (session (final r)) = None
    /\ same_postprocessing st (session (final r))
    /\ participants (session (final r)) = participants st
    /\ In (CreateTask (RecordingPipeline (recording_filename st) ctx))
          (calls (events r)).
Proof.
  intros cfg prompts schedule ctx o n st w Hactive Hstop.
  assert (Hconsistent : consistent st).
  { apply (loop_invariant_run cfg prompts schedule sys_init).
    split; [apply consistent_initial | constructor]. }
  destruct (proj2 Hconsistent Hactive) as [started_at Hstart].
  exact (stop_transition cfg prompts ctx o w started_at Hactive Hstart Hstop).
Qed.

Lemma stop_resets_lifecycle_fields_witness :
  active (session (final (run (handle_record_stop Scenario.studio default_prompts
                                 Scenario.general)
                            Scenario.all_up Scenario.busy))) = false.
Proof.
  apply (stop_resets_lifecycle_fields Scenario.studio default_prompts
           Scenario.one_session Scenario.general Scenario.all_up 0);
    vm_compute; reflexivity.
Defined.

(** C2, as stated, fails. A first session is started and stopped; a second
    session is started while the pipeline of the first is still running, and
    that pipeline then records its transcript path and upload identifier.
    The second session is stopped, the recorder confirms: [active] is false,
    and [transcript_path] and [youtube_upload_id] are still set. *)
Lemma stop_keeps_postprocessing_fields :
  let st := sys_session (sys_run Scenario.studio default_prompts Scenario.overlapping) in
  let w := {| session := st; ticks := 0 |} in
  let r := run (handle_record_stop Scenario.studio default_prompts Scenario.general)
             Scenario.all_up w in
  active st = true
  /\ value (run (stop_recording Scenario.studio) Scenario.all_up (after ReadState w))
     = Returned true
  /\ value r = Returned tt
  /\ active (session (final r)) = false
  /\ transcript_path (session (final r)) <> None
  /\ youtube_upload_id (session (final r)) <> None.
Proof. vm_compute. repeat split; discriminate. Qed.

(** ** What the pipeline does to the session record *)

Lemma outside_is_off_lifecycle a : outside_call a -> off_lifecycle a.
Proof. destruct a; cbn; tauto. Qed.

Lemma pipeline_off_lifecycle cfg prompts filename ctx :
  every_call off_lifecycle (process_recording_pipeline cfg prompts filename ctx).
Proof.
  unfold process_recording_pipeline. walk;
    lazymatch goal with
    | |- every_call _ _ => collaborator outside_is_off_lifecycle
    | |- off_lifecycle (WriteState _) => intros st; repeat split
    | |- off_lifecycle _ => exact I
    end.
Qed.

Lemma same_lifecycle_refl st : same_lifecycle st st.
Proof. repeat split. Qed.

Lemma off_lifecycle_effect a :
  off_lifecycle a -> forall st, same_lifecycle st (effect a st).
Proof. intros Ha st. destruct a; cbn in *; auto using same_lifecycle_refl. Qed.

Lemma same_lifecycle_trans a b c :
  same_lifecycle a b -> same_lifecycle b c -> same_lifecycle a c.
Proof.
  intros (H1 & H2 & H3 & H4 & H5) (K1 & K2 & K3 & K4 & K5).
  repeat split; congruence.
Qed.

(** C1, as the code has it. The pipeline never reads the session record, and
    every call it makes leaves [active], [start_time], [duration_minutes],
    [recording_filename] and [participants] as they are; so they are the
    same before and after every step, and at the end of the run. Its writes
    go to [transcript_path], [github_commit_url] and [youtube_upload_id]. *)
Theorem pipeline_keeps_lifecycle_fields :
  forall (cfg : Config) (prompts : gmap string string) (filename : option string)
         (ctx : context) (o : oracle) (w : world),
    let r := run (process_recording_pipeline cfg prompts filename ctx) o w in
    existsb is_read (events r) = false
    /\ Forall (fun e => forall st, same_lifecycle st (effect (ev_action e) st)) (events r)
    /\ same_lifecycle (session w) (session (final r)).
Proof.
  intros cfg prompts filename ctx o w r. subst r.
  pose proof (pipeline_off_lifecycle cfg prompts filename ctx) as Hp.
  pose proof (every_call_events _ _ o w Hp) as Hev.
  pose proof off_lifecycle_effect as Hstep.
  split; [| split].
  - apply not_true_is_false. intros Hex. apply existsb_exists in Hex.
    destruct Hex as [e [Hin He]].
    rewrite Forall_forall in Hev. rewrite <- list_elem_of_In in Hin.
    specialize (Hev e Hin). unfold is_read in He.
    destruct (ev_action e); try discriminate He. exact Hev.
  - eapply Forall_impl; [exact Hev |]. intros e He. apply Hstep, He.
  - apply (every_call_session same_lifecycle);
      [exact same_lifecycle_refl | exact same_lifecycle_trans |].
    eapply every_call_weaken; [exact Hstep | exact Hp].
Qed.

(** C1, as stated, fails: the pipeline writes the session record. From the
    idle record, with the recording found and YouTube configured, the run
    makes writes and ends with [transcript_path] and [youtube_upload_id]
    set. *)
Lemma pipeline_writes_session_record :
  let r := run (process_recording_pipeline Scenario.studio default_prompts
                  (Some "2024-01-01_00-00-00") Scenario.general)
             Scenario.all_up Scenario.idle in
  existsb is_write (events r) = true
  /\ session (final r) <> session Scenario.idle
  /\ transcript_path (session (final r))
     = Some "/opt/virtualstudio/transcripts/2024-01-01_00-00-00.txt"
  /\ youtube_upload_id (session (final r)) = Some "upload_20240101_000000".
Proof. vm_compute. repeat split. discriminate. Qed.

(** ** No cloud storage configured *)

Lemma outside_is_not_cloud_notice a : outside_call a -> not_cloud_notice a.
Proof. destruct a; cbn; tauto. Qed.

(** C8. With neither an S3 bucket nor an rclone remote configured (unset or
    empty), [upload_to_s3] and [upload_to_rclone] return [False] at once:
    they raise nothing and make no call. No run of the pipeline then sends
    the cloud-upload notice. *)
Theorem no_cloud_storage_configured :
  forall (cfg : Config) (prompts : gmap string string) (filename : option string)
         (ctx : context) (file : string) (o : oracle) (w : world),
    truthy (s3_bucket cfg) = false ->
    truthy (rclone_remote cfg) = false ->
    upload_to_s3 cfg file = Ret false
    /\ upload_to_rclone cfg file = Ret false
    /\ run (upload_to_s3 cfg file) o w
       = {| value := Returned false; final := w; events := [] |}
    /\ run (upload_to_rclone cfg file) o w
       = {| value := Returned false; final := w; events := [] |}
    /\ existsb (is_send NCloudUpload)
         (events (run (process_recording_pipeline cfg prompts filename ctx) o w)) = false.
Proof.
  intros cfg prompts filename ctx file o w Hs3 Hrclone.
  assert (Ha : upload_to_s3 cfg file = Ret false)
    by (unfold upload_to_s3; rewrite Hs3; reflexivity).
  assert (Hb : upload_to_rclone cfg file = Ret false)
    by (unfold upload_to_rclone; rewrite Hrclone; reflexivity).
  rewrite Ha, Hb.
  split; [reflexivity |]. split; [reflexivity |].
  split; [reflexivity |]. split; [reflexivity |].
  assert (Hp : every_call not_cloud_notice
                 (process_recording_pipeline cfg prompts filename ctx)).
  { unfold process_recording_pipeline, upload_to_s3, upload_to_rclone.
    rewrite Hs3, Hrclone. cbn [negb].
    walk;
      lazymatch goal with
      | |- every_call _ _ => collaborator outside_is_not_cloud_notice
      | |- not_cloud_notice _ => exact I
      end. }
  pose proof (every_call_events _ _ o w Hp) as Hev.
  apply not_true_is_false. intros Hex. apply existsb_exists in Hex.
  destruct Hex as [e [Hin He]].
  rewrite Forall_forall in Hev. rewrite <- list_elem_of_In in Hin.
  specialize (Hev e Hin). unfold is_send in He.
  destruct (ev_action e) as [| | n text | | | | | | | | | | | | | |];
    try discriminate He.
  destruct n; try discriminate He. exact Hev.
Qed.

Lemma no_cloud_storage_configured_witness :
  existsb (is_send NCloudUpload)
    (events (run (process_recording_pipeline Scenario.studio default_prompts
                    (Some "2024-01-01_00-00-00") Scenario.general)
               Scenario.all_up Scenario.idle)) = false.
Proof.
  apply (no_cloud_storage_configured Scenario.studio default_prompts
           (Some "2024-01-01_00-00-00") Scenario.general Scenario.recording
           Scenario.all_up Scenario.idle); reflexivity.
Defined.

(** ** Independence of the pipeline steps *)

Lemma ensures_every_call {A} (P : action -> Prop) (p : prog A) (o : oracle) (w : world) :
  every_call P p ->
  ensures p o w (fun _ _ l => Forall (fun e => P (ev_action e)) l).
Proof. intros Hp. apply every_call_events, Hp. Qed.

(** A run of calls to the outside by a coroutine that raises nothing. *)
Lemma outside_run_returns {A} (p : prog A) (o : oracle) (w : world) :
  every_call outside_call p ->
  never_raises p ->
  ensures p o w
    (fun v w' l =>
       (exists a, v = Returned a)
       /\ session w' = session w
       /\ Forall (fun e => outside_call (ev_action e)) l).
Proof.
  intros Hp Hr. unfold ensures.
  split; [apply never_raises_returns, Hr |].
  split; [apply outside_calls_keep_session, Hp | apply every_call_events, Hp].
Qed.

Lemma upload_to_s3_never_raises cfg file : never_raises (upload_to_s3 cfg file).
Proof.
  unfold upload_to_s3. destruct (negb _); [exact I |].
  apply never_raises_try. intros e. destruct e; cbn; intros; exact I.
Qed.

Lemma upload_to_rclone_never_raises cfg file : never_raises (upload_to_rclone cfg file).
Proof.
  unfold upload_to_rclone. destruct (negb _); [exact I |].
  apply never_raises_try. intros e. cbn. intros; exact I.
Qed.

Lemma path_join_truthy dir name : truthy (Some (path_join dir name)) = true.
Proof. unfold path_join. destruct dir; reflexivity. Qed.

(** [generate_transcript] returns, leaves the session record alone, and gives
    [None] exactly when the write of the transcript file raised. *)
Lemma generate_transcript_result cfg file (o : oracle) (w : world) :
  ensures (generate_transcript cfg file) o w
    (fun v w' l =>
       exists transcript,
         v = Returned transcript
         /\ session w' = session w
         /\ existsb artifact_found l = false
         /\ existsb transcript_failed l = negb (truthy transcript)
         /\ existsb (is_send NProcessingComplete) l = false).
Proof.
  unfold generate_transcript. steps.
  match goal with
  | |- context [o ?n (WriteFile ?path ?content)] =>
      destruct (o n (WriteFile path content)) as [[] | e] eqn:Hw
  end; steps.
  - eexists. repeat split. rewrite path_join_truthy. reflexivity.
  - eexists. repeat split.
Qed.

(** With its three credentials set, [upload_video] returns an identifier:
    [upload_] and the time it read from the clock, which it also logs. *)
Lemma upload_video_result cfg file title description (o : oracle) (w : world) :
  youtube_configured cfg = true ->
  ensures (upload_video cfg file title description) o w
    (fun v w' l =>
       exists now u,
         v = Returned (Some ("upload_" +:+ strftime "%Y%m%d_%H%M%S" now))
         /\ value (run (upload_video cfg file title description) o w) = v
         /\ In (Ev Now now) l
         /\ In (Ev (Log INFO ("Video upload simulated: "
                               +:+ ("upload_" +:+ strftime "%Y%m%d_%H%M%S" now))) u) l
         /\ truthy (Some ("upload_" +:+ strftime "%Y%m%d_%H%M%S" now)) = true
         /\ session w' = session w
         /\ Forall (fun e => outside_call (ev_action e)) l).
Proof.
  intros Hcfg. unfold ensures.
  set (r := run (upload_video cfg file title description) o w).
  assert (Hr : ensures (upload_video cfg file title description) o w
                 (fun v w' l =>
                    exists now u,
                      v = Returned (Some ("upload_" +:+ strftime "%Y%m%d_%H%M%S" now))
                      /\ In (Ev Now now) l
                      /\ In (Ev (Log INFO
                                   ("Video upload simulated: "
                                    +:+ ("upload_" +:+ strftime "%Y%m%d_%H%M%S" now))) u) l
                      /\ truthy (Some ("upload_" +:+ strftime "%Y%m%d_%H%M%S" now)) = true
                      /\ session w' = session w
                      /\ Forall (fun e => outside_call (ev_action e)) l)).
  { unfold upload_video. unfold youtube_configured in Hcfg.
    rewrite Hcfg. steps.
    do 2 eexists. split; [reflexivity |].
    split; [right; left; reflexivity |].
    split; [right; right; left; reflexivity |].
    split; [reflexivity |]. split; [reflexivity |].
    repeat constructor. }
  unfold ensures in Hr. fold r in Hr.
  destruct Hr as (now & u & Hv & Hnow & Hlog & Hid & Hs & Hl).
  exists now, u. repeat split; assumption.
Qed.

Lemma remote_is_not_file_write a : remote_call a -> not_file_write a.
Proof. destruct a; cbn; tauto. Qed.

Lemma no_file_write_no_failure (l : list event) :
  Forall (fun e => not_file_write (ev_action e)) l ->
  existsb transcript_failed l = false.
Proof.
  intros Hl. induction Hl as [| e l He Hl IH]; [reflexivity |].
  cbn [existsb]. rewrite IH, orb_false_r.
  destruct e as [a r]. destruct a; cbn in *; try reflexivity. destruct He.
Qed.

Lemma outside_no_complete (l : list event) :
  Forall (fun e => outside_call (ev_action e)) l ->
  existsb (is_send NProcessingComplete) l = false.
Proof. apply outside_calls_not. intros e. apply outside_not_send. Qed.

(** Looks an event up in a list built of known events and of the events of
    sub-runs. *)
Ltac find_event :=
  repeat lazymatch goal with
    | |- In _ (_ ++ _) => apply in_or_app; right
    | |- In _ (_ :: _) => first [left; reflexivity | right]
    end.

Ltac has_complete :=
  lazymatch goal with
  | |- existsb _ ?l = true =>
      lazymatch l with
      | context [Ev (Send NProcessingComplete ?text) ?r] =>
          apply existsb_exists; exists (Ev (Send NProcessingComplete text) r);
          split; [find_event | reflexivity]
      end
  end.

(** Takes the facts of a sub-run: its world has the session record of the
    world it started from. *)
Ltac absorb w H :=
  destruct w as [? ?]; cbn [session after effect] in H; subst.

(** Looks an event up in a list built of known events and of the events of
    sub-runs, one of which is known to hold it. *)
Ltac find_given H :=
  solve [ exact H
        | left; reflexivity
        | right; find_given H
        | apply in_or_app; left; find_given H
        | apply in_or_app; right; find_given H ].

(** Gives the identifier that [upload_video] returned, and where the run
    shows it. *)
Ltac upload_recorded now u recording_file others Hv Hnow Hlog Hid :=
  exists ("upload_" +:+ strftime "%Y%m%d_%H%M%S" now), now, recording_file, others;
  eexists;
  split; [right; left; reflexivity |];
  split; [exact Hv |];
  split; [reflexivity |];
  split; [find_given Hnow |];
  split; [lazymatch type of Hlog with
          | In ?ev _ =>
              apply in_map_iff; exists ev; split; [reflexivity | find_given Hlog]
          end |];
  split; [exact Hid |];
  split; [reflexivity |].




(** ** The start message and the automatic stop *)

Section Pauses.

Context {A : Type}.
Variable o : oracle.

Lemma logged_prepend (e : event) (l : list event) (p : paused A) :
  logged e (prepend l p) = prepend (e :: l) p.
Proof. destruct p; reflexivity. Qed.

Lemma prepend_nil (p : paused A) : prepend [] p = p.
Proof. destruct p; reflexivity. Qed.

Lemma run_to_sleep_bind {B} (p : prog B) (f : B -> prog A) w :
  run_to_sleep (bind p f) o w =
  match run_to_sleep p o w with
  | Finished (Returned b) w1 l1 => prepend l1 (run_to_sleep (f b) o w1)
  | Finished (Failed e) w1 l1 => Finished (Failed e) w1 l1
  | Asleep secs rest w1 l1 => Asleep secs (bind rest f) w1 l1
  end.
Proof.
  revert w. induction p as [b | e | a k IH]; intros w; cbn.
  - rewrite prepend_nil. reflexivity.
  - reflexivity.
  - destruct (sleep_of a); [reflexivity |].
    rewrite IH. destruct (run_to_sleep (k _) o _) as [[b | e] w1 l1 | secs rest w1 l1];
      cbn; [apply logged_prepend | reflexivity | reflexivity].
Qed.

Lemma run_to_sleep_try (p : prog A) (h : exn -> prog A) w :
  run_to_sleep (try_except p h) o w =
  match run_to_sleep p o w with
  | Finished (Returned a) w1 l1 => Finished (Returned a) w1 l1
  | Finished (Failed e) w1 l1 => prepend l1 (run_to_sleep (h e) o w1)
  | Asleep secs rest w1 l1 => Asleep secs (try_except rest h) w1 l1
  end.
Proof.
  revert w. induction p as [a | e | a k IH]; intros w; cbn.
  - reflexivity.
  - rewrite prepend_nil. reflexivity.
  - destruct (sleep_of a); [reflexivity |].
    rewrite IH. destruct (run_to_sleep (k _) o _) as [[b | e] w1 l1 | secs rest w1 l1];
      cbn; [reflexivity | apply logged_prepend | reflexivity].
Qed.

(** A coroutine that does not sleep runs to its end. *)
Lemma run_to_sleep_awake (p : prog A) w :
  every_call (fun a => sleep_of a = None) p ->
  run_to_sleep p o w
  = Finished (value (run p o w)) (final (run p o w)) (events (run p o w)).
Proof.
  revert w. induction p as [a | e | a k IH]; intros w Hp; cbn.
  - reflexivity.
  - reflexivity.
  - destruct Hp as [Ha Hk]. rewrite Ha, IH by apply Hk. reflexivity.
Qed.

Lemma pauses_bind {B} (p : prog B) (f : B -> prog A) w (Q : paused A -> Prop) :
  pauses p o w
    (fun res =>
       match res with
       | Finished (Returned b) w1 l1 =>
           pauses (f b) o w1 (fun res2 => Q (prepend l1 res2))
       | Finished (Failed e) w1 l1 => Q (Finished (Failed e) w1 l1)
       | Asleep secs rest w1 l1 => Q (Asleep secs (bind rest f) w1 l1)
       end) ->
  pauses (bind p f) o w Q.
Proof.
  unfold pauses. rewrite run_to_sleep_bind.
  destruct (run_to_sleep p o w) as [[b | e] w1 l1 | secs rest w1 l1]; auto.
Qed.

Lemma pauses_try (p : prog A) (h : exn -> prog A) w (Q : paused A -> Prop) :
  pauses p o w
    (fun res =>
       match res with
       | Finished (Returned a) w1 l1 => Q (Finished (Returned a) w1 l1)
       | Finished (Failed e) w1 l1 =>
           pauses (h e) o w1 (fun res2 => Q (prepend l1 res2))
       | Asleep secs rest w1 l1 => Q (Asleep secs (try_except rest h) w1 l1)
       end) ->
  pauses (try_except p h) o w Q.
Proof.
  unfold pauses. rewrite run_to_sleep_try.
  destruct (run_to_sleep p o w) as [[a | e] w1 l1 | secs rest w1 l1]; auto.
Qed.

Lemma pauses_ret (a : A) w (Q : paused A -> Prop) :
  Q (Finished (Returned a) w []) -> pauses (Ret a) o w Q.
Proof. intros H. exact H. Qed.

Lemma pauses_lift (r : outcome A) w (Q : paused A -> Prop) :
  Q (Finished r w []) -> pauses (lift r) o w Q.
Proof. intros H. destruct r; exact H. Qed.

Lemma pauses_awake (p : prog A) w (Q : paused A -> Prop) :
  every_call (fun a => sleep_of a = None) p ->
  Q (Finished (value (run p o w)) (final (run p o w)) (events (run p o w))) ->
  pauses p o w Q.
Proof. intros Hp H. unfold pauses. rewrite run_to_sleep_awake by exact Hp. exact H. Qed.

End Pauses.

Lemma pauses_call (o : oracle) (a : action) w (Q : paused (resp a) -> Prop) :
  Q (match sleep_of a with
     | Some secs =>
         Asleep secs (Ret (reply (o (ticks w)) (session w) a)) (after a w)
           [Ev a (reply (o (ticks w)) (session w) a)]
     | None =>
         Finished (Returned (reply (o (ticks w)) (session w) a)) (after a w)
           [Ev a (reply (o (ticks w)) (session w) a)]
     end) ->
  pauses (call a) o w Q.
Proof. unfold pauses. cbn. destruct (sleep_of a); auto. Qed.

Ltac pstep :=
  lazymatch goal with
  | |- pauses (bind _ _) _ _ _ => apply pauses_bind
  | |- pauses (try_except _ _) _ _ _ => apply pauses_try
  | |- @pauses _ (@call ?a) ?o ?w ?Q => refine (pauses_call o a w Q _)
  | |- pauses (lift _) _ _ _ => apply pauses_lift
  | |- pauses (Ret _) _ _ _ => apply pauses_ret
  | |- pauses (if _ then _ else _) _ _ _ => progress cbn [negb]
  end;
  cbn beta iota;
  cbn [reply after effect session ticks app negb sleep_of prepend].

Ltac psteps := repeat pstep.

Lemma outside_is_awake a : outside_call a -> sleep_of a = None.
Proof. destruct a; cbn; tauto. Qed.

Lemma stop_never_raises cfg prompts ctx :
  never_raises (handle_record_stop cfg prompts ctx).
Proof.
  unfold handle_record_stop. apply never_raises_bind; [apply never_raises_call |].
  intros st. destruct (negb (active st)); [apply never_raises_call |].
  apply never_raises_try. intros e. cbn. intros; exact I.
Qed.

Lemma outside_no_sends (l : list event) :
  Forall (fun e => outside_call (ev_action e)) l -> List.filter is_any_send l = [].
Proof.
  intros Hl. induction Hl as [| e l He Hl IH]; [reflexivity |].
  cbn [List.filter]. rewrite IH.
  unfold is_any_send. destruct (ev_action e); cbn in *; try reflexivity; destruct He.
Qed.

Lemma append_empty_r (s : string) : s +:+ "" = s.
Proof.
  induction s as [| c s IH]; [reflexivity |].
  change (String c (s +:+ "") = String c s). rewrite IH. reflexivity.
Qed.

(** The sends of a run that goes through a collaborator and then makes the
    calls of [l']. *)
Lemma sends_through_collaborator (e : event) (l l' : list event) :
  is_any_send e = false ->
  Forall (fun e => outside_call (ev_action e)) l ->
  List.filter is_any_send (e :: l ++ l') = List.filter is_any_send l'.
Proof.
  intros He Hl. cbn [List.filter]. rewrite He, List.filter_app, outside_no_sends by exact Hl.
  reflexivity.
Qed.

(** States the goal, which speaks of the run of [p] up to its first sleep,
    with [pauses]. *)
Ltac by_pause p o w :=
  pattern (run_to_sleep p o w);
  lazymatch goal with
  | |- ?Q _ => change (pauses p o w Q)
  end.

(** C7, as the code has it. From an idle session, when the recorder confirms the start and the
    start template formats to [start_msg]:
    with [minutes = 0] the handler sends [start_msg] alone, with no duration
    after it, and returns without sleeping: no automatic stop is scheduled;
    with [minutes = 5] it sends [start_msg] followed by " for 5 minutes" and
    sleeps for 300 seconds; when it is woken, in whatever state the session
    record is by then, it sends the time-limit notice and runs the stop
    handler if [active] is true, and does neither if [active] is false. *)
Theorem start_message_and_timer :
  forall (cfg : Config) (prompts : gmap string string) (ctx : context)
         (o : oracle) (w : world) (start_msg : string),
    active (session w) = false ->
    value (run (start_recording cfg) o (after ReadState w)) = Returned true ->
    format (dict_get prompts "recording_start" "Recording started")
      "channel_name" (channel_name ctx) = Returned start_msg ->
    match run_to_sleep (handle_record_start cfg prompts ctx 0) o w with
    | Finished v w' l =>
        v = Returned tt
        /\ calls (List.filter is_any_send l) = [Send NRecordingStarted start_msg]
    | Asleep _ _ _ _ => False
    end
    /\
    match run_to_sleep (handle_record_start cfg prompts ctx 5) o w with
    | Finished _ _ _ => False
    | Asleep secs rest w' l =>
        secs = 300
        /\ calls (List.filter is_any_send l)
           = [Send NRecordingStarted (start_msg +:+ " for 5 minutes")]
        /\ forall (o' : oracle) (woken : world),
             let r := run rest o' woken in
             let notice := Send NTimeLimit "‚è∞ Recording time limit reached. Stopping..." in
             let epilogue :=
               Log INFO ("Enhanced recording started by " +:+ author_display_name ctx) in
             value r = Returned tt
             /\ calls (events r)
                = if active (session woken)
                  then
                    (ReadState :: notice
                     :: calls (events (run (handle_record_stop cfg prompts ctx) o'
                                         (after notice (after ReadState woken))))
                     ++ [epilogue])%list
                  else [ReadState; epilogue]
    end.
Proof.
  intros cfg prompts ctx o w start_msg Hidle Hstart Hformat.
  destruct (outside_run _ o (after ReadState w) (start_recording_calls cfg))
    as (v & n & l & Hrun & Hl).
  rewrite Hrun in Hstart. cbn [value] in Hstart. subst v.
  assert (Hawake : every_call (fun a => sleep_of a = None) (start_recording cfg))
    by (eapply every_call_weaken; [exact outside_is_awake | apply start_recording_calls]).
  split.
  - by_pause (handle_record_start cfg prompts ctx 0) o w.
    unfold handle_record_start. rewrite Hformat.
    change (0 <? 0) with false.
    do 2 pstep. rewrite Hidle. do 2 pstep.
    apply pauses_awake; [exact Hawake |]. rewrite Hrun. cbn [value final events].
    psteps. split; [unit_answer |].
    rewrite sends_through_collaborator by (reflexivity || exact Hl).
    cbn. rewrite append_empty_r. reflexivity.
  - by_pause (handle_record_start cfg prompts ctx 5) o w.
    unfold handle_record_start. rewrite Hformat.
    change (0 <? 5) with true. change (5 * 60) with 300.
    do 2 pstep. rewrite Hidle. do 2 pstep.
    apply pauses_awake; [exact Hawake |]. rewrite Hrun. cbn [value final events].
    psteps. split; [reflexivity |]. split.
    { rewrite sends_through_collaborator by (reflexivity || exact Hl). reflexivity. }
    intros o' woken.
    match goal with
    | |- context [run ?rest o' woken] => by_run rest o' woken
    end.
    steps. destruct (active (session woken)).
    + steps. unfold ensures at 1.
      destruct (never_raises_returns (handle_record_stop cfg prompts ctx) o'
                  (after (Send NTimeLimit "‚è∞ Recording time limit reached. Stopping...") (after ReadState woken))
                  (stop_never_raises cfg prompts ctx)) as [[] Hreturns].
      cbn [after effect session ticks] in Hreturns |- *.
      rewrite Hreturns. steps.
      split; [unit_answer |].
      unfold calls. cbn [map ev_action]. rewrite map_app. reflexivity.
    + steps. split; [unit_answer | reflexivity].
Qed.

Lemma start_message_and_timer_witness :
  match run_to_sleep (handle_record_start Scenario.studio default_prompts
                        Scenario.general 5)
          Scenario.all_up Scenario.idle with
  | Finished _ _ _ => False
  | Asleep secs _ _ _ => secs = 300
  end.
Proof.
  pose proof (start_message_and_timer Scenario.studio default_prompts Scenario.general
                Scenario.all_up Scenario.idle _ eq_refl eq_refl eq_refl) as [_ H].
  destruct (run_to_sleep _ _ _) as [v w' l | secs rest w' l]; [exact H |].
  exact (proj1 H).
Defined.

(** C7, as stated, fails. The recorder confirms the start and the session
    record is active, but the configured start template names a placeholder
    the code does not supply: formatting raises after the record is
    written, and the handler at the top reports a failure. With 0 and with
    5 minutes alike, no success message is sent; and with 5 minutes the
    handler never sleeps, so that no automatic stop follows although the
    session stays active. *)
Lemma start_message_needs_template :
  let at_once := run (handle_record_start Scenario.studio Cases.start_prompts
                        Scenario.general 0)
                   Scenario.all_up Scenario.idle in
  let timed := run (handle_record_start Scenario.studio Cases.start_prompts
                      Scenario.general 5)
                 Scenario.all_up Scenario.idle in
  value (run (start_recording Scenario.studio) Scenario.all_up
           (after ReadState Scenario.idle)) = Returned true
  /\ format (dict_get Cases.start_prompts "recording_start" "Recording started")
       "channel_name" (channel_name Scenario.general)
     = Failed (KeyError "channel")
  /\ (active (session (final at_once)) = true
      /\ existsb (is_send NRecordingStarted) (events at_once) = false
      /\ existsb (sent NStartError ("‚ùå Failed to start recording: " +:+ "'channel'")) (events at_once) = true)
  /\ (active (session (final timed)) = true
      /\ existsb (is_send NRecordingStarted) (events timed) = false
      /\ existsb (sent NStartError ("‚ùå Failed to start recording: " +:+ "'channel'")) (events timed) = true
      /\ existsb is_sleep (events timed) = false
      /\ existsb (is_send NTimeLimit) (events timed) = false).
Proof. vm_compute. repeat split. Qed.

(** ** Rewriting the [.env] file *)

Import ConfigureBotName.

Lemma append_cons (c : ascii) (a b : string) :
  String c a +:+ b = String c (a +:+ b).
Proof. reflexivity. Qed.

Lemma append_empty_l (b : string) : "" +:+ b = b.
Proof. reflexivity. Qed.

Section SplitJoin.

Variable sep : ascii.

Let sep_str : string := String sep EmptyString.

Lemma split_nonempty (s : string) : split sep s <> [].
Proof.
  induction s as [| c r IH]; cbn [split]; [discriminate |].
  destruct (Ascii.eqb c sep); [discriminate |].
  destruct (split sep r); discriminate.
Qed.

Lemma concat_cons_char (c : ascii) (x : string) (xs : list string) :
  String.concat sep_str (String c x :: xs) = String c (String.concat sep_str (x :: xs)).
Proof. destruct xs; reflexivity. Qed.

(** Splitting a text and joining the pieces gives the text back. *)
Lemma join_split (s : string) : join sep_str (split sep s) = s.
Proof.
  unfold join. induction s as [| c r IH]; cbn [split]; [reflexivity |].
  destruct (Ascii.eqb_spec c sep) as [-> | Hc].
  - pose proof (split_nonempty r) as Hne.
    destruct (split sep r) as [| piece pieces]; [contradiction |].
    cbn [String.concat] in *. rewrite IH. reflexivity.
  - pose proof (split_nonempty r) as Hne.
    destruct (split sep r) as [| piece pieces]; [contradiction |].
    rewrite concat_cons_char, IH. reflexivity.
Qed.

Lemma split_no_sep (s : string) :
  any_char (Ascii.eqb sep) s = false -> split sep s = [s].
Proof.
  induction s as [| c r IH]; cbn [split any_char]; [reflexivity |].
  rewrite Ascii.eqb_sym. destruct (Ascii.eqb c sep); cbn [orb]; [discriminate |].
  intros Hr. rewrite IH by exact Hr. reflexivity.
Qed.

Lemma split_app_sep (x rest : string) :
  any_char (Ascii.eqb sep) x = false ->
  split sep (x +:+ String sep rest) = x :: split sep rest.
Proof.
  induction x as [| c r IH];
    rewrite ?append_cons, ?append_empty_l; cbn [split any_char].
  - intros _. rewrite Ascii.eqb_refl. reflexivity.
  - rewrite Ascii.eqb_sym. destruct (Ascii.eqb c sep); cbn [orb]; [discriminate |].
    intros Hr. rewrite IH by exact Hr. reflexivity.
Qed.

(** Joining pieces that hold no separator and splitting gives the pieces
    back. *)
Lemma split_join (pieces : list string) :
  pieces <> [] ->
  Forall (fun piece => any_char (Ascii.eqb sep) piece = false) pieces ->
  split sep (join sep_str pieces) = pieces.
Proof.
  unfold join. intros Hne Hall.
  induction Hall as [| x xs Hx Hxs IH]; [contradiction |].
  destruct xs as [| y ys].
  - cbn. apply split_no_sep, Hx.
  - change (String.concat sep_str (x :: y :: ys))
      with (x +:+ String sep (String.concat sep_str (y :: ys))).
    rewrite split_app_sep by exact Hx. rewrite IH by discriminate. reflexivity.
Qed.

Lemma split_pieces_no_sep (s : string) :
  Forall (fun piece => any_char (Ascii.eqb sep) piece = false) (split sep s).
Proof.
  induction s as [| c r IH]; cbn [split].
  - repeat constructor.
  - destruct (Ascii.eqb_spec c sep) as [-> | Hc].
    + constructor; [reflexivity | exact IH].
    + apply Ascii.eqb_neq in Hc.
      destruct (split sep r) as [| piece pieces].
      * repeat constructor. cbn [any_char].
        rewrite Ascii.eqb_sym, Hc. reflexivity.
      * inversion IH as [| ? ? Hpiece Hpieces]; subst.
        constructor; [| exact Hpieces].
        cbn [any_char]. rewrite Ascii.eqb_sym, Hc. exact Hpiece.
Qed.

End SplitJoin.

Lemma startswith_app (p s : string) : startswith (p +:+ s) p = true.
Proof.
  unfold startswith. induction p as [| c p IH].
  - destruct s; reflexivity.
  - rewrite append_cons. cbn [String.prefix].
    destruct (ascii_dec c c) as [_ | Hc]; [exact IH | contradiction].
Qed.

Lemma bot_name_line_is_key (name : string) : is_key_line (bot_name_line name).
Proof. apply startswith_app. Qed.

Lemma any_char_app (f : ascii -> bool) (a b : string) :
  any_char f (a +:+ b) = any_char f a || any_char f b.
Proof.
  induction a as [| c a IH]; [reflexivity |].
  rewrite append_cons. cbn [any_char]. rewrite IH, orb_assoc. reflexivity.
Qed.

Lemma bot_name_line_no_newline (name : string) :
  has_newline name = false -> has_newline (bot_name_line name) = false.
Proof.
  unfold has_newline, bot_name_line. intros Hname.
  rewrite !any_char_app, Hname. reflexivity.
Qed.

Lemma filter_insert_rejected {A} (f : A -> bool) (l : list A) (i : nat) (x y : A) :
  l !! i = Some x -> f x = false -> f y = false ->
  List.filter f (<[i := y]> l) = List.filter f l.
Proof.
  revert i. induction l as [| a l IH]; intros [| i] Hi Hx Hy; simpl in *;
    try discriminate.
  - injection Hi as ->. rewrite Hx, Hy. reflexivity.
  - rewrite (IH i Hi Hx Hy). reflexivity.
Qed.

Lemma other_lines_insert (lines : list string) (i : nat) (old new : string) :
  lines !! i = Some old -> is_key_line old -> is_key_line new ->
  other_lines (<[i := new]> lines) = other_lines lines.
Proof.
  unfold other_lines, is_key_line. intros Hi Hold Hnew.
  apply (filter_insert_rejected _ lines i old new Hi).
  - rewrite Hold. reflexivity.
  - rewrite Hnew. reflexivity.
Qed.

Lemma other_lines_insert_after (lines : list string) (i : nat) (new : string) :
  is_key_line new ->
  other_lines (take i lines ++ new :: drop i lines)%list = other_lines lines.
Proof.
  unfold other_lines, is_key_line. intros Hnew.
  rewrite List.filter_app. cbn [List.filter]. rewrite Hnew. cbn [negb].
  rewrite <- List.filter_app, take_drop. reflexivity.
Qed.

(** Without a carriage return there is nothing to translate on reading,
    and with [\n] as the line separator nothing on writing. *)
Lemma universal_newlines_id (s : string) :
  has_carriage_return s = false -> universal_newlines s = s.
Proof.
  unfold has_carriage_return.
  induction s as [| c r IH]; cbn [universal_newlines any_char]; [reflexivity |].
  rewrite Ascii.eqb_sym. destruct (Ascii.eqb c carriage_return); cbn [orb];
    [discriminate |].
  intros Hr. rewrite IH by exact Hr. reflexivity.
Qed.

Lemma write_newlines_nl (s : string) : write_newlines nl s = s.
Proof.
  induction s as [| c r IH]; cbn [write_newlines]; [reflexivity |].
  rewrite IH. destruct (Ascii.eqb_spec c newline) as [-> | _]; reflexivity.
Qed.




Example update_replaces_the_name_line :
  update_lines "StudioBot" (split newline Scenario.env_with_name)
  = ["# Discord Bot Configuration"; bot_name_line "StudioBot"; "OBS_PORT=4455"; ""].
Proof. vm_compute. reflexivity. Qed.

Example update_inserts_after_the_header :
  update_lines "StudioBot" (split newline Scenario.env_with_header)
  = ["OBS_PORT=4455"; "  # Discord Bot Configuration  "; bot_name_line "StudioBot";
     "S3_BUCKET="].
Proof. vm_compute. reflexivity. Qed.

Example update_without_name_or_header :
  updated_content "StudioBot" Scenario.env_plain = Scenario.env_plain.
Proof. vm_compute. reflexivity. Qed.

(* ================================================================= *)
(** * Further properties of the handlers *)

Import Vocabulary.

(** A run whose calls leave the session record alone leaves it as it was. *)
Lemma unwritten_session {A} (P : action -> Prop) (p : prog A) (o : oracle) (w : world) :
  (forall a, P a -> forall st, effect a st = st) ->
  every_call P p -> session (final (run p o w)) = session w.
Proof.
  intros HP Hp. symmetry.
  apply (every_call_session (fun a b => a = b)); [auto | intros; congruence |].
  eapply every_call_weaken; [| exact Hp].
  intros a Ha st. symmetry. apply HP, Ha.
Qed.

(** No call of [l] is one that [f] recognises. *)
Lemma none_of (P : action -> Prop) (f : event -> bool) (l : list event) :
  (forall e, P (ev_action e) -> f e = false) ->
  Forall (fun e => P (ev_action e)) l -> existsb f l = false.
Proof.
  intros Hf Hl. induction Hl as [| e l He Hl IH]; [reflexivity |].
  cbn. rewrite IH, (Hf e He). reflexivity.
Qed.

(** ** The status query *)

Lemma status_calls ctx : every_call status_call (handle_record_status ctx).
Proof. unfold handle_record_status. walk. Qed.

(** X1. The status handler only looks: in any state and whatever the clock
    answers, every call it makes is a read of the session record, a reading
    of the clock or a message to the channel, and the session record is
    left as it was, also when the handler raises. *)
Theorem status_only_reads :
  forall (ctx : context) (o : oracle) (w : world),
    let r := run (handle_record_status ctx) o w in
    session (final r) = session w
    /\ Forall (fun e => status_call (ev_action e)) (events r)
    /\ existsb is_write (events r) = false
    /\ existsb is_obs (events r) = false
    /\ existsb is_create_task (events r) = false.
Proof.
  intros ctx o w r. subst r.
  pose proof (every_call_events status_call _ o w (status_calls ctx)) as Hcalls.
  split; [| split; [exact Hcalls |]].
  - apply (unwritten_session status_call); [| apply status_calls].
    intros a Ha st. destruct a; cbn in *; auto; contradiction.
  - repeat split; apply (none_of status_call); try exact Hcalls;
      intros [a r] Ha; destruct a; cbn in *; auto; contradiction.
Qed.

(** X2. In every state the event loop can reach, the status handler returns
    and sends exactly one message: the idle notice when no session is
    active, the elapsed-time notice when one is. The subtraction
    [datetime.now() - recording_state['start_time']], which raises
    [TypeError] on [None] and is under no [try], is never reached with the
    start time unset. *)
Theorem status_replies_once :
  forall (cfg : Config) (prompts : gmap string string) (schedule : list sched)
         (ctx : context) (o : oracle) (n : nat),
    let st := sys_session (sys_run cfg prompts schedule) in
    let r := run (handle_record_status ctx) o {| session := st; ticks := n |} in
    value r = Returned tt
    /\ exists text,
         calls (List.filter is_any_send (events r))
         = [Send (if active st then NStatusActive else NStatusIdle) text].
Proof.
  intros cfg prompts schedule ctx o n st r. subst r.
  assert (Hst : consistent st).
  { apply (loop_invariant_run cfg prompts schedule sys_init).
    split; [apply consistent_initial | constructor]. }
  clearbody st.
  by_run (handle_record_status ctx) o {| session := st; ticks := n |}.
  unfold handle_record_status. do 2 step.
  destruct (active st) eqn:Hactive; steps.
  - destruct (proj2 Hst Hactive) as [t Ht]. rewrite Ht. cbn [datetime_sub_opt].
    steps. destruct (minutes_seconds _) as [minutes seconds]. steps.
    split; [unit_answer |]. eexists. reflexivity.
  - split; [unit_answer |]. eexists. reflexivity.
Qed.

(** ** Failure of the recorder at stop *)

(** X3. From an active session, when the call the stop handler makes to
    [obs_controller.stop_recording] returns [False], the handler sends the
    failure notice and returns: the session record is as before, still
    active, and no pipeline task is created. *)
Theorem stop_failure_leaves_session_active :
  forall (cfg : Config) (prompts : gmap string string) (ctx : context)
         (o : oracle) (w : world),
    active (session w) = true ->
    value (run (stop_recording cfg) o (after ReadState w)) = Returned false ->
    let r := run (handle_record_stop cfg prompts ctx) o w in
    value r = Returned tt
    /\ session (final r) = session w
    /\ existsb (sent NObsStopFailed "‚ùå Failed to stop OBS recording") (events r) = true
    /\ existsb is_write (events r) = false
    /\ existsb is_create_task (events r) = false.
Proof.
  intros cfg prompts ctx o w Hactive Hfail r. subst r.
  destruct (outside_run _ o (after ReadState w) (stop_recording_calls cfg))
    as (v & n & l & Hrun & Hl).
  rewrite Hrun in Hfail. cbn [value] in Hfail. subst v.
  by_run (handle_record_stop cfg prompts ctx) o w.
  unfold handle_record_stop. do 2 step. rewrite Hactive. do 3 step.
  unfold ensures at 1. rewrite Hrun. cbn [value final events]. steps.
  split; [unit_answer |]. split; [reflexivity |].
  cbn [existsb]. rewrite !existsb_app. cbn.
  split; [apply orb_true_r |].
  split; rewrite orb_false_r; apply (none_of outside_call); try exact Hl;
    intros [a r] Ha; destruct a; cbn in *; auto; contradiction.
Qed.

Lemma stop_failure_leaves_session_active_witness :
  session (final (run (handle_record_stop Scenario.studio default_prompts Scenario.general)
                    Scenario.obs_down Scenario.busy)) = Scenario.in_session.
Proof.
  apply (stop_failure_leaves_session_active Scenario.studio default_prompts
           Scenario.general Scenario.obs_down Scenario.busy); reflexivity.
Defined.

(** ** The start transition *)

(** Looks an event up anywhere in a list built of known events and of the
    events of sub-runs. *)
Ltac find_in :=
  solve [ left; reflexivity
        | right; find_in
        | apply in_or_app; left; find_in
        | apply in_or_app; right; find_in ].

(** From an idle session, when the recorder confirms the start, the handler
    has written the new session by the time it finishes or goes to sleep,
    with the two readings of the clock that follow the recorder's answer. *)
Lemma start_transition :
  forall (cfg : Config) (prompts : gmap string string) (ctx : context)
         (minutes : Z) (o : oracle) (w : world),
    active (session w) = false ->
    value (run (start_recording cfg) o (after ReadState w)) = Returned true ->
    let res := run_to_sleep (handle_record_start cfg prompts ctx minutes) o w in
    exists now1 now2,
      session (world_of res)
      = update_on_start now1 minutes (strftime "%Y-%m-%d_%H-%M-%S" now2) (session w)
      /\ In (Ev Now now1) (events_of res)
      /\ In (Ev Now now2) (events_of res).
Proof.
  intros cfg prompts ctx minutes o w Hidle Hstart res. subst res.
  destruct (outside_run _ o (after ReadState w) (start_recording_calls cfg))
    as (v & n & l & Hrun & Hl).
  rewrite Hrun in Hstart. cbn [value] in Hstart. subst v.
  assert (Hawake : every_call (fun a => sleep_of a = None) (start_recording cfg))
    by (eapply every_call_weaken; [exact outside_is_awake | apply start_recording_calls]).
  exists (o n Now), (o (S n) Now).
  by_pause (handle_record_start cfg prompts ctx minutes) o w.
  unfold handle_record_start.
  do 2 pstep. rewrite Hidle. do 2 pstep.
  apply pauses_awake; [exact Hawake |]. rewrite Hrun. cbn [value final events].
  do 8 pstep.
  destruct (format _ _ _) as [start_msg | e]; destruct (0 <? minutes); psteps;
    cbn [world_of events_of session];
    (split; [reflexivity |]); split; find_in.
Qed.

(** X4. From an idle session, when the recorder confirms the start, the
    handler has opened the session by the time it finishes or goes to sleep,
    whatever the minutes asked for and whether or not the start message
    could be formatted: [active] is true, the start time and the file name
    come from two readings of the clock, the duration is the minutes as
    given, and the three fields of the pipeline are cleared. *)
Theorem start_opens_session :
  forall (cfg : Config) (prompts : gmap string string) (ctx : context)
         (minutes : Z) (o : oracle) (w : world),
    active (session w) = false ->
    value (run (start_recording cfg) o (after ReadState w)) = Returned true ->
    let res := run_to_sleep (handle_record_start cfg prompts ctx minutes) o w in
    let st := session (world_of res) in
    active st = true
    /\ (exists now1, start_time st = Some now1 /\ In (Ev Now now1) (events_of res))
    /\ duration_minutes st = minutes
    /\ (exists now2,
          recording_filename st = Some (strftime "%Y-%m-%d_%H-%M-%S" now2)
          /\ In (Ev Now now2) (events_of res))
    /\ participants st = []
    /\ transcript_path st = None
    /\ github_commit_url st = None
    /\ youtube_upload_id st = None.
Proof.
  intros cfg prompts ctx minutes o w Hidle Hstart res st. subst st res.
  destruct (start_transition cfg prompts ctx minutes o w Hidle Hstart)
    as (now1 & now2 & Hst & Hnow1 & Hnow2).
  rewrite Hst. cbn [update_on_start active start_time duration_minutes
    recording_filename participants transcript_path github_commit_url
    youtube_upload_id].
  repeat split; eauto.
Qed.

Lemma start_opens_session_witness :
  active (session (world_of (run_to_sleep
                               (handle_record_start Scenario.studio default_prompts
                                  Scenario.general 5)
                               Scenario.all_up Scenario.idle))) = true.
Proof.
  exact (proj1 (start_opens_session Scenario.studio default_prompts Scenario.general 5
                  Scenario.all_up Scenario.idle eq_refl eq_refl)).
Defined.

(** X5. From an idle session, when the recorder confirms the start and the
    start template names a placeholder the code does not supply
    ([str.format] raises [KeyError] for it), the handler has already opened
    the session: it finishes without sleeping, even when minutes were asked
    for, the only message it sends is the notice that the start failed,
    with the name of the placeholder between quotes, and the session record
    says [active]. *)
Theorem start_template_error_leaves_session_active :
  forall (cfg : Config) (prompts : gmap string string) (ctx : context)
         (minutes : Z) (o : oracle) (w : world) (name : string),
    active (session w) = false ->
    value (run (start_recording cfg) o (after ReadState w)) = Returned true ->
    format (dict_get prompts "recording_start" "Recording started")
      "channel_name" (channel_name ctx) = Failed (KeyError name) ->
    plain_name name = true ->
    match run_to_sleep (handle_record_start cfg prompts ctx minutes) o w with
    | Finished v w' l =>
        v = Returned tt
        /\ active (session w') = true
        /\ calls (List.filter is_any_send l)
           = [Send NStartError ("‚ùå Failed to start recording: " +:+ "'" +:+ name +:+ "'")]
    | Asleep _ _ _ _ => False
    end.
Proof.
  intros cfg prompts ctx minutes o w name Hidle Hstart Hformat _.
  destruct (outside_run _ o (after ReadState w) (start_recording_calls cfg))
    as (v & n & l & Hrun & Hl).
  rewrite Hrun in Hstart. cbn [value] in Hstart. subst v.
  assert (Hawake : every_call (fun a => sleep_of a = None) (start_recording cfg))
    by (eapply every_call_weaken; [exact outside_is_awake | apply start_recording_calls]).
  by_pause (handle_record_start cfg prompts ctx minutes) o w.
  unfold handle_record_start. rewrite Hformat.
  do 2 pstep. rewrite Hidle. do 2 pstep.
  apply pauses_awake; [exact Hawake |]. rewrite Hrun. cbn [value final events].
  psteps. split; [unit_answer |]. split; [reflexivity |].
  cbn [List.filter is_any_send ev_action]. rewrite !List.filter_app.
  rewrite (outside_no_sends l Hl). reflexivity.
Qed.

Lemma start_template_error_leaves_session_active_witness :
  match run_to_sleep (handle_record_start Scenario.studio Cases.start_prompts
                        Scenario.general 5)
          Scenario.all_up Scenario.idle with
  | Finished v w' l => active (session w') = true
  | Asleep _ _ _ _ => False
  end.
Proof.
  pose proof (start_template_error_leaves_session_active Scenario.studio
                Cases.start_prompts Scenario.general 5 Scenario.all_up Scenario.idle
                "channel" eq_refl eq_refl eq_refl eq_refl) as H.
  destruct (run_to_sleep _ _ _) as [v w' l | secs rest w' l]; [| exact H].
  exact (proj1 (proj2 H)).
Defined.

(** ** From start to pipeline *)

(** The pipeline begins with its first notice and the search for the
    recording, by the name it was given. *)
Lemma pipeline_head cfg prompts filename ctx :
  exists text k,
    process_recording_pipeline cfg prompts filename ctx
    = Act (Send NProcessingStart text)
        (fun _ => Act (Glob (recordings_dir cfg) (str_opt filename +:+ ".mp4")) k).
Proof. do 2 eexists. reflexivity. Qed.

(** X6. The file name travels from start to pipeline. From an idle session,
    when the recorder confirms the start and, before any other write to the
    session record, a stop that the recorder confirms: the stop handler
    returns, the session is idle again, and the task it creates is the
    pipeline for the name the start handler made from the clock, which is
    the name, with [.mp4], that the pipeline searches the recordings
    directory for. *)
Theorem stop_processes_started_recording :
  forall (cfg : Config) (prompts : gmap string string) (ctx ctx' : context)
         (minutes : Z) (o o' : oracle) (w : world),
    active (session w) = false ->
    value (run (start_recording cfg) o (after ReadState w)) = Returned true ->
    let started := run_to_sleep (handle_record_start cfg prompts ctx minutes) o w in
    value (run (stop_recording cfg) o' (after ReadState (world_of started)))
    = Returned true ->
    let stopped := run (handle_record_stop cfg prompts ctx') o' (world_of started) in
    exists now,
      let stem := strftime "%Y-%m-%d_%H-%M-%S" now in
      In (Ev Now now) (events_of started)
      /\ value stopped = Returned tt
      /\ active (session (final stopped)) = false
      /\ In (CreateTask (RecordingPipeline (Some stem) ctx')) (calls (events stopped))
      /\ forall (o'' : oracle) (w'' : world),
           In (Glob (recordings_dir cfg) (stem +:+ ".mp4"))
              (calls (events (run (task_body cfg prompts
                                     (RecordingPipeline (Some stem) ctx')) o'' w''))).
Proof.
  intros cfg prompts ctx ctx' minutes o o' w Hidle Hstart started Hstop stopped.
  subst stopped.
  destruct (start_transition cfg prompts ctx minutes o w Hidle Hstart)
    as (now1 & now2 & Hst & _ & Hnow2).
  fold started in Hst, Hnow2. clearbody started.
  assert (Hactive : active (session (world_of started)) = true)
    by (rewrite Hst; reflexivity).
  assert (Htime : start_time (session (world_of started)) = Some now1)
    by (rewrite Hst; reflexivity).
  destruct (stop_transition cfg prompts ctx' o' (world_of started) now1
              Hactive Htime Hstop)
    as (Hvalue & Hidle' & _ & _ & _ & _ & _ & Htask).
  exists now2. cbn zeta.
  split; [exact Hnow2 |]. split; [exact Hvalue |]. split; [exact Hidle' |].
  split.
  - rewrite Hst in Htask. exact Htask.
  - intros o'' w''. cbn [task_body].
    destruct (pipeline_head cfg prompts (Some (strftime "%Y-%m-%d_%H-%M-%S" now2)) ctx')
      as (text & k & ->).
    cbn [run events calls map ev_action str_opt]. right. left. reflexivity.
Qed.

Lemma stop_processes_started_recording_witness :
  active (session (final (run (handle_record_stop Scenario.studio default_prompts
                                 Scenario.general)
                            Scenario.all_up
                            (world_of (run_to_sleep
                                         (handle_record_start Scenario.studio
                                            default_prompts Scenario.general 5)
                                         Scenario.all_up Scenario.idle))))) = false.
Proof.
  destruct (stop_processes_started_recording Scenario.studio default_prompts
              Scenario.general Scenario.general 5 Scenario.all_up Scenario.all_up
              Scenario.idle eq_refl eq_refl eq_refl)
    as (now & _ & _ & Hidle & _).
  exact Hidle.
Defined.

(** ** What the session record looks like between calls *)

Lemma lifecycle_initial : lifecycle_invariant initial_state.
Proof. split; [discriminate | split; [intros _; repeat split | reflexivity]]. Qed.

Lemma lifecycle_on_start now1 minutes stem st :
  lifecycle_invariant (update_on_start now1 minutes stem st).
Proof. split; [intros _; split; eexists; reflexivity | split; [discriminate | reflexivity]]. Qed.

Lemma lifecycle_on_stop st :
  lifecycle_invariant st -> lifecycle_invariant (update_on_stop st).
Proof.
  intros (_ & _ & Hnobody).
  split; [discriminate | split; [intros _; repeat split | exact Hnobody]].
Qed.

Lemma off_lifecycle_keeps a : off_lifecycle a -> keeps lifecycle_invariant a.
Proof.
  intros Ha st Hst. destruct a; cbn in *; auto.
  destruct (Ha st) as (Hactive & Hstart & Hminutes & Hname & Hnobody).
  unfold lifecycle_invariant in *.
  rewrite <- Hactive, <- Hstart, <- Hminutes, <- Hname, <- Hnobody. exact Hst.
Qed.

Lemma outside_keeps (I : recording_state -> Prop) a : outside_call a -> keeps I a.
Proof. intros Ha st Hst. destruct a; cbn in *; auto; contradiction. Qed.

Ltac keep_lifecycle :=
  lazymatch goal with
  | |- every_call (keeps _) _ =>
      eapply every_call_weaken; [exact (outside_keeps _) | solve [auto with calls]]
  | |- keeps _ (WriteState (update_on_start _ _ _)) =>
      intros ? _; apply lifecycle_on_start
  | |- keeps _ (WriteState update_on_stop) =>
      intros ? ?; apply lifecycle_on_stop; assumption
  | |- keeps _ (WriteState _) =>
      apply off_lifecycle_keeps; intros ?; repeat split
  | |- keeps _ _ => intros ? Hst; exact Hst
  end.

(** A property of the session record that holds at the start and that every
    call of every handler and task keeps holds in every state the event loop
    reaches. *)
Lemma reachable_keeps (I : recording_state -> Prop) cfg prompts :
  I initial_state ->
  (forall c, every_call (keeps I) (arrival_body cfg prompts c)) ->
  (forall t, every_call (keeps I) (task_body cfg prompts t)) ->
  forall schedule, I (sys_session (sys_run cfg prompts schedule)).
Proof.
  intros Hinit Harrive Htask schedule. unfold sys_run.
  assert (Hgen : forall s,
             I (sys_session s) /\ Forall (every_call (keeps I)) (sys_tasks s) ->
             I (sys_session (fold_left (sys_step cfg prompts) schedule s))).
  { induction schedule as [| e schedule IH]; intros s [Hst Htasks]; [exact Hst |].
    cbn [fold_left]. apply IH.
    destruct e as [c | i answer]; cbn [sys_step].
    - split; [exact Hst |]. apply Forall_app. split; [exact Htasks |].
      constructor; [apply Harrive | constructor].
    - destruct (sys_tasks s !! i) as [[a | e | a k] |] eqn:Hi; try (split; assumption).
      pose proof (proj1 (Forall_lookup _ _) Htasks i _ Hi) as [Ha Hk].
      split; cbn [sys_session sys_tasks].
      + apply Ha, Hst.
      + apply Forall_app. split.
        * apply Forall_insert; [exact Htasks | apply Hk].
        * destruct a; cbn [spawned]; try constructor; [apply Htask | constructor]. }
  apply Hgen. split; [exact Hinit | constructor].
Qed.

Section Lifecycle.

Variable cfg : Config.
Variable prompts : gmap string string.

Lemma pipeline_keeps_lifecycle filename ctx :
  every_call (keeps lifecycle_invariant)
    (process_recording_pipeline cfg prompts filename ctx).
Proof. unfold process_recording_pipeline. walk; keep_lifecycle. Qed.

Lemma stop_keeps_lifecycle ctx :
  every_call (keeps lifecycle_invariant) (handle_record_stop cfg prompts ctx).
Proof. unfold handle_record_stop. walk; keep_lifecycle. Qed.

Lemma start_keeps_lifecycle ctx minutes :
  every_call (keeps lifecycle_invariant) (handle_record_start cfg prompts ctx minutes).
Proof.
  unfold handle_record_start. walk;
    lazymatch goal with
    | |- every_call _ (handle_record_stop _ _ _) => apply stop_keeps_lifecycle
    | _ => keep_lifecycle
    end.
Qed.

Lemma arrival_keeps_lifecycle c :
  every_call (keeps lifecycle_invariant) (arrival_body cfg prompts c).
Proof.
  destruct c as [ctx subcommand minutes |]; cbn [arrival_body].
  - unfold record_command. walk;
      lazymatch goal with
      | |- every_call _ (handle_record_start _ _ _ _) => apply start_keeps_lifecycle
      | |- every_call _ (handle_record_stop _ _ _) => apply stop_keeps_lifecycle
      | |- every_call _ (handle_record_status _) =>
          unfold handle_record_status; walk; keep_lifecycle
      | |- every_call _ (handle_manual_upload _ _) =>
          unfold handle_manual_upload; walk; keep_lifecycle
      | _ => keep_lifecycle
      end.
  - unfold health_check_task. walk; keep_lifecycle.
Qed.

End Lifecycle.

(** X7. In every state the event loop can reach, whatever commands arrive
    and however the handlers, the automatic stop, the health check and the
    pipelines in flight interleave: an active session has its start time and
    its file name; an idle one has no start time, duration 0 and no file
    name; and [participants] is the empty list, as nothing ever adds to
    it. *)
Theorem session_fields_follow_active :
  forall (cfg : Config) (prompts : gmap string string) (schedule : list sched),
    let st := sys_session (sys_run cfg prompts schedule) in
    (active st = true ->
     is_Some (start_time st) /\ is_Some (recording_filename st))
    /\ (active st = false ->
        start_time st = None /\ duration_minutes st = 0
        /\ recording_filename st = None)
    /\ participants st = [].
Proof.
  intros cfg prompts schedule.
  apply (reachable_keeps lifecycle_invariant cfg prompts).
  - apply lifecycle_initial.
  - apply arrival_keeps_lifecycle.
  - intros [filename ctx]. apply pipeline_keeps_lifecycle.
Qed.

(** ** No exception leaves a handler *)

Lemma start_never_raises cfg prompts ctx minutes :
  never_raises (handle_record_start cfg prompts ctx minutes).
Proof.
  unfold handle_record_start. apply never_raises_bind; [apply never_raises_call |].
  intros st. destruct (active st); [apply never_raises_call |].
  apply never_raises_try. intros e. cbn. intros; exact I.
Qed.

Lemma manual_upload_never_raises cfg ctx : never_raises (handle_manual_upload cfg ctx).
Proof. unfold handle_manual_upload. apply never_raises_try. intros e. cbn. intros; exact I. Qed.

Lemma pipeline_never_raises cfg prompts filename ctx :
  never_raises (process_recording_pipeline cfg prompts filename ctx).
Proof.
  unfold process_recording_pipeline. apply never_raises_try. intros e. cbn. intros; exact I.
Qed.

Lemma health_check_never_raises cfg : never_raises (health_check_task cfg).
Proof. unfold health_check_task. apply never_raises_try. intros e. cbn. intros; exact I. Qed.

(** A coroutine of the event loop that raises nothing returns [None]. *)
Lemma returns_unit (p : prog unit) (o : oracle) (w : world) :
  never_raises p -> value (run p o w) = Returned tt.
Proof. intros Hp. destruct (never_raises_returns p o w Hp) as [[] H]. exact H. Qed.

(** X8. Whatever the session record holds and whatever the recorder, the
    file system, the network and the clock answer, no exception leaves the
    start handler (the automatic stop included), the stop handler, the
    upload listing, the pipeline or the health check: each one returns.
    (A message to Discord and a log record are calls that do not raise.) *)
Theorem handlers_return :
  forall (cfg : Config) (prompts : gmap string string) (ctx : context)
         (minutes : Z) (filename : option string) (o : oracle) (w : world),
    value (run (handle_record_start cfg prompts ctx minutes) o w) = Returned tt
    /\ value (run (handle_record_stop cfg prompts ctx) o w) = Returned tt
    /\ value (run (handle_manual_upload cfg ctx) o w) = Returned tt
    /\ value (run (process_recording_pipeline cfg prompts filename ctx) o w) = Returned tt
    /\ value (run (health_check_task cfg) o w) = Returned tt.
Proof.
  intros cfg prompts ctx minutes filename o w.
  repeat split; apply returns_unit.
  - apply start_never_raises.
  - apply stop_never_raises.
  - apply manual_upload_never_raises.
  - apply pipeline_never_raises.
  - apply health_check_never_raises.
Qed.

(** ** The command and its subcommands *)

Lemma lower_ascii_lower c : lower_ascii (lower_ascii c) = lower_ascii c.
Proof. destruct c as [[] [] [] [] [] [] [] []]; reflexivity. Qed.

Lemma lower_lower s : lower (lower s) = lower s.
Proof.
  induction s as [| c s IH]; [reflexivity |].
  cbn [lower]. rewrite lower_ascii_lower, IH. reflexivity.
Qed.

(** X9. The subcommand is matched without regard to the case of its ASCII
    letters: a command with subcommand [s] is the same coroutine as the
    command with [s] in lower case. *)
Theorem record_command_ignores_case :
  forall (cfg : Config) (prompts : gmap string string) (ctx : context)
         (s : string) (minutes : Z),
    record_command cfg prompts ctx (Some s) minutes
    = record_command cfg prompts ctx (Some (lower s)) minutes.
Proof.
  intros cfg prompts ctx s minutes. unfold record_command.
  rewrite lower_lower. reflexivity.
Qed.

(** X10. In a guild, a command without subcommand is answered with the usage
    line, and a command whose subcommand, in lower case, is none of
    [start], [stop], [status] and [upload] is answered with the notice of
    an unknown subcommand, which ends with the subcommand as [str.lower]
    gives it: for a subcommand of ASCII characters, with its letters in
    lower case. In both cases the coroutine returns, that message is its
    only call and the session record is as before. *)
Theorem unknown_subcommand_is_answered :
  forall (cfg : Config) (prompts : gmap string string) (ctx : context)
         (s : string) (minutes : Z) (o : oracle) (w : world),
    is_Some (guild ctx) ->
    let missing := run (record_command cfg prompts ctx None minutes) o w in
    let unknown := run (record_command cfg prompts ctx (Some s) minutes) o w in
    (value missing = Returned tt
     /\ calls (events missing) = [Send NUsage "‚ùì Usage: `/record start [minutes]` | `/record stop` | `/record status` | `/record upload`"]
     /\ session (final missing) = session w)
    /\ (known_subcommand (lower s) = false ->
        value unknown = Returned tt
        /\ session (final unknown) = session w
        /\ exists echoed,
             calls (events unknown)
             = [Send NUnknownSubcommand ("‚ùì Unknown subcommand: " +:+ echoed)]
             /\ (all_chars is_ascii s = true -> echoed = lower s)).
Proof.
  intros cfg prompts ctx s minutes o w [g Hguild] missing unknown.
  subst missing unknown. unfold record_command. rewrite Hguild. split.
  - cbn. repeat split. unit_answer.
  - unfold known_subcommand. intros Hunknown.
    apply orb_false_iff in Hunknown as [Hunknown Hupload].
    apply orb_false_iff in Hunknown as [Hunknown Hstatus].
    apply orb_false_iff in Hunknown as [Hstart Hstop].
    cbn zeta. rewrite Hstart, Hstop, Hstatus, Hupload.
    cbn. split; [unit_answer |]. split; [reflexivity |].
    exists (lower s). split; [reflexivity | intros _; reflexivity].
Qed.

Lemma unknown_subcommand_is_answered_witness :
  exists echoed,
    calls (events (run (record_command Scenario.studio default_prompts Scenario.general
                          (Some "Pause") 0)
                     Scenario.all_up Scenario.idle))
    = [Send NUnknownSubcommand ("‚ùì Unknown subcommand: " +:+ echoed)]
    /\ (all_chars is_ascii "Pause" = true -> echoed = lower "Pause").
Proof.
  destruct (unknown_subcommand_is_answered Scenario.studio default_prompts
              Scenario.general "Pause" 0 Scenario.all_up Scenario.idle)
    as [_ Hunknown]; [eexists; reflexivity |].
  exact (proj2 (proj2 (Hunknown eq_refl))).
Defined.

(** ** The health check *)

Lemma health_check_calls cfg : every_call health_call (health_check_task cfg).
Proof. unfold health_check_task, get_connection. walk. Qed.

(** X11. The health check returns, and all it does is connect to OBS,
    disconnect, read the session record and log: it sends nothing to
    Discord, starts no task and leaves the session record as it was. *)
Theorem health_check_only_polls :
  forall (cfg : Config) (o : oracle) (w : world),
    let r := run (health_check_task cfg) o w in
    value r = Returned tt
    /\ session (final r) = session w
    /\ Forall (fun e => health_call (ev_action e)) (events r)
    /\ existsb is_any_send (events r) = false
    /\ existsb is_write (events r) = false.
Proof.
  intros cfg o w r. subst r.
  pose proof (every_call_events health_call _ o w (health_check_calls cfg)) as Hcalls.
  split; [apply returns_unit, health_check_never_raises |].
  split; [| split; [exact Hcalls |]].
  - apply (unwritten_session health_call); [| apply health_check_calls].
    intros a Ha st. destruct a; cbn in *; auto; contradiction.
  - split; apply (none_of health_call); try exact Hcalls;
      intros [a r] Ha; destruct a; cbn in *; auto; contradiction.
Qed.

(* ================================================================= *)
(** * The collaborators *)

Lemma upload_video_never_raises cfg file title description :
  never_raises (upload_video cfg file title description).
Proof.
  unfold upload_video. destruct (negb _); [cbn; intros; exact I |].
  apply never_raises_try. intros e. cbn. intros; exact I.
Qed.

Lemma commit_file_never_raises cfg file content message :
  never_raises (commit_file cfg file content message).
Proof.
  unfold commit_file. destruct (negb _); [cbn; intros; exact I |].
  apply never_raises_try. intros e. cbn. intros; exact I.
Qed.

Lemma upload_transcript_never_raises cfg content metadata :
  never_raises (upload_transcript cfg content metadata).
Proof. unfold upload_transcript. apply never_raises_try. intros e. cbn. intros; exact I. Qed.

Lemma generate_transcript_never_raises cfg file :
  never_raises (generate_transcript cfg file).
Proof. unfold generate_transcript. apply never_raises_try. intros e. cbn. intros; exact I. Qed.

Lemma get_connection_never_raises cfg : never_raises (get_connection cfg).
Proof. unfold get_connection. apply never_raises_try. intros e. cbn. intros; exact I. Qed.

Lemma start_recording_never_raises cfg : never_raises (start_recording cfg).
Proof. unfold start_recording. apply never_raises_try. intros e. cbn. intros; exact I. Qed.

Lemma stop_recording_never_raises cfg : never_raises (stop_recording cfg).
Proof. unfold stop_recording. apply never_raises_try. intros e. cbn. intros; exact I. Qed.

Lemma commit_file_calls cfg file content message :
  every_call outside_call (commit_file cfg file content message).
Proof. eapply every_call_weaken; [exact remote_is_outside | apply commit_file_remote]. Qed.

Lemma contained_intro {A} (p : prog A) :
  every_call outside_call p -> never_raises p -> contained p.
Proof.
  intros Hcalls Hreturns o w.
  split; [apply never_raises_returns, Hreturns |].
  split; [apply outside_calls_keep_session, Hcalls | apply every_call_events, Hcalls].
Qed.

(** X12. Every method of the collaborator classes keeps to itself, whatever
    the configuration and whatever OBS, the file system, the network and
    the clock answer: it returns, no exception leaves it, it neither reads
    nor writes the session record, and it sends nothing to Discord. *)
Theorem collaborators_are_contained :
  forall (cfg : Config) (file title description message text : string)
         (content : payload) (metadata : list (string * jvalue)),
    contained (upload_video cfg file title description)
    /\ contained (commit_file cfg file content message)
    /\ contained (upload_transcript cfg text metadata)
    /\ contained (generate_transcript cfg file)
    /\ contained (get_connection cfg)
    /\ contained (start_recording cfg)
    /\ contained (stop_recording cfg)
    /\ contained (upload_to_s3 cfg file)
    /\ contained (upload_to_rclone cfg file).
Proof.
  intros cfg file title description message text content metadata.
  repeat lazymatch goal with |- _ /\ _ => split end;
    (apply contained_intro; [solve [auto with calls | apply commit_file_calls] |]).
  - apply upload_video_never_raises.
  - apply commit_file_never_raises.
  - apply upload_transcript_never_raises.
  - apply generate_transcript_never_raises.
  - apply get_connection_never_raises.
  - apply start_recording_never_raises.
  - apply stop_recording_never_raises.
  - apply upload_to_s3_never_raises.
  - apply upload_to_rclone_never_raises.
Qed.

(** ** What [commit_file] returns and sends *)

(** Follows a run into each of its branches. *)
Ltac branch :=
  lazymatch goal with
  | |- ensures (if ?b then _ else _) _ _ _ => destruct b eqn:?
  | |- ensures (match ?x with _ => _ end) _ _ _ => destruct x eqn:?
  | |- match ?x with _ => _ end => destruct x eqn:?
  end.

Ltac explore := repeat (steps; try branch).

(** X13. [commit_file] returns a URL exactly when GitHub answered its PUT
    with status 200 or 201 and a body that holds that URL; in every other
    case (credentials missing, a request that raises, another status, a body
    without the field) it returns [None]. *)
Theorem commit_file_returns_accepted_url :
  forall (cfg : Config) (file message url : string) (content : payload)
         (o : oracle) (w : world),
    let r := run (commit_file cfg file content message) o w in
    (value r = Returned (Some url) <-> existsb (put_accepted url) (events r) = true)
    /\ (value r = Returned None
        <-> forall u, existsb (put_accepted u) (events r) = false).
Proof.
  intros cfg file message url content o w r. subst r.
  by_run (commit_file cfg file content message) o w.
  unfold commit_file. destruct (negb _).
  { steps. split; split; try discriminate; auto. }
  explore;
    cbn [existsb put_accepted orb andb];
    repeat match goal with
      | H : (_ || _) = _ |- _ => rewrite H
      | H : json_field _ = _ |- _ => rewrite H
      end;
    cbn [andb orb]; rewrite ?orb_false_r;
    (split; split; intros H);
    try discriminate H; try (intros; reflexivity);
    try (injection H as ->; apply String.eqb_refl);
    try (apply String.eqb_eq in H; subst; reflexivity);
    try match type of H with
        | forall u, (?a =? u)%string || false = false =>
            specialize (H a); rewrite String.eqb_refl in H; discriminate H
        end.
Qed.

(** X14. With the GitHub credentials set, the PUT of [commit_file] follows
    what the GET answered: when the GET raises, or answers 200 with a body
    without [sha], no PUT is made; when it answers 200 with a [sha], the
    PUT carries that [sha], unless it is the empty string; when it answers
    any other status, the PUT carries no [sha]. *)
Theorem commit_file_put_follows_get :
  forall (cfg : Config) (file message : string) (content : payload)
         (o : oracle) (w : world),
    github_configured cfg = true ->
    let url := contents_url cfg file in
    let token := str_opt (github_token cfg) in
    let r := run (commit_file cfg file content message) o w in
    match o (ticks w) (HttpGet url token) with
    | Failed _ => existsb is_put (events r) = false
    | Returned found =>
        if status_code found =? 200
        then
          match json_field found with
          | Failed _ => existsb is_put (events r) = false
          | Returned sha =>
              In (HttpPut url token message content
                    (if truthy_str sha then Some sha else None))
                 (calls (events r))
          end
        else In (HttpPut url token message content None) (calls (events r))
    end.
Proof.
  intros cfg file message content o w Hcfg url token r. subst url token r.
  unfold contents_url.
  by_run (commit_file cfg file content message) o w.
  unfold commit_file. unfold github_configured in Hcfg. rewrite Hcfg.
  do 5 step.
  destruct (o (ticks w) (HttpGet _ _)) as [found | e]; [| steps; reflexivity].
  steps. destruct (status_code found =? 200).
  - steps. destruct (json_field found) as [sha | e]; [| steps; reflexivity].
    explore; cbn [calls map ev_action truthy]; right; left; reflexivity.
  - explore; cbn [calls map ev_action truthy]; right; left; reflexivity.
Qed.

Lemma commit_file_put_follows_get_witness :
  In (HttpPut (contents_url Cases.studio_github "notes.txt") "ghp_token"
        "Add notes" (Text "notes") (Some "3b18e5"))
     (calls (events (run (commit_file Cases.studio_github "notes.txt" (Text "notes")
                            "Add notes")
                       Cases.with_github Scenario.idle))).
Proof.
  exact (commit_file_put_follows_get Cases.studio_github "notes.txt" "Add notes"
           (Text "notes") Cases.with_github Scenario.idle eq_refl).
Defined.

(** X15. Without its credentials a collaborator is a no-op. When one of the
    three YouTube credentials is missing or empty, [upload_video] logs a
    warning and returns [None]. When the GitHub token or repository is
    missing or empty, [commit_file] does the same, and [upload_transcript]
    returns [None] having only read the clock and logged the two warnings:
    no request is sent. *)
Theorem unconfigured_collaborators_only_warn :
  forall (cfg : Config) (file title description message text : string)
         (content : payload) (metadata : list (string * jvalue))
         (o : oracle) (w : world),
    (youtube_configured cfg = false ->
     let r := run (upload_video cfg file title description) o w in
     value r = Returned None
     /\ calls (events r) = [Log WARNING "YouTube credentials not configured"])
    /\ (github_configured cfg = false ->
        let r := run (commit_file cfg file content message) o w in
        let r' := run (upload_transcript cfg text metadata) o w in
        (value r = Returned None
         /\ calls (events r) = [Log WARNING "GitHub credentials not configured"])
        /\ (value r' = Returned None
            /\ calls (events r')
               = [Now; Log WARNING "GitHub credentials not configured"; Now; Now; Log WARNING "GitHub credentials not configured"])).
Proof.
  intros cfg file title description message text content metadata o w. split.
  - intros Hcfg. unfold youtube_configured in Hcfg. cbn zeta.
    unfold upload_video. rewrite Hcfg. split; reflexivity.
  - intros Hcfg. unfold github_configured in Hcfg. cbn zeta. split.
    + unfold commit_file. rewrite Hcfg. split; reflexivity.
    + unfold upload_transcript, commit_file. rewrite Hcfg. split; reflexivity.
Qed.

Lemma unconfigured_collaborators_only_warn_witness :
  value (run (upload_video Cases.studio_github "a.mp4" "Recording" "") Scenario.all_up
           Scenario.idle) = Returned None
  /\ value (run (upload_transcript Scenario.studio "Transcript" []) Scenario.all_up
              Scenario.idle) = Returned None.
Proof.
  split.
  - exact (proj1 (proj1 (unconfigured_collaborators_only_warn Cases.studio_github
                           "a.mp4" "Recording" "" "" "" (Text "") []
                           Scenario.all_up Scenario.idle) eq_refl)).
  - exact (proj1 (proj2 (proj2 (unconfigured_collaborators_only_warn Scenario.studio
                                  "a.mp4" "Recording" "" "" "Transcript" (Text "") []
                                  Scenario.all_up Scenario.idle) eq_refl))).
Defined.

(** ** What the recorder and the uploads report *)

(** X16. [start_recording] and [stop_recording] return [True] exactly when
    none of their calls to OBS raised, and then these calls are: connect,
    the request to start (to stop) the recording, disconnect. When the
    connection cannot be made, no request is sent. *)
Theorem recorder_reports_its_calls :
  forall (cfg : Config) (o : oracle) (w : world),
    let connect := ObsConnect (obs_host cfg) (obs_port cfg) (obs_password cfg) in
    let started := run (start_recording cfg) o w in
    let stopped := run (stop_recording cfg) o w in
    (value started = Returned (negb (existsb obs_failed (events started)))
     /\ (value started = Returned true ->
         calls (List.filter is_obs (events started))
         = [connect; ObsCall StartRecord; ObsCall Disconnect])
     /\ (is_returned (o (ticks w) connect) = false ->
         existsb is_obs_request (events started) = false))
    /\ (value stopped = Returned (negb (existsb obs_failed (events stopped)))
        /\ (value stopped = Returned true ->
            calls (List.filter is_obs (events stopped))
            = [connect; ObsCall StopRecord; ObsCall Disconnect])
        /\ (is_returned (o (ticks w) connect) = false ->
            existsb is_obs_request (events stopped) = false)).
Proof.
  intros cfg o w connect started stopped. subst connect started stopped. split.
  - by_run (start_recording cfg) o w.
    unfold start_recording, get_connection. explore;
      (split; [reflexivity |]); (split; [intros Hok; try discriminate Hok; reflexivity |]);
      intros Hdown; try discriminate Hdown; reflexivity.
  - by_run (stop_recording cfg) o w.
    unfold stop_recording, get_connection. explore;
      (split; [reflexivity |]); (split; [intros Hok; try discriminate Hok; reflexivity |]);
      intros Hdown; try discriminate Hdown; reflexivity.
Qed.

(** X17. [upload_to_s3] returns [True] exactly when the upload to S3 was
    made and returned, and [upload_to_rclone] exactly when [rclone] was run
    and exited with 0; the object key is [recordings/], the date as
    [%Y/%m/%d], and the name of the file. *)
Theorem cloud_uploads_report_their_calls :
  forall (cfg : Config) (file : string) (o : oracle) (w : world),
    let s3 := run (upload_to_s3 cfg file) o w in
    let rclone := run (upload_to_rclone cfg file) o w in
    value s3 = Returned (existsb s3_uploaded (events s3))
    /\ value rclone = Returned (existsb rclone_copied (events rclone))
    /\ (truthy (s3_bucket cfg) = true ->
        exists now,
          In (Ev Now now) (events s3)
          /\ In (S3UploadFile file (str_opt (s3_bucket cfg))
                   ("recordings/" +:+ strftime "%Y/%m/%d" now +:+ "/" +:+ path_name file))
                (calls (events s3))).
Proof.
  intros cfg file o w s3 rclone. subst s3 rclone.
  split; [| split].
  - by_run (upload_to_s3 cfg file) o w.
    unfold upload_to_s3. destruct (negb _); [reflexivity |].
    explore; reflexivity.
  - by_run (upload_to_rclone cfg file) o w.
    unfold upload_to_rclone. destruct (negb _); [reflexivity |].
    explore; cbn [existsb rclone_copied orb];
      try match goal with H : (returncode _ =? 0) = _ |- _ => rewrite H end;
      reflexivity.
  - intros Hcfg. exists (o (ticks w) Now).
    by_run (upload_to_s3 cfg file) o w.
    unfold upload_to_s3. rewrite Hcfg.
    explore; (split; [left; reflexivity | right; left; reflexivity]).
Qed.

Lemma cloud_uploads_report_their_calls_witness :
  In (S3UploadFile Scenario.recording "studio-recordings"
        "recordings/2024/01/01/2024-01-01_00-00-00.mp4")
     (calls (events (run (upload_to_s3 Scenario.studio_s3 Scenario.recording)
                       Scenario.no_transcripts_s3 Scenario.idle))).
Proof.
  destruct (proj2 (proj2 (cloud_uploads_report_their_calls Scenario.studio_s3
                            Scenario.recording Scenario.no_transcripts_s3
                            Scenario.idle)) eq_refl) as (now & _ & _).
  right. left. reflexivity.
Defined.

(** X18. [generate_transcript] writes one file, named after the stem of the
    recording, with [.txt], in the transcripts directory, and returns that
    path when the write returned and [None] when it raised. *)
Theorem generate_transcript_returns_written_path :
  forall (cfg : Config) (file : string) (o : oracle) (w : world),
    let path := path_join (transcripts_dir cfg) (path_stem file +:+ ".txt") in
    let r := run (generate_transcript cfg file) o w in
    value r = Returned (if existsb (wrote path) (events r) then Some path else None)
    /\ exists content,
         List.filter (fun a => match a with WriteFile _ _ => true | _ => false end)
           (calls (events r))
         = [WriteFile path content].
Proof.
  intros cfg file o w path r. subst path r.
  by_run (generate_transcript cfg file) o w.
  unfold generate_transcript. explore;
    (split; [cbn [existsb wrote orb andb is_returned]; rewrite ?String.eqb_refl;
             reflexivity
            | eexists; reflexivity]).
Qed.

(** X29. [upload_video] uploads nothing: in every configuration its calls
    are readings of the clock and log records only. With the three
    credentials set it returns an identifier all the same, [upload_]
    followed by the time as [%Y%m%d_%H%M%S]. *)
Theorem upload_video_is_simulated :
  forall (cfg : Config) (file title description : string) (o : oracle) (w : world),
    let r := run (upload_video cfg file title description) o w in
    Forall (fun e => local_call (ev_action e)) (events r)
    /\ (youtube_configured cfg = true ->
        exists now,
          In (Ev Now now) (events r)
          /\ value r = Returned (Some ("upload_" +:+ strftime "%Y%m%d_%H%M%S" now))).
Proof.
  intros cfg file title description o w r. subst r. split.
  - apply every_call_events. unfold upload_video. walk.
  - intros Hcfg. unfold youtube_configured in Hcfg.
    exists (o (S (ticks w)) Now).
    by_run (upload_video cfg file title description) o w.
    unfold upload_video. rewrite Hcfg. steps.
    split; [right; left; reflexivity | reflexivity].
Qed.

Lemma upload_video_is_simulated_witness :
  value (run (upload_video Scenario.studio Scenario.recording "Recording" "")
           Scenario.all_up Scenario.idle)
  = Returned (Some "upload_20240101_000000").
Proof.
  destruct (proj2 (upload_video_is_simulated Scenario.studio Scenario.recording
                     "Recording" "" Scenario.all_up Scenario.idle) eq_refl)
    as (now & _ & _).
  reflexivity.
Defined.

(* ================================================================= *)
(** * Further properties of the pipeline *)

(** X19. When the search for the recording finds nothing, the pipeline
    makes four calls and returns: its first notice, the search, an error
    in the log and the notice that the file was not found. No collaborator
    is called and the session record is as before. *)
Theorem pipeline_without_recording :
  forall (cfg : Config) (prompts : gmap string string) (filename : option string)
         (ctx : context) (o : oracle) (w : world),
    let r := run (process_recording_pipeline cfg prompts filename ctx) o w in
    existsb artifact_found (events r) = false ->
    value r = Returned tt
    /\ calls (events r)
       = [ Send NProcessingStart "üîÑ Starting post-recording processing...";
           Glob (recordings_dir cfg) (str_opt filename +:+ ".mp4");
           Log ERROR ("Recording file not found: " +:+ str_opt filename);
           Send NFileNotFound "‚ùå Recording file not found for processing" ]
    /\ session (final r) = session w.
Proof.
  intros cfg prompts filename ctx o w r Hfound. subst r.
  assert (Hglob : o (S (ticks w))
                    (Glob (recordings_dir cfg) (str_opt filename +:+ ".mp4")) = []).
  { destruct (pipeline_head cfg prompts filename ctx) as (text & k & Hhead).
    rewrite Hhead in Hfound.
    cbn [run events existsb artifact_found reply after ticks session effect orb]
      in Hfound.
    destruct (o _ (Glob _ _)); [reflexivity | discriminate Hfound]. }
  clear Hfound.
  by_run (process_recording_pipeline cfg prompts filename ctx) o w.
  unfold process_recording_pipeline. steps. rewrite Hglob. steps.
  split; [unit_answer |]. split; reflexivity.
Qed.

Lemma pipeline_without_recording_witness :
  session (final (run (process_recording_pipeline Scenario.studio default_prompts
                         (Some "2024-01-01_00-00-00") Scenario.general)
                    Cases.no_recording Scenario.busy)) = Scenario.in_session.
Proof.
  exact (proj2 (proj2 (pipeline_without_recording Scenario.studio default_prompts
                         (Some "2024-01-01_00-00-00") Scenario.general
                         Cases.no_recording Scenario.busy eq_refl))).
Defined.

(** ** A transcript that cannot be read back *)

Lemma remote_is_not_file_read a : remote_call a -> not_file_read a.
Proof. destruct a; cbn; tauto. Qed.

Lemma no_file_read_no_failure (l : list event) :
  Forall (fun e => not_file_read (ev_action e)) l -> existsb read_failed l = false.
Proof.
  apply none_of. intros [a r] Ha. destruct a; cbn in *; try reflexivity. destruct Ha.
Qed.

Lemma generate_transcript_quiet cfg file :
  every_call quiet_call (generate_transcript cfg file).
Proof. unfold generate_transcript. walk; split; exact I. Qed.

(** [generate_transcript] returns, leaves the session record alone, talks to
    the outside only and reads no file. *)
Lemma generate_transcript_summary cfg file (o : oracle) (w : world) :
  ensures (generate_transcript cfg file) o w
    (fun v w' l =>
       exists transcript,
         v = Returned transcript
         /\ session w' = session w
         /\ Forall (fun e => outside_call (ev_action e)) l
         /\ existsb read_failed l = false).
Proof.
  unfold ensures.
  destruct (never_raises_returns _ o w (generate_transcript_never_raises cfg file))
    as [transcript Hvalue].
  exists transcript. split; [exact Hvalue |].
  split; [apply outside_calls_keep_session, generate_transcript_calls |].
  split; [apply every_call_events, generate_transcript_calls |].
  apply no_file_read_no_failure.
  eapply List.Forall_impl; [| apply every_call_events, generate_transcript_quiet].
  intros e He. exact (proj2 He).
Qed.

(** Counts over the calls of a run: the known calls by computation, those
    of the sub-runs by what is known of them. *)
Ltac tally :=
  repeat first [rewrite existsb_app | progress cbn [existsb]];
  repeat match goal with
    | H : existsb ?f ?l = _ |- context [existsb ?f ?l] => rewrite H
    end;
  cbn [read_failed is_send is_any_send ev_action notice_eqb orb andb negb is_returned].

(** Finds the send of notice [n] among the calls of a run. *)
Ltac has_notice n :=
  lazymatch goal with
  | |- existsb _ ?l = true =>
      lazymatch l with
      | context [Ev (Send n ?text) ?r] =>
          apply existsb_exists; exists (Ev (Send n text) r);
          split; [find_in | reflexivity]
      end
  end.

(** Finishes a walk over what is left of the pipeline. *)
Ltac no_file_read :=
  walk;
  lazymatch goal with
  | |- every_call _ _ =>
      eapply every_call_weaken;
        [exact remote_is_not_file_read | solve [auto with remote]]
  | |- not_file_read _ => exact I
  end.

(** What is left of the run reads no file. *)
Tactic Notation "rest_reads_nothing" ident(v) ident(H) :=
  eapply ensures_weaken; [| apply (ensures_every_call not_file_read)];
  [| solve [no_file_read]];
  cbn beta; intros v ?w ?l H;
  apply no_file_read_no_failure in H.

(** X20. When the transcript was written and the read of it raises, the
    pipeline is over: the handler at its top reports the failure and the
    run returns. The path of the transcript is in the session record, and
    nothing that comes after the read is done: no upload notice and no
    processing-complete notice are sent, and the upload identifier and the
    commit URL of the session record are as before. *)
Theorem unreadable_transcript_aborts_pipeline :
  forall (cfg : Config) (prompts : gmap string string) (filename : option string)
         (ctx : context) (o : oracle) (w : world),
    let r := run (process_recording_pipeline cfg prompts filename ctx) o w in
    existsb read_failed (events r) = true ->
    value r = Returned tt
    /\ existsb (is_send NProcessingFailed) (events r) = true
    /\ existsb (is_send NProcessingComplete) (events r) = false
    /\ existsb (is_send NUploadSuccess) (events r) = false
    /\ existsb (is_send NCloudUpload) (events r) = false
    /\ truthy (transcript_path (session (final r))) = true
    /\ youtube_upload_id (session (final r)) = youtube_upload_id (session w)
    /\ github_commit_url (session (final r)) = github_commit_url (session w).
Proof.
  intros cfg prompts filename ctx o w r. subst r.
  by_run (process_recording_pipeline cfg prompts filename ctx) o w.
  unfold process_recording_pipeline. steps.
  match goal with
  | |- context [o ?n (Glob ?dir ?pat)] =>
      destruct (o n (Glob dir pat)) as [| recording_file others] eqn:Hglob
  end.
  { steps. intros Hread. discriminate Hread. }
  steps.
  eapply ensures_weaken; [| apply generate_transcript_summary].
  intros v w1 l1 (transcript & -> & Hs1 & Hl1 & Hread1).
  cbn beta iota.
  destruct (truthy transcript) eqn:Htranscript.
  - steps.
    match goal with
    | |- context [o ?n (ReadFile ?path)] =>
        destruct (o n (ReadFile path)) as [content | e] eqn:Hcontent
    end.
    + rest_reads_nothing v2 Hl2.
      destruct v2 as [[] | e].
      * rest_reads_nothing v3 Hl3.
        destruct v3 as [[] | e]; steps; intros Hread; exfalso; revert Hread;
          tally; discriminate.
      * steps. intros Hread. exfalso. revert Hread. tally. discriminate.
    + steps. intros _.
      pose proof (outside_calls_not (is_send NProcessingComplete) l1
                    (fun e => outside_not_send _ e) Hl1) as Hcomplete.
      pose proof (outside_calls_not (is_send NUploadSuccess) l1
                    (fun e => outside_not_send _ e) Hl1) as Hupload.
      pose proof (outside_calls_not (is_send NCloudUpload) l1
                    (fun e => outside_not_send _ e) Hl1) as Hcloud.
      absorb w1 Hs1.
      split; [unit_answer |].
      split; [has_notice NProcessingFailed |].
      split; [tally; reflexivity |].
      split; [tally; reflexivity |].
      split; [tally; reflexivity |].
      split; [exact Htranscript |].
      split; reflexivity.
  - rest_reads_nothing v2 Hl2.
    destruct v2 as [[] | e]; steps; intros Hread; exfalso; revert Hread;
      tally; discriminate.
Qed.

Lemma unreadable_transcript_aborts_pipeline_witness :
  existsb (is_send NProcessingFailed)
    (events (run (process_recording_pipeline Scenario.studio default_prompts
                    (Some "2024-01-01_00-00-00") Scenario.general)
               Cases.unreadable Scenario.idle)) = true.
Proof.
  exact (proj1 (proj2 (unreadable_transcript_aborts_pipeline Scenario.studio
                         default_prompts (Some "2024-01-01_00-00-00") Scenario.general
                         Cases.unreadable Scenario.idle eq_refl))).
Defined.

(** ** How a run of the pipeline ends *)

Create HintDb returns.
#[local] Hint Resolve upload_video_never_raises upload_transcript_never_raises
  generate_transcript_never_raises upload_to_s3_never_raises
  upload_to_rclone_never_raises : returns.

(** A collaborator returns and sends nothing. *)
Lemma collaborator_silent {A} (p : prog A) (o : oracle) (w : world) :
  every_call outside_call p ->
  never_raises p ->
  ensures p o w
    (fun v _ l =>
       (exists a, v = Returned a)
       /\ List.filter is_any_send l = []
       /\ List.filter is_closing l = []).
Proof.
  intros Hcalls Hreturns. unfold ensures.
  pose proof (every_call_events outside_call p o w Hcalls) as Hl.
  split; [apply never_raises_returns, Hreturns |].
  split; [apply outside_no_sends, Hl |].
  induction Hl as [| e l He Hl IH]; [reflexivity |].
  cbn [List.filter]. rewrite IH.
  destruct e as [a r]. destruct a; cbn in *; try reflexivity; destruct He.
Qed.

(** Takes a collaborator's run as a whole. *)
Ltac sub_run :=
  lazymatch goal with
  | |- ensures (generate_transcript _ _) _ _ _ => idtac
  | |- ensures (upload_transcript _ _ _) _ _ _ => idtac
  | |- ensures (upload_video _ _ _ _) _ _ _ => idtac
  | |- ensures (upload_to_s3 _ _) _ _ _ => idtac
  | |- ensures (upload_to_rclone _ _) _ _ _ => idtac
  end;
  eapply ensures_weaken;
    [| apply collaborator_silent;
       [solve [auto with calls] | solve [auto with returns]]];
  cbn beta; intros ? ? ? ((? & ->) & ? & ?); cbn beta iota.

(** Reduces the sends of a run to those of the known calls. *)
Ltac sends :=
  repeat first
    [ rewrite List.filter_app
    | progress cbn [List.filter is_any_send is_closing is_send ev_action
                    notice_eqb orb] ];
  repeat match goal with
    | H : List.filter _ ?l = [] |- _ => rewrite H
    end;
  cbn [app calls map last ev_action].

(** X21. Every run of the pipeline closes with exactly one of three
    notices: the file was not found, processing is complete, or processing
    failed. Whatever the collaborators answer and whatever the templates
    are, one of them is sent, once, and it is the last message of the
    run. *)
Theorem pipeline_closes_once :
  forall (cfg : Config) (prompts : gmap string string) (filename : option string)
         (ctx : context) (o : oracle) (w : world),
    let r := run (process_recording_pipeline cfg prompts filename ctx) o w in
    exists n text,
      calls (List.filter is_closing (events r)) = [Send n text]
      /\ last (calls (List.filter is_any_send (events r))) = Some (Send n text).
Proof.
  intros cfg prompts filename ctx o w r. subst r.
  by_run (process_recording_pipeline cfg prompts filename ctx) o w.
  unfold process_recording_pipeline.
  repeat (steps; try branch; try sub_run);
    sends; do 2 eexists; split; reflexivity.
Qed.

(** ** When the pipeline completes *)

Lemma remote_is_service a : remote_call a -> service_call a.
Proof. destruct a; cbn; tauto. Qed.

Lemma service_is_outside a : service_call a -> outside_call a.
Proof. destruct a; cbn; tauto. Qed.

Section ServiceCalls.

Variable cfg : Config.

Lemma generate_transcript_service file :
  every_call service_call (generate_transcript cfg file).
Proof. unfold generate_transcript. walk. Qed.

Lemma upload_transcript_service content metadata :
  every_call service_call (upload_transcript cfg content metadata).
Proof. eapply every_call_weaken; [exact remote_is_service | auto with remote]. Qed.

Lemma upload_video_service file title description :
  every_call service_call (upload_video cfg file title description).
Proof. eapply every_call_weaken; [exact remote_is_service | auto with remote]. Qed.

Lemma upload_to_s3_service file : every_call service_call (upload_to_s3 cfg file).
Proof. eapply every_call_weaken; [exact remote_is_service | auto with remote]. Qed.

Lemma upload_to_rclone_service file : every_call service_call (upload_to_rclone cfg file).
Proof. eapply every_call_weaken; [exact remote_is_service | auto with remote]. Qed.

End ServiceCalls.

Create HintDb services.
#[local] Hint Resolve generate_transcript_service upload_transcript_service
  upload_video_service upload_to_s3_service upload_to_rclone_service : services.

(** A collaborator of the pipeline returns, sends nothing, searches for no
    recording and reads no file. *)
Lemma collaborator_facts {A} (p : prog A) (o : oracle) (w : world) :
  every_call service_call p ->
  never_raises p ->
  ensures p o w
    (fun v _ l =>
       (exists a, v = Returned a)
       /\ List.filter is_closing l = []
       /\ existsb artifact_found l = false
       /\ existsb read_failed l = false).
Proof.
  intros Hcalls Hreturns.
  assert (Houtside : every_call outside_call p)
    by (eapply every_call_weaken; [exact service_is_outside | exact Hcalls]).
  pose proof (collaborator_silent p o w Houtside Hreturns) as (Hvalue & _ & Hclosing).
  pose proof (every_call_events service_call p o w Hcalls) as Hl.
  unfold ensures. split; [exact Hvalue |]. split; [exact Hclosing |].
  split; apply (none_of service_call); try exact Hl;
    intros [a r] Ha; destruct a; cbn in *; try reflexivity; destruct Ha.
Qed.

Ltac sub_run_facts :=
  lazymatch goal with
  | |- ensures (generate_transcript _ _) _ _ _ => idtac
  | |- ensures (upload_transcript _ _ _) _ _ _ => idtac
  | |- ensures (upload_video _ _ _ _) _ _ _ => idtac
  | |- ensures (upload_to_s3 _ _) _ _ _ => idtac
  | |- ensures (upload_to_rclone _ _) _ _ _ => idtac
  end;
  eapply ensures_weaken;
    [| apply collaborator_facts;
       [solve [auto with services] | solve [auto with returns]]];
  cbn beta; intros ? ? ? ((? & ->) & ? & ? & ?); cbn beta iota.

(** A template that formats has not raised. *)
Ltac formatted :=
  match goal with
  | Hf : formats ?t ?k, He : format ?t ?k ?x = Failed _ |- _ =>
      specialize (Hf x); rewrite He in Hf; discriminate Hf
  end.

(** X22. When the templates of the three notices of the pipeline format,
    a run of the pipeline closes with the processing-complete notice
    exactly when the recording was found and no read of the transcript
    raised. Nothing a collaborator answers, and no failure of the
    transcript write, of a commit or of an upload, stands in the way. *)
Theorem pipeline_completes :
  forall (cfg : Config) (prompts : gmap string string) (filename : option string)
         (ctx : context) (o : oracle) (w : world),
    formats (dict_get prompts "github_commit" "Files committed to GitHub") "commit_url" ->
    formats (dict_get prompts "upload_success" "Video uploaded") "video_url" ->
    formats (dict_get prompts "cloud_upload" "Uploaded to cloud storage") "file_path" ->
    let r := run (process_recording_pipeline cfg prompts filename ctx) o w in
    calls (List.filter is_closing (events r))
    = [Send NProcessingComplete "‚úÖ Processing complete!"]
    <-> existsb artifact_found (events r) = true
        /\ existsb read_failed (events r) = false.
Proof.
  intros cfg prompts filename ctx o w Hgithub Hupload Hcloud r. subst r.
  by_run (process_recording_pipeline cfg prompts filename ctx) o w.
  unfold process_recording_pipeline.
  repeat (steps; try branch; try sub_run_facts);
    try formatted;
    sends;
    repeat first [rewrite existsb_app | progress cbn [existsb]];
    repeat match goal with
      | H : existsb ?f ?l = _ |- context [existsb ?f ?l] => rewrite H
      end;
    cbn [artifact_found read_failed orb negb is_returned];
    (split;
     [ intros Hclosed; try discriminate Hclosed; split; reflexivity
     | intros [Hfound Hreadable]; try discriminate Hfound; try discriminate Hreadable;
       reflexivity ]).
Qed.

Lemma pipeline_completes_witness :
  calls (List.filter is_closing
           (events (run (process_recording_pipeline Scenario.studio default_prompts
                           (Some "2024-01-01_00-00-00") Scenario.general)
                      Scenario.all_up Scenario.idle)))
  = [Send NProcessingComplete "‚úÖ Processing complete!"].
Proof.
  apply (pipeline_completes Scenario.studio default_prompts
           (Some "2024-01-01_00-00-00") Scenario.general Scenario.all_up Scenario.idle).
  - intros value; reflexivity.
  - intros value; reflexivity.
  - intros value; reflexivity.
  - split; reflexivity.
Defined.

(* ================================================================= *)
(** * The upload listing *)

(** ** [sorted(..., key=st_mtime, reverse=True)] *)

Lemma insert_by_mtime_permutation x l : Permutation (insert_by_mtime x l) (x :: l).
Proof.
  induction l as [| y l IH]; cbn [insert_by_mtime]; [reflexivity |].
  destruct (snd x <? snd y); [| reflexivity].
  rewrite IH. apply perm_swap.
Qed.

Lemma insert_by_mtime_newest_first x l :
  newest_first l -> newest_first (insert_by_mtime x l).
Proof.
  induction l as [| y l IH]; cbn [insert_by_mtime newest_first].
  - intros _. split; [constructor | exact I].
  - intros [Hy Hl]. destruct (snd x <? snd y) eqn:Hxy.
    + apply Z.ltb_lt in Hxy. cbn [newest_first]. split; [| apply IH, Hl].
      rewrite insert_by_mtime_permutation. constructor; [lia | exact Hy].
    + apply Z.ltb_ge in Hxy. cbn [newest_first]. split; [| split; assumption].
      constructor; [exact Hxy |].
      eapply List.Forall_impl; [| exact Hy]. cbn beta. intros z Hz. lia.
Qed.

Lemma insert_by_mtime_stable t x l :
  with_mtime t (insert_by_mtime x l) = with_mtime t (x :: l).
Proof.
  unfold with_mtime.
  induction l as [| y l IH]; cbn [insert_by_mtime]; [reflexivity |].
  destruct (snd x <? snd y) eqn:Hxy; [| reflexivity].
  apply Z.ltb_lt in Hxy. cbn [List.filter] in *. rewrite IH.
  destruct (snd y =? t) eqn:Hy; [| reflexivity].
  apply Z.eqb_eq in Hy.
  destruct (snd x =? t) eqn:Hx; [| reflexivity].
  apply Z.eqb_eq in Hx. lia.
Qed.

Lemma sort_by_mtime_desc_permutation (found : list (string * Z)) :
  Permutation (sort_by_mtime_desc found) found.
Proof.
  unfold sort_by_mtime_desc.
  induction found as [| x found IH]; cbn [fold_right]; [reflexivity |].
  rewrite insert_by_mtime_permutation, IH. reflexivity.
Qed.

(** X23. The order of the upload listing. [sort_by_mtime_desc] rearranges
    the files it is given, none lost and none added; the result has the
    newest file first; and files with the same modification time stay in
    the order the directory listing gave them. *)
Theorem sort_by_mtime_desc_sorts :
  forall (found : list (string * Z)),
    Permutation (sort_by_mtime_desc found) found
    /\ newest_first (sort_by_mtime_desc found)
    /\ forall t, with_mtime t (sort_by_mtime_desc found) = with_mtime t found.
Proof.
  intros found. unfold sort_by_mtime_desc.
  split; [apply sort_by_mtime_desc_permutation |].
  induction found as [| x found (Hsorted & Hstable)]; cbn [fold_right].
  - split; [exact I | reflexivity].
  - split.
    + apply insert_by_mtime_newest_first, Hsorted.
    + intros t. rewrite insert_by_mtime_stable.
      unfold with_mtime in *. cbn [List.filter]. rewrite Hstable. reflexivity.
Qed.

(** ** [handle_manual_upload] *)

Lemma manual_upload_calls cfg ctx : every_call listing_call (handle_manual_upload cfg ctx).
Proof. unfold handle_manual_upload. walk. Qed.

Lemma listed_length (found : list (string * Z)) :
  length (firstn 5 (sort_by_mtime_desc found)) = Nat.min 5 (length found).
Proof.
  rewrite length_take.
  rewrite (Permutation_length (sort_by_mtime_desc_permutation found)).
  reflexivity.
Qed.

(** X24. The upload listing makes one search of the recordings directory
    and leaves the session record alone. When the search raises, the error
    is logged and reported. When it finds nothing, the handler says so.
    Otherwise it sends the list, numbered from 1, of the names of the
    newest files, five at most, and then the notice that the upload is
    ready. *)
Theorem manual_upload_lists_newest_five :
  forall (cfg : Config) (ctx : context) (o : oracle) (w : world),
    let listing := GlobByMtime (recordings_dir cfg) "*.mp4" in
    let r := run (handle_manual_upload cfg ctx) o w in
    session (final r) = session w
    /\ value r = Returned tt
    /\ match o (ticks w) listing with
       | Failed e =>
           calls (events r)
           = [ listing;
               Log ERROR ("Manual upload failed: " +:+ exn_str e);
               Send NUploadError ("‚ùå Upload failed: " +:+ exn_str e) ]
       | Returned [] =>
           calls (events r) = [listing; Send NNoRecordings "No recordings found for upload"]
       | Returned found =>
           let listed := firstn 5 (sort_by_mtime_desc found) in
           let names := map (fun f => path_name (fst f)) listed in
           calls (events r)
           = [ listing;
               Send NAvailable ("üìÅ Available recordings:" +:+ nl +:+ join nl (numbered 1 names));
               Send NUploadReady "Upload functionality ready - select recording to upload" ]
           /\ length listed = Nat.min 5 (length found)
       end.
Proof.
  intros cfg ctx o w listing r. subst listing r.
  split; [| split].
  - apply (unwritten_session listing_call); [| apply manual_upload_calls].
    intros a Ha st. destruct a; cbn in *; auto; contradiction.
  - apply returns_unit, manual_upload_never_raises.
  - by_run (handle_manual_upload cfg ctx) o w.
    unfold handle_manual_upload. steps.
    destruct (o (ticks w) (GlobByMtime _ _)) as [[| x rest] | e].
    + cbn [sort_by_mtime_desc fold_right firstn]. steps. reflexivity.
    + pose proof (listed_length (x :: rest)) as Hlength.
      steps. cbn zeta.
      destruct (firstn 5 (sort_by_mtime_desc (x :: rest))) as [| y listed];
        [discriminate Hlength |].
      steps. split; [reflexivity | exact Hlength].
    + steps. reflexivity.
Qed.

(* ================================================================= *)
(** * Running [update_env_file] again *)

Lemma find_key_after_replace (lines : list string) (i : nat) (old new : string) :
  list_find is_key_line lines = Some (i, old) ->
  is_key_line new ->
  list_find is_key_line (<[i := new]> lines) = Some (i, new).
Proof.
  intros Hfind Hnew. apply list_find_Some in Hfind as (Hi & _ & Hfirst).
  apply list_find_Some. split; [| split; [exact Hnew |]].
  - apply list_lookup_insert_eq. eapply lookup_lt_Some, Hi.
  - intros j y Hj Hlt. rewrite list_lookup_insert_ne in Hj by lia.
    eapply Hfirst; eassumption.
Qed.

Lemma find_key_after_insert (lines : list string) (i : nat) (header new : string) :
  list_find is_key_line lines = None ->
  lines !! i = Some header ->
  is_key_line new ->
  list_find is_key_line (take (S i) lines ++ new :: drop (S i) lines)%list
  = Some (S i, new).
Proof.
  intros Hnone Hi Hnew. apply list_find_None in Hnone.
  assert (Hlength : length (take (S i) lines) = S i).
  { rewrite length_take. apply lookup_lt_Some in Hi. lia. }
  apply list_find_Some. split; [| split; [exact Hnew |]].
  - rewrite lookup_app_r by lia. rewrite Hlength, Nat.sub_diag. reflexivity.
  - intros j y Hj Hlt. rewrite lookup_app_l in Hj by lia.
    rewrite lookup_take_lt in Hj by lia.
    rewrite Forall_lookup in Hnone. eapply Hnone, Hj.
Qed.

Lemma replace_inserted (lines : list string) (i : nat) (header x y : string) :
  lines !! i = Some header ->
  <[S i := y]> (take (S i) lines ++ x :: drop (S i) lines)%list
  = (take (S i) lines ++ y :: drop (S i) lines)%list.
Proof.
  intros Hi.
  assert (Hlength : length (take (S i) lines) = S i).
  { rewrite length_take. apply lookup_lt_Some in Hi. lia. }
  rewrite insert_app_r_alt by lia. rewrite Hlength, Nat.sub_diag. reflexivity.
Qed.

(** The name written last is the one that stays, on the lines. *)
Lemma update_lines_twice (first second : string) (lines : list string) :
  update_lines second (update_lines first lines) = update_lines second lines.
Proof.
  unfold update_lines at 2 3.
  destruct (list_find is_key_line lines) as [[i old] |] eqn:Hkey.
  - unfold update_lines.
    rewrite (find_key_after_replace lines i old _ Hkey (bot_name_line_is_key first)).
    apply list_insert_insert_eq.
  - destruct (list_find is_header_line lines) as [[i header] |] eqn:Hheader.
    + apply list_find_Some in Hheader as (Hi & _ & _).
      unfold update_lines.
      rewrite (find_key_after_insert lines i header _ Hkey Hi
                 (bot_name_line_is_key first)).
      apply (replace_inserted lines i header), Hi.
    + unfold update_lines. rewrite Hkey, Hheader. reflexivity.
Qed.

Lemma update_lines_nonempty (name : string) (lines : list string) :
  lines <> [] -> update_lines name lines <> [].
Proof.
  intros Hlines Hnil. apply (f_equal length) in Hnil. revert Hnil.
  unfold update_lines.
  destruct (list_find is_key_line lines) as [[i old] |].
  - rewrite length_insert. destruct lines; [contradiction | discriminate].
  - destruct (list_find is_header_line lines) as [[i header] |].
    + rewrite length_app. cbn [length]. lia.
    + destruct lines; [contradiction | discriminate].
Qed.

Lemma update_lines_no_newline (name : string) (lines : list string) :
  has_newline name = false ->
  Forall (fun piece => any_char (Ascii.eqb newline) piece = false) lines ->
  Forall (fun piece => any_char (Ascii.eqb newline) piece = false)
    (update_lines name lines).
Proof.
  intros Hname Hlines.
  pose proof (bot_name_line_no_newline name Hname) as Hnew.
  unfold update_lines.
  destruct (list_find is_key_line lines) as [[i old] |].
  - apply Forall_insert; assumption.
  - destruct (list_find is_header_line lines) as [[i header] |]; [| exact Hlines].
    apply Forall_app. split; [apply Forall_take, Hlines |].
    constructor; [exact Hnew | apply Forall_drop, Hlines].
Qed.



(** X26. What can be read back. After the lines are updated, either the
    first line that starts with [DISCORD_BOT_NAME=] is the line written for
    the new name; or there is no such line, which happens exactly when the
    text had neither such a line nor the section header, and then the lines
    are as they were: the name is not written. *)
Theorem new_name_is_first_key_line :
  forall (new_bot_name : string) (lines : list string),
    match list_find is_key_line (update_lines new_bot_name lines) with
    | Some (_, line) =>
        line = bot_name_line new_bot_name
        /\ (Exists is_key_line lines \/ Exists is_header_line lines)
    | None =>
        Forall (fun l => ~ is_key_line l) lines
        /\ Forall (fun l => ~ is_header_line l) lines
        /\ update_lines new_bot_name lines = lines
    end.
Proof.
  intros new_bot_name lines. unfold update_lines.
  destruct (list_find is_key_line lines) as [[i old] |] eqn:Hkey.
  - rewrite (find_key_after_replace lines i old _ Hkey
               (bot_name_line_is_key new_bot_name)).
    split; [reflexivity |]. left.
    apply list_find_Some in Hkey as (Hi & Hold & _).
    apply Exists_exists. exists old. split; [| exact Hold].
    eapply list_elem_of_lookup_2, Hi.
  - destruct (list_find is_header_line lines) as [[i header] |] eqn:Hheader.
    + apply list_find_Some in Hheader as (Hi & Hh & _).
      rewrite (find_key_after_insert lines i header _ Hkey Hi
                 (bot_name_line_is_key new_bot_name)).
      split; [reflexivity |]. right.
      apply Exists_exists. exists header. split; [| exact Hh].
      eapply list_elem_of_lookup_2, Hi.
    + rewrite Hkey. apply list_find_None in Hkey. apply list_find_None in Hheader.
      split; [exact Hkey |]. split; [exact Hheader | reflexivity].
Qed.

(* ================================================================= *)
(** * The built-in templates *)

(** X27. Without a [prompts.json], [load_prompts] gives the built-in
    templates, and each of the four that the handlers format does format
    with the keyword the code supplies, whatever the value: the result is
    the text of the template with the value in the place of the
    placeholder. With the built-in templates no notice fails to format. *)
Theorem builtin_templates_format :
  forall (v : string),
    let prompts := load_prompts None in
    format (dict_get prompts "recording_start" "Recording started") "channel_name" v
    = Returned ("üéôÔ∏è Recording started in " +:+ v +:+ "!")
    /\ format (dict_get prompts "github_commit" "Files committed to GitHub")
         "commit_url" v
       = Returned ("üìÅ Files committed to GitHub: " +:+ v)
    /\ format (dict_get prompts "upload_success" "Video uploaded") "video_url" v
       = Returned ("‚úÖ Video uploaded: " +:+ v)
    /\ format (dict_get prompts "cloud_upload" "Uploaded to cloud storage") "file_path" v
       = Returned ("‚òÅÔ∏è Uploaded to cloud storage: " +:+ v).
Proof.
  intros v. cbn zeta.
  split; [reflexivity |].
  repeat split;
    match goal with
    | |- _ = Returned (?text +:+ v) =>
        transitivity (Returned (text +:+ (v +:+ "")));
        [reflexivity | rewrite append_empty_r; reflexivity]
    end.
Qed.

(* ================================================================= *)
(** * The automatic stop *)


